(** * PRINT_NALITECK: the RIP artifact synthesizer of [src/App.tsx]

    The development embeds [generateRIPFiles] (App.tsx, lines 176-305):
    the two text headers, the primary payload loop, the resampled
    preview, the print-head control block and the final assembly of the
    [.prt] and [.prt.pvw] buffers; and the page component around it
    (lines 17-174 and 307-320): the file input, the conversion with its
    status updates and downloads, and the status icon and colour.

    JavaScript numbers are IEEE-754 binary64.  Finite doubles are
    modelled by the rationals they denote; every arithmetic operation of
    the source is the exact rational operation followed by rounding to
    the nearest double, ties to even ([Binary64.round]).  [Math.sin],
    [Math.cos], [Math.random] and the clock are supplied by the engine
    and are fields of an environment record; pdf.js and the canvas are
    fields of a second one. *)

From Stdlib Require Import ZArith QArith Qround Qpower Qabs Lqa Lia.
From Stdlib Require Import List String Ascii Bool DecimalString.
From Stdlib Require Import PrimFloat FloatOps SpecFloat Uint63.
From Stdlib Require DecimalFacts.
Import ListNotations.

Local Open Scope Q_scope.

(** ** Binary64 rounding on rationals *)

Module Binary64.

(** [pow2 e] is 2^e for any integer exponent. *)
Definition pow2 (e : Z) : Q := 2 ^ e.

(** For x > 0, [binade x] is the k with 2^k <= x < 2^(k+1). *)
Definition binade (x : Q) : Z :=
  let k := (Z.log2 (Qnum x) - Z.log2 (Zpos (Qden x)))%Z in
  if Qle_bool (pow2 k) x then k else (k - 1)%Z.

(** Nearest integer, ties to even. *)
Definition rne (y : Q) : Z :=
  let n := Qfloor y in
  match Qcompare (y - inject_Z n) (1 # 2) with
  | Lt => n
  | Gt => (n + 1)%Z
  | Eq => if Z.even n then n else (n + 1)%Z
  end.

(** Exponent of the unit in the last place: 53 significant bits, with
    the subnormal floor 2^-1074. *)
Definition ulp_exp (x : Q) : Z := Z.max (binade x - 52) (-1074).

Definition round_pos (x : Q) : Q :=
  let e := ulp_exp x in inject_Z (rne (x / pow2 e)) * pow2 e.

(** Round to nearest double, ties to even.  Overflow to Infinity (above
    2^1024) is not represented: every quantity that reaches an array
    length is checked against 2^53 - 1 before use. *)
Definition round (x : Q) : Q :=
  match Qcompare x 0 with
  | Eq => 0
  | Gt => round_pos x
  | Lt => - round_pos (- x)
  end.

Definition fadd (x y : Q) : Q := round (x + y).
Definition fsub (x y : Q) : Q := round (x - y).
Definition fmul (x y : Q) : Q := round (x * y).
Definition fdiv (x y : Q) : Q := round (x / y).

(** Truncation toward zero. *)
Definition Qtrunc (x : Q) : Z :=
  if Qle_bool 0 x then Qfloor x else Qceiling x.

(** The [%] operator on doubles: the exact remainder with the sign of
    the dividend; it is always representable, so no rounding occurs.
    A zero divisor gives NaN in the source, which is outside the model;
    the divisors of the source are not zero whenever a loop body runs
    (a zero page width or page count makes the payload empty). *)
Definition frem (x y : Q) : Q := x - y * inject_Z (Qtrunc (x / y)).

Definition Math_floor (x : Q) : Q := inject_Z (Qfloor x).

End Binary64.

Import Binary64.

(** ** The JavaScript run-time pieces the function uses *)

(** The decimal literals of the source, as doubles. *)
Definition lit (q : Q) : Q := round q.

(** An integer input as a number: the nearest double, which is the
    integer itself up to 2^53 in magnitude. *)
Definition num (z : Z) : Q := round (inject_Z z).

(** Template-literal printing of an integer-valued number (decimal
    digits; the exponent notation used from 10^21 on is not modelled). *)
Definition Number_toString (z : Z) : string :=
  NilZero.string_of_int (Z.to_int z).

Definition newline : string := String (ascii_of_nat 10) EmptyString.

(** [lines.join('\n') + '\n'] *)
Definition join_lines (lines : list string) : string :=
  (String.concat newline lines ++ newline)%string.

(** [new TextEncoder().encode(s)]: the strings of Rocq are byte strings,
    so encoding lists the bytes. *)
Definition TextEncoder_encode (s : string) : list Z :=
  map (fun c => Z.of_N (N_of_ascii c)) (list_ascii_of_string s).

Definition MAX_SAFE_INTEGER : Z := 2 ^ 53 - 1.

(** [new Uint8Array(n)] and [new ArrayBuffer(n)] for an integer-valued
    n: [ToIndex] raises RangeError outside 0 .. 2^53 - 1 ([None]); the
    memory is zero-filled.  An engine raises RangeError for smaller
    sizes too, when it cannot allocate them, at a limit that is its
    own; that limit is not modelled.  A result [Some] therefore
    describes a run in which the engine had the memory, and the general
    theorems are stated for a call that returned. *)
Definition Uint8Array_new (n : Z) : option (list Z) :=
  if ((0 <=? n) && (n <=? MAX_SAFE_INTEGER))%Z
  then Some (repeat 0%Z (Z.to_nat n)) else None.

(** Conversion of a number to an array element: truncate, then reduce
    modulo 2^8 (wrap-around, no saturation). *)
Definition ToUint8 (v : Q) : Z := (Qtrunc v mod 256)%Z.

(** [a[i] = v] on a typed array; an index past the end is ignored. *)
Fixpoint store (a : list Z) (i : nat) (v : Z) : list Z :=
  match a, i with
  | [], _ => []
  | _ :: t, O => v :: t
  | h :: t, S j => h :: store t j v
  end.

(** [a[idx]]: [None] stands for [undefined]. *)
Definition load (a : list Z) (idx : Q) : option Z :=
  if Qle_bool 0 idx && Qeq_bool idx (inject_Z (Qfloor idx))
  then nth_error a (Z.to_nat (Qfloor idx)) else None.

(** [x || 0] on an array read: [undefined] and 0 both give 0. *)
Definition or_zero (x : option Z) : Z :=
  match x with Some v => v | None => 0%Z end.

(** [target.set(source, offset)]: RangeError when the source does not
    fit. *)
Definition set_at (target source : list Z) (offset : Q) : option (list Z) :=
  let off := Qtrunc offset in
  if ((0 <=? off)
      && (Z.of_nat (List.length source) + off <=? Z.of_nat (List.length target)))%Z
  then Some (firstn (Z.to_nat off) target ++ source
             ++ skipn (Z.to_nat off + List.length source) target)
  else None.

(** [for (let i = start; ...; i++) body], [count] iterations. *)
Fixpoint for_loop {St : Type} (body : nat -> St -> St)
    (i count : nat) (st : St) : St :=
  match count with
  | O => st
  | S c => for_loop body (S i) c (body i st)
  end.

(** The length of an array as a number. *)
Definition len (a : list Z) : Q := inject_Z (Z.of_nat (List.length a)).

(** Sequencing of steps that may raise. *)
Definition bind {A B : Type} (x : option A) (k : A -> option B) : option B :=
  match x with Some a => k a | None => None end.

Notation "'do' x <- e ; k" := (bind e (fun x => k))
  (at level 10, x name, e at level 100, k at level 200).

(** ** Data model *)

Inductive ColorMode : Type := CMYK | Grayscale | BlackWhite.

(** The settings of lines 4-8; [dpi] and [compressionLevel] are the
    integers that the resolution menu (300, 600, 1200, 2400) and the
    compression slider (10 .. 100) deliver. *)
Record ConversionSettings : Type := {
  dpi : Z;
  colorMode : ColorMode;
  compressionLevel : Z
}.

(** What the PDF decoder hands over: the page count and the first
    page's viewport at [dpi / 72], after [Math.ceil] (lines 178-186). *)
Record PageGeometry : Type := {
  pageWidth : Z;
  pageHeight : Z;
  numPages : Z
}.

(** The engine: [Math.sin], [Math.cos], the successive results of
    [Math.random()] and of [new Date().toISOString()]. *)
Record Engine : Type := {
  Math_sin : Q -> Q;
  Math_cos : Q -> Q;
  Math_random : nat -> Q;
  toISOString : nat -> string
}.

(** The result, with the intermediate arrays kept for inspection. *)
Record RIPFiles : Type := {
  prtHeader : list Z;
  pvwHeader : list Z;
  prtImageData : list Z;
  pvwImageData : list Z;
  controlData : list Z;
  prtData : list Z;
  pvwData : list Z
}.

Definition colorModeName (c : ColorMode) : string :=
  match c with
  | CMYK => "CMYK"
  | Grayscale => "Grayscale"
  | BlackWhite => "BlackWhite"
  end.

(** ** generateRIPFiles (App.tsx, lines 176-305) *)

Section Generate.

Variable E : Engine.
Variable g : PageGeometry.
Variable s : ConversionSettings.

(** Lines 189-192: the size policy. *)
Definition bytesPerPixel : Z :=
  match colorMode s with CMYK => 4 | Grayscale => 1 | BlackWhite => 1 end.

Definition compressionRatio : Q := fdiv (num (compressionLevel s)) 100.

Definition baseImageSize : Q :=
  fmul (fmul (fmul (num (pageWidth g)) (num (pageHeight g)))
             (inject_Z bytesPerPixel))
       (num (numPages g)).

Definition compressedImageSize : Z :=
  Qfloor (fmul baseImageSize (fadd (fsub 1 compressionRatio) (lit (3 # 10)))).

(** Lines 195-217: the [.prt] header. *)
Definition prtHeaderLines : list string :=
  [ "RICOH_GEN6_RIP_V3.2";
    "FILE_TYPE:PRINT_DATA";
    "CREATED_BY:PDF_TO_RIP_CONVERTER";
    "TIMESTAMP:" ++ toISOString E 0;
    "DPI:" ++ Number_toString (dpi s);
    "COLOR_MODE:" ++ colorModeName (colorMode s);
    "COMPRESSION:" ++ Number_toString (compressionLevel s);
    "PAGES:" ++ Number_toString (numPages g);
    "PAGE_WIDTH:" ++ Number_toString (pageWidth g);
    "PAGE_HEIGHT:" ++ Number_toString (pageHeight g);
    "BYTES_PER_PIXEL:" ++ Number_toString bytesPerPixel;
    "PRINT_HEAD_CONFIG:RICOH_GEN6";
    "NOZZLE_COUNT:1280";
    "DROP_SIZE:6PL";
    "FIRING_FREQUENCY:40KHZ";
    "PASS_COUNT:4";
    "INTERLEAVE_MODE:ENABLED";
    "COLOR_SEPARATION:ENABLED";
    "HALFTONE_METHOD:ERROR_DIFFUSION";
    "INK_DENSITY_CONTROL:ENABLED";
    "DROPLET_PLACEMENT_DATA_START" ]%string.

Definition encode_prtHeader : list Z :=
  TextEncoder_encode (join_lines prtHeaderLines).

(** Lines 220-237: the [.prt.pvw] header.  With [dpi] = 0 the source
    divides by zero and prints NaN; the statements about the preview
    dimensions are made for [dpi] > 0. *)
Definition previewDPI : Z := Z.min (dpi s) 300.

Definition previewWidth : Z :=
  Qceiling (fmul (num (pageWidth g)) (fdiv (num previewDPI) (num (dpi s)))).

Definition previewHeight : Z :=
  Qceiling (fmul (num (pageHeight g)) (fdiv (num previewDPI) (num (dpi s)))).

Definition pvwHeaderLines : list string :=
  [ "RICOH_GEN6_PREVIEW_V3.2";
    "FILE_TYPE:PREVIEW_DATA";
    "CREATED_BY:PDF_TO_RIP_CONVERTER";
    "TIMESTAMP:" ++ toISOString E 1;
    "DPI:" ++ Number_toString previewDPI;
    "COLOR_MODE:" ++ colorModeName (colorMode s);
    "COMPRESSION:90";
    "PAGES:" ++ Number_toString (numPages g);
    "PAGE_WIDTH:" ++ Number_toString previewWidth;
    "PAGE_HEIGHT:" ++ Number_toString previewHeight;
    "BYTES_PER_PIXEL:" ++ Number_toString bytesPerPixel;
    "PREVIEW_DATA_START" ]%string.

Definition encode_pvwHeader : list Z :=
  TextEncoder_encode (join_lines pvwHeaderLines).

(** Lines 244-264: one iteration of the payload loop.  [size] is
    [prtImageDataSize], [k] counts the calls of [Math.random] made so
    far; the result is the number stored and the new count. *)
Definition pageOffset (size : Z) (i : nat) : Q :=
  frem (inject_Z (Z.of_nat i)) (fdiv (inject_Z size) (num (numPages g))).

Definition row (size : Z) (i : nat) : Q :=
  Math_floor (fdiv (pageOffset size i) (num (pageWidth g))).

Definition col (size : Z) (i : nat) : Q :=
  frem (pageOffset size i) (num (pageWidth g)).

Definition density (step : Q) (size : Z) (i : nat) : Q :=
  fadd (fmul (fmul (Math_sin E (fmul (row size i) step))
                   (Math_cos E (fmul (col size i) step)))
             127)
       128.

Definition pixel (size : Z) (i k : nat) : Q * nat :=
  match colorMode s with
  | CMYK =>
      (* [channel] is bound by the source and never read *)
      let channel := frem (inject_Z (Z.of_nat i)) 4 in
      (Math_floor (fmul (density (lit (1 # 100)) size i)
                        (fadd (lit (8 # 10))
                              (fmul (Math_random E k) (lit (4 # 10))))),
       S k)
  | Grayscale =>
      (Math_floor (fmul (density (lit (2 # 100)) size i)
                        (fadd (lit (7 # 10))
                              (fmul (Math_random E k) (lit (6 # 10))))),
       S k)
  | BlackWhite =>
      let threshold := density (lit (1 # 10)) size i in
      (if Qle_bool threshold 128 then 0 else 255, k)
  end.

Definition fill_prtImageData (size : Z) (a : list Z) (k : nat)
  : list Z * nat :=
  for_loop
    (fun i st =>
       let '(v, k') := pixel size i (snd st) in
       (store (fst st) i (ToUint8 v), k'))
    0 (List.length a) (a, k).

(** Lines 267-274: the preview is resampled from the payload. *)
Definition pvwImageDataSize : Z :=
  Qfloor (fmul (fmul (fmul (fmul (inject_Z previewWidth)
                                 (inject_Z previewHeight))
                           (inject_Z bytesPerPixel))
                     (num (numPages g)))
               (lit (9 # 10))).

Definition sourceIndex (pvwSize prtSize : Z) (i : nat) : Q :=
  Math_floor (fmul (fdiv (inject_Z (Z.of_nat i)) (inject_Z pvwSize))
                   (inject_Z prtSize)).

Definition fill_pvwImageData (prt : list Z) (pvwSize prtSize : Z)
    (a : list Z) : list Z :=
  for_loop
    (fun i b =>
       store b i
         (ToUint8 (inject_Z (or_zero (load prt (sourceIndex pvwSize prtSize i))))))
    0 (List.length a) a.

(** Lines 277-286: the print-head control block. *)
Definition controlDataSize (prtSize : Z) : Z :=
  Qfloor (fmul (inject_Z prtSize) (lit (1 # 10))).

Definition firingDelay (i : nat) : Q :=
  let nozzleIndex := frem (inject_Z (Z.of_nat i)) 1280 in
  Math_floor (fmul (fdiv nozzleIndex 1280) 255).

Definition dropletSize (k : nat) : Q * nat :=
  match colorMode s with
  | BlackWhite => (255, k)
  | _ => (Math_floor (fadd 128 (fmul (Math_random E k) 127)), S k)
  end.

Definition control (i k : nat) : Q * nat :=
  let '(d, k') := dropletSize k in
  (frem (fadd (firingDelay i) d) 256, k').

Definition fill_controlData (size : Z) (a : list Z) (k : nat)
  : list Z * nat :=
  for_loop
    (fun i st =>
       let '(v, k') := control i (snd st) in
       (store (fst st) i (ToUint8 v), k'))
    0 (Z.to_nat size) (a, k).

(** Lines 289-299: assembly of the two buffers. *)
Definition assemble_prt (h p c : list Z) : option (list Z) :=
  do r0 <- Uint8Array_new (Qtrunc (fadd (fadd (len h) (len p)) (len c)));
  do r1 <- set_at r0 h 0;
  do r2 <- set_at r1 p (len h);
  set_at r2 c (fadd (len h) (len p)).

Definition assemble_pvw (h p : list Z) : option (list Z) :=
  do r0 <- Uint8Array_new (Qtrunc (fadd (len h) (len p)));
  do r1 <- set_at r0 h 0;
  set_at r1 p (len h).

Definition generateRIPFiles : option RIPFiles :=
  let prtImageDataSize := compressedImageSize in
  do a0 <- Uint8Array_new prtImageDataSize;
  let '(prt, k1) := fill_prtImageData prtImageDataSize a0 0 in
  do b0 <- Uint8Array_new pvwImageDataSize;
  let pvw := fill_pvwImageData prt pvwImageDataSize prtImageDataSize b0 in
  do c0 <- Uint8Array_new (controlDataSize prtImageDataSize);
  let '(ctl, _) := fill_controlData (controlDataSize prtImageDataSize) c0 k1 in
  do prtResult <- assemble_prt encode_prtHeader prt ctl;
  do pvwResult <- assemble_pvw encode_pvwHeader pvw;
  Some {| prtHeader := encode_prtHeader;
          pvwHeader := encode_pvwHeader;
          prtImageData := prt;
          pvwImageData := pvw;
          controlData := ctl;
          prtData := prtResult;
          pvwData := pvwResult |}.

End Generate.

(** ** The outcome of a successful call *)

Section Outcome.

Variable E : Engine.
Variable g : PageGeometry.
Variable s : ConversionSettings.

(** Calls of [Math.random] per byte, in the payload loop and in the
    control loop alike. *)
Definition draws : nat :=
  match colorMode s with BlackWhite => 0 | _ => 1 end.

(** The byte the payload loop leaves at index i. *)
Definition prt_byte (i : nat) : Z :=
  ToUint8 (fst (pixel E g s (compressedImageSize g s) i (draws * i))).

(** The byte the preview loop leaves at index i. *)
Definition pvw_byte (prt : list Z) (i : nat) : Z :=
  ToUint8 (inject_Z (or_zero
    (load prt (sourceIndex (pvwImageDataSize g s) (compressedImageSize g s) i)))).

(** The byte the control loop leaves at index i. *)
Definition ctl_byte (i : nat) : Z :=
  ToUint8 (fst (control E s i
    (draws * Z.to_nat (compressedImageSize g s) + draws * i))).

(** The arrays of a successful call, index by index, and the two
    buffers as concatenations. *)
Record generated (out : RIPFiles) : Prop := {
  gen_prt_size : (0 <= compressedImageSize g s <= MAX_SAFE_INTEGER)%Z;
  gen_pvw_size : (0 <= pvwImageDataSize g s <= MAX_SAFE_INTEGER)%Z;
  gen_ctl_size :
    (0 <= controlDataSize (compressedImageSize g s) <= MAX_SAFE_INTEGER)%Z;
  gen_prtHeader : prtHeader out = encode_prtHeader E g s;
  gen_pvwHeader : pvwHeader out = encode_pvwHeader E g s;
  gen_prt :
    prtImageData out
    = map prt_byte (seq 0 (Z.to_nat (compressedImageSize g s)));
  gen_pvw :
    pvwImageData out
    = map (pvw_byte (prtImageData out))
          (seq 0 (Z.to_nat (pvwImageDataSize g s)));
  gen_ctl :
    controlData out
    = map ctl_byte
          (seq 0 (Z.to_nat (controlDataSize (compressedImageSize g s))));
  gen_prtData :
    prtData out = prtHeader out ++ prtImageData out ++ controlData out;
  gen_pvwData : pvwData out = pvwHeader out ++ pvwImageData out
}.

End Outcome.

(** ** The page component (App.tsx, lines 10-174 and 307-320) *)

Inductive StatusType : Type := info | success | error.

(** Lines 10-15.  [progress] only ever holds integers. *)
Record ConversionStatus : Type := {
  isConverting : bool;
  progress : Z;
  message : string;
  type : StatusType
}.

(** What the component reads of a browser [File]. *)
Module File.
Record t : Type := {
  name : string;
  type : string
}.
End File.

(** What a document opened by pdf.js answers: the page count and the
    width and height of the first page's viewport at a scale. *)
Record PDFDocumentProxy : Type := {
  pdf_numPages : Z;
  getViewport : Q -> Q * Q
}.

(** The browser around the component.  [getDocument] is the outcome of
    lines 178-183 for a file: the opened document, or the value thrown
    ([Some m] for an [Error] with message m, [None] for any other
    value).  [renderFirstPage] is the outcome of lines 54-83: the data
    URL of the rendered first page, or [None] when a step throws.
    [RangeError_message] is the text the engine gives a RangeError. *)
Record Browser : Type := {
  engine : Engine;
  getDocument : File.t -> PDFDocumentProxy + option string;
  renderFirstPage : File.t -> option string;
  RangeError_message : string
}.

(** [Math.round]: the nearest integer, ties toward +Infinity. *)
Definition Math_round (x : Q) : Z := Qfloor (x + (1 # 2)).

(** The string without its first n characters. *)
Fixpoint String_drop (n : nat) (s : string) : string :=
  match n, s with
  | O, _ => s
  | S _, EmptyString => EmptyString
  | S m, String _ rest => String_drop m rest
  end.

(** [s.replace(pattern, replacement)] for a string pattern: the first
    occurrence only.  The replacement of the source is the empty
    string, so no [$] sequence is interpreted.  Strings are the UTF-8
    bytes of the text; an ASCII pattern such as [.pdf] occurs first at
    the same place in the bytes and in the UTF-16 units of the source. *)
Fixpoint String_replace (pattern replacement s : string) {struct s} : string :=
  if String.prefix pattern s
  then (replacement ++ String_drop (String.length pattern) s)%string
  else match s with
       | EmptyString => EmptyString
       | String c rest => String c (String_replace pattern replacement rest)
       end.

(** Lines 176-186 around the synthesizer: the page geometry is read
    off the first page's viewport at [dpi / 72]. *)
Definition pageGeometry (pdf : PDFDocumentProxy) (s : ConversionSettings)
  : PageGeometry :=
  let viewport := getViewport pdf (fdiv (num (dpi s)) 72) in
  {| pageWidth := Qceiling (fst viewport);
     pageHeight := Qceiling (snd viewport);
     numPages := pdf_numPages pdf |}.

(** [generateRIPFiles(file, settings)] as the component calls it: what
    pdf.js throws is passed on, and the synthesizer itself raises
    nothing but RangeError. *)
Definition generateRIPFiles_of (B : Browser) (file : File.t)
    (s : ConversionSettings) : RIPFiles + option string :=
  match getDocument B file with
  | inr thrown => inr thrown
  | inl pdf =>
      match generateRIPFiles (engine B) (pageGeometry pdf s) s with
      | Some out => inl out
      | None => inr (Some (RangeError_message B))
      end
  end.

(** Lines 96-174: [convertToRIP].  The result lists the values given to
    [setStatus], in order, and the downloads started.  The waits of
    800 ms between the steps are not represented, and no other handler
    is taken to run during them. *)
Record Download : Type := {
  download : string;
  blob : list Z
}.

Record Conversion : Type := {
  statuses : list ConversionStatus;
  downloads : list Download
}.

Definition steps : list string :=
  [ "Carregando PDF...";
    "Extraindo páginas...";
    "Processando imagens...";
    "Aplicando configurações de cor...";
    "Ajustando resolução...";
    "Gerando arquivo .prt...";
    "Gerando arquivo .prt.pvw...";
    "Finalizando arquivo..." ]%string.

(** Lines 120-124: the functional update of one step. *)
Definition stepStatus (prev : ConversionStatus) (i : nat) : ConversionStatus :=
  {| isConverting := isConverting prev;
     progress :=
       Math_round
         (fmul (fdiv (inject_Z (Z.of_nat i))
                     (inject_Z (Z.of_nat (List.length steps))))
               100);
     message := nth i steps EmptyString;
     type := type prev |}.

Fixpoint stepStatuses (prev : ConversionStatus) (i count : nat)
  : list ConversionStatus :=
  match count with
  | O => []
  | S c =>
      let next := stepStatus prev i in
      next :: stepStatuses next (S i) c
  end.

Definition convertToRIP (B : Browser) (selectedFile : option File.t)
    (settings : ConversionSettings) : Conversion :=
  match selectedFile with
  | None => {| statuses := []; downloads := [] |}
  | Some file =>
      let started :=
        {| isConverting := true;
           progress := 0;
           message := "Iniciando conversão...";
           type := info |} in
      let during := started :: stepStatuses started 0 (List.length steps) in
      match generateRIPFiles_of B file settings with
      | inl out =>
          let baseName := String_replace ".pdf" EmptyString (File.name file) in
          {| statuses :=
               during
               ++ [ {| isConverting := false;
                       progress := 100;
                       message :=
                         "Conversão concluída! Arquivos .prt e .prt.pvw gerados com sucesso!";
                       type := success |} ];
             downloads :=
               [ {| download := baseName ++ ".prt"; blob := prtData out |};
                 {| download := baseName ++ ".prt.pvw";
                    blob := pvwData out |} ] |}
      | inr thrown =>
          {| statuses :=
               during
               ++ [ {| isConverting := false;
                       progress := 0;
                       message :=
                         "Erro na conversão: "
                         ++ match thrown with
                            | Some m => m
                            | None => "Erro desconhecido"
                            end;
                       type := error |} ];
             downloads := [] |}
      end
  end.

(** Lines 17-31: the state of the component. *)
Record AppState : Type := {
  selectedFile : option File.t;
  previewUrl : string;
  settings : ConversionSettings;
  status : ConversionStatus
}.

Definition initialState : AppState :=
  {| selectedFile := None;
     previewUrl := EmptyString;
     settings := {| dpi := 600; colorMode := CMYK; compressionLevel := 80 |};
     status := {| isConverting := false; progress := 0;
                  message := EmptyString; type := info |} |}.

Definition setSelectedFile (f : option File.t) (st : AppState) : AppState :=
  {| selectedFile := f; previewUrl := previewUrl st;
     settings := settings st; status := status st |}.

Definition setPreviewUrl (u : string) (st : AppState) : AppState :=
  {| selectedFile := selectedFile st; previewUrl := u;
     settings := settings st; status := status st |}.

Definition setSettings (s : ConversionSettings) (st : AppState) : AppState :=
  {| selectedFile := selectedFile st; previewUrl := previewUrl st;
     settings := s; status := status st |}.

Definition setStatus (x : ConversionStatus) (st : AppState) : AppState :=
  {| selectedFile := selectedFile st; previewUrl := previewUrl st;
     settings := settings st; status := x |}.

(** Lines 51-94. *)
Definition generatePreview (B : Browser) (file : File.t) (st : AppState)
  : AppState :=
  match renderFirstPage B file with
  | Some previewDataUrl => setPreviewUrl previewDataUrl st
  | None =>
      setStatus {| isConverting := false; progress := 0;
                   message := "Erro ao gerar preview do PDF";
                   type := error |} st
  end.

(** Lines 33-49; [files] is [event.target.files]. *)
Definition handleFileSelect (B : Browser) (files : list File.t)
    (st : AppState) : AppState :=
  match files with
  | [] => st
  | file :: _ =>
      if String.eqb (File.type file) "application/pdf"
      then generatePreview B file (setSelectedFile (Some file) st)
      else
        setStatus {| isConverting := false; progress := 0;
                     message := "Por favor, selecione apenas arquivos PDF";
                     type := error |} st
  end.

(** Lines 307-320. *)
Inductive Icon : Type := Loader2 | CheckCircle | AlertCircle.

Definition getStatusIcon (status : ConversionStatus) : option Icon :=
  if isConverting status then Some Loader2
  else match type status with
       | success => Some CheckCircle
       | error => Some AlertCircle
       | info => None
       end.

Definition getStatusColor (status : ConversionStatus) : string :=
  match type status with
  | success => "bg-green-50 border-green-200 text-green-800"
  | error => "bg-red-50 border-red-200 text-red-800"
  | info => "bg-blue-50 border-blue-200 text-blue-800"
  end.

(** Line 429: the convert button. *)
Definition convertDisabled (st : AppState) : bool :=
  match selectedFile st with None => true | Some _ => false end
  || isConverting (status st).

(** Line 463: the status panel is rendered for a non-empty message. *)
Definition statusShown (x : ConversionStatus) : bool :=
  negb (String.eqb (message x) EmptyString).

(** The events of the page, each handled to completion before the
    next: a change of the file input, of the three settings controls,
    and a click on the convert button (which a disabled button does not
    deliver). *)
Inductive Event : Type :=
| FileInputChange (files : list File.t)
| DpiChange (value : Z)
| ColorModeChange (value : ColorMode)
| CompressionChange (value : Z)
| ConvertClick.

(** The page with what it has shown and delivered: the status after
    each change of the file input, every value a conversion gave the
    status, and every download started, oldest first. *)
Record Page : Type := {
  state : AppState;
  shown : list ConversionStatus;
  delivered : list Download
}.

Definition handle (B : Browser) (ev : Event) (p : Page) : Page :=
  let st := state p in
  match ev with
  | FileInputChange files =>
      let st' := handleFileSelect B files st in
      {| state := st'; shown := shown p ++ [status st'];
         delivered := delivered p |}
  | DpiChange v =>
      {| state :=
           setSettings
             {| dpi := v;
                colorMode := colorMode (settings st);
                compressionLevel := compressionLevel (settings st) |} st;
         shown := shown p; delivered := delivered p |}
  | ColorModeChange c =>
      {| state :=
           setSettings
             {| dpi := dpi (settings st);
                colorMode := c;
                compressionLevel := compressionLevel (settings st) |} st;
         shown := shown p; delivered := delivered p |}
  | CompressionChange v =>
      {| state :=
           setSettings
             {| dpi := dpi (settings st);
                colorMode := colorMode (settings st);
                compressionLevel := v |} st;
         shown := shown p; delivered := delivered p |}
  | ConvertClick =>
      if convertDisabled st then p
      else
        let c := convertToRIP B (selectedFile st) (settings st) in
        {| state := setStatus (last (statuses c) (status st)) st;
           shown := shown p ++ statuses c;
           delivered := delivered p ++ downloads c |}
  end.

Fixpoint run (events : list (Browser * Event)) (p : Page) : Page :=
  match events with
  | [] => p
  | (B, ev) :: rest => run rest (handle B ev p)
  end.

Definition initialPage : Page :=
  {| state := initialState; shown := [status initialState]; delivered := [] |}.

(** ** Definitions the statements are worded with *)

(** The eleven identity fields of the primary header. *)
Definition prtIdentityFields (E : Engine) (g : PageGeometry)
    (s : ConversionSettings) : list string :=
  [ "RICOH_GEN6_RIP_V3.2";
    "FILE_TYPE:PRINT_DATA";
    "CREATED_BY:PDF_TO_RIP_CONVERTER";
    "TIMESTAMP:" ++ toISOString E 0;
    "DPI:" ++ Number_toString (dpi s);
    "COLOR_MODE:" ++ colorModeName (colorMode s);
    "COMPRESSION:" ++ Number_toString (compressionLevel s);
    "PAGES:" ++ Number_toString (numPages g);
    "PAGE_WIDTH:" ++ Number_toString (pageWidth g);
    "PAGE_HEIGHT:" ++ Number_toString (pageHeight g);
    "BYTES_PER_PIXEL:" ++ Number_toString (bytesPerPixel s) ]%string.

(** The fixed print-head fields that follow them. *)
Definition deviceCapabilityFields : list string :=
  [ "PRINT_HEAD_CONFIG:RICOH_GEN6";
    "NOZZLE_COUNT:1280";
    "DROP_SIZE:6PL";
    "FIRING_FREQUENCY:40KHZ";
    "PASS_COUNT:4";
    "INTERLEAVE_MODE:ENABLED";
    "COLOR_SEPARATION:ENABLED";
    "HALFTONE_METHOD:ERROR_DIFFUSION";
    "INK_DENSITY_CONTROL:ENABLED" ]%string.


Definition with_compressionLevel (s : ConversionSettings) (c : Z)
  : ConversionSettings :=
  {| dpi := dpi s; colorMode := colorMode s; compressionLevel := c |}.

(** floor(n / 1280 * 255) in doubles is the exact integer quotient for
    each of the 1280 nozzles. *)
Definition firingDelay_table_ok : bool :=
  forallb
    (fun n => (Qfloor (fmul (fdiv (inject_Z n) 1280) 255) =? n * 255 / 1280)%Z)
    (map Z.of_nat (seq 0 1280)).

(** [B2Q] reads a primitive float as the rational it denotes. *)
Definition B2Q (f : float) : Q :=
  match Prim2SF f with
  | S754_finite sg m e =>
      (if sg then -1 else 1) * inject_Z (Zpos m) * pow2 e
  | _ => 0
  end.

(** A grid of quotients, products, differences and sums on which the
    hardware operations and [round] are compared. *)
Definition float_of_Z (z : Z) : float := PrimFloat.of_uint63 (Uint63.of_Z z).

Definition agree (f : float) (q : Q) : bool := Qeq_bool (B2Q f) q.

Definition grid (n : nat) : list (Z * Z) :=
  list_prod (map Z.of_nat (seq 1 n)) (map Z.of_nat (seq 1 n)).

Definition grid_ok (n : nat) : bool :=
  forallb
    (fun p : Z * Z =>
       let '(a, b) := p in
       let fa := float_of_Z a in
       let fb := float_of_Z b in
       let qa := inject_Z a in
       let qb := inject_Z b in
       (agree (fa / fb) (fdiv qa qb)
        && agree (fa / fb * fa) (fmul (fdiv qa qb) qa)
        && agree (1 - fa / fb) (fsub 1 (fdiv qa qb))
        && agree (1 - fa / fb + 0x1.3333333333333p-2)
                 (fadd (fsub 1 (fdiv qa qb)) (lit (3 # 10)))
        && agree (fb * (fa / 100 * 0x1.999999999999ap-4))
                 (fmul qb (fmul (fdiv qa 100) (lit (1 # 10)))))%float)
    (grid n).

(** An element of a [Uint8Array]. *)
Definition is_byte (b : Z) : Prop := (0 <= b < 256)%Z.

(** The engine with another stream of random draws. *)
Definition with_Math_random (E : Engine) (r : nat -> Q) : Engine :=
  {| Math_sin := Math_sin E; Math_cos := Math_cos E;
     Math_random := r; toISOString := toISOString E |}.

(** The two downloads of one conversion. *)
Definition paired (x : string * RIPFiles) : list Download :=
  [ {| download := fst x ++ ".prt"; blob := prtData (snd x) |};
    {| download := fst x ++ ".prt.pvw"; blob := pvwData (snd x) |} ].

(** The four shapes a status value can have. *)
Definition status_shape (x : ConversionStatus) : Prop :=
  (isConverting x = true /\ type x = info /\ (0 <= progress x <= 88)%Z)
  \/ (isConverting x = false /\ type x = success /\ progress x = 100%Z)
  \/ (isConverting x = false /\ type x = error /\ progress x = 0%Z
      /\ message x <> EmptyString)
  \/ x = status initialState.

(** Whether a pattern occurs in a string, as [s.includes(pattern)]. *)
Fixpoint String_includes (pattern s : string) {struct s} : bool :=
  String.prefix pattern s
  || match s with
     | EmptyString => false
     | String _ rest => String_includes pattern rest
     end.

(** An event the controls of the page can deliver: a resolution of the
    menu (lines 384-387), a level within the bounds of the slider
    (lines 412-413). *)
Definition from_controls (ev : Event) : Prop :=
  match ev with
  | DpiChange value => In value [300; 600; 1200; 2400]%Z
  | CompressionChange value => (10 <= value <= 100)%Z
  | _ => True
  end.

Definition settings_in_range (s : ConversionSettings) : Prop :=
  In (dpi s) [300; 600; 1200; 2400]%Z
  /\ (10 <= compressionLevel s <= 100)%Z.

(** What holds of the page between two events. *)
Definition consistent (p : Page) : Prop :=
  (forall f, selectedFile (state p) = Some f ->
             File.type f = "application/pdf"%string)
  /\ isConverting (status (state p)) = false
  /\ status_shape (status (state p))
  /\ Forall status_shape (shown p)
  /\ exists l, delivered p = flat_map paired l.

(** The size formula as C4 words it, in exact arithmetic. *)
Definition exact_payload_size (g : PageGeometry) (s : ConversionSettings) : Z :=
  Qfloor (inject_Z (pageWidth g) * inject_Z (pageHeight g)
          * inject_Z (bytesPerPixel s) * inject_Z (numPages g)
          * (1 - inject_Z (compressionLevel s) / 100 + (3 # 10))).

(** The sampled index as C6 words it, in exact arithmetic. *)
Definition exact_sourceIndex (pvwSize prtSize : Z) (i : nat) : Z :=
  Qfloor (inject_Z (Z.of_nat i) / inject_Z pvwSize * inject_Z prtSize).

(** ** A reference engine for concrete runs

    Sine and cosine by their power series in 120-bit fixed point,
    rounded to a double (accurate for arguments of a few units, which
    is all the small pages below need); the k-th random draw is the
    last decimal digit of k, in tenths. *)

Definition fx : Z := 2 ^ 120.

Fixpoint series (n : nat) (term x2 k acc : Z) : Z :=
  match n with
  | O => acc
  | S m =>
      let term' := (- (term * x2 / fx) / ((k + 1) * (k + 2)))%Z in
      series m term' x2 (k + 2)%Z (acc + term')%Z
  end.

Definition to_fx (x : Q) : Z := Qfloor (x * inject_Z fx).

Definition of_fx (z : Z) : Q := Qmake z (2 ^ 120).

Definition ref_sin (x : Q) : Q :=
  let X := to_fx x in round (of_fx (series 30 X (X * X / fx) 1 X)).

Definition ref_cos (x : Q) : Q :=
  let X := to_fx x in round (of_fx (series 30 fx (X * X / fx) 0 fx)).

Definition ref_random (k : nat) : Q :=
  lit (inject_Z (Z.of_nat k mod 10) / 10).

Definition ref_engine : Engine := {|
  Math_sin := ref_sin;
  Math_cos := ref_cos;
  Math_random := ref_random;
  toISOString := fun _ => "2024-05-17T09:30:00.000Z"%string
|}.

(** The reference engine with sine and cosine held within [-1, 1] for
    every argument. *)
Definition unit_clamp (q : Q) : Q :=
  if Qle_bool q (-1) then -1 else if Qle_bool 1 q then 1 else q.

Definition bounded_engine : Engine := {|
  Math_sin := fun x => unit_clamp (ref_sin x);
  Math_cos := fun x => unit_clamp (ref_cos x);
  Math_random := ref_random;
  toISOString := toISOString ref_engine
|}.

(** ** Concrete documents *)

Definition letter_geometry : PageGeometry :=
  {| pageWidth := 850; pageHeight := 1100; numPages := 1 |}.

Definition letter_settings : ConversionSettings :=
  {| dpi := 600; colorMode := BlackWhite; compressionLevel := 80 |}.

Definition letter_settings_at (c : Z) : ConversionSettings :=
  with_compressionLevel letter_settings c.

Definition tiny_geometry : PageGeometry :=
  {| pageWidth := 2; pageHeight := 1; numPages := 4 |}.

Definition tiny_settings : ConversionSettings :=
  {| dpi := 600; colorMode := CMYK; compressionLevel := 65 |}.

Definition tall_geometry : PageGeometry :=
  {| pageWidth := 1; pageHeight := 200; numPages := 1 |}.

Definition tall_settings : ConversionSettings :=
  {| dpi := 600; colorMode := CMYK; compressionLevel := 30 |}.

(** A page whose payload is empty at level 100. *)
Definition speck_geometry : PageGeometry :=
  {| pageWidth := 2; pageHeight := 1; numPages := 1 |}.

Definition speck_settings : ConversionSettings :=
  {| dpi := 300; colorMode := BlackWhite; compressionLevel := 100 |}.

(** Two pages of 4 x 3 pixels in black and white. *)
Definition booklet_geometry : PageGeometry :=
  {| pageWidth := 4; pageHeight := 3; numPages := 2 |}.

Definition booklet_settings : ConversionSettings :=
  {| dpi := 600; colorMode := BlackWhite; compressionLevel := 30 |}.

(** Three pages of 5 x 6 pixels in grayscale: 90 payload bytes, 10
    preview bytes. *)
Definition quilt_geometry : PageGeometry :=
  {| pageWidth := 5; pageHeight := 6; numPages := 3 |}.

Definition quilt_settings : ConversionSettings :=
  {| dpi := 1200; colorMode := Grayscale; compressionLevel := 30 |}.

(** A browser holding a four-page document whose first page measures
    0.2 x 0.1 points, and a session on it. *)
Definition sample_document : PDFDocumentProxy :=
  {| pdf_numPages := 4;
     getViewport := fun scale => (fmul (2 # 10) scale, fmul (1 # 10) scale) |}.

Definition sample_browser : Browser :=
  {| engine := ref_engine;
     getDocument := fun _ => inl sample_document;
     renderFirstPage := fun _ => Some "data:image/png;base64,"%string;
     RangeError_message := "Invalid typed array length"%string |}.

Definition sample_file : File.t :=
  {| File.name := "label.pdf"; File.type := "application/pdf" |}.

Definition text_file : File.t :=
  {| File.name := "notes.txt"; File.type := "text/plain" |}.

Definition sample_session : list (Browser * Event) :=
  [ (sample_browser, FileInputChange [sample_file]);
    (sample_browser, CompressionChange 65);
    (sample_browser, ConvertClick) ].

(** * Properties *)

(** ** Facts about binary64 rounding *)

Module Binary64Facts.

(** *** Powers of two *)

Lemma two_neq_0 : ~ 2 == 0.
Proof. discriminate. Qed.

Lemma pow2_pos e : 0 < pow2 e.
Proof. apply Qpower_0_lt. reflexivity. Qed.

Lemma pow2_add a b : pow2 (a + b) == pow2 a * pow2 b.
Proof. apply Qpower_plus, two_neq_0. Qed.

Lemma pow2_succ a : pow2 (a + 1) == 2 * pow2 a.
Proof. rewrite pow2_add. unfold pow2 at 2. simpl. ring. Qed.

Lemma pow2_pred a : pow2 a == 2 * pow2 (a - 1).
Proof. rewrite <- pow2_succ. replace (a - 1 + 1)%Z with a by lia. reflexivity. Qed.

Lemma pow2_sub a b : pow2 (a - b) * pow2 b == pow2 a.
Proof. rewrite <- pow2_add. replace (a - b + b)%Z with a by lia. reflexivity. Qed.

Lemma pow2_lt a b : (a < b)%Z -> pow2 a < pow2 b.
Proof. intros. apply Qpower_lt_compat_l; [assumption | reflexivity]. Qed.

Lemma pow2_le a b : (a <= b)%Z -> pow2 a <= pow2 b.
Proof. intros. apply Qpower_le_compat_l; [assumption | discriminate]. Qed.

Lemma pow2_lt_inv a b : pow2 a < pow2 b -> (a < b)%Z.
Proof. intros. apply (Qpower_lt_compat_l_inv 2); [assumption | reflexivity]. Qed.

Lemma pow2_le_inv a b : pow2 a <= pow2 b -> (a <= b)%Z.
Proof. intros. apply (Qpower_le_compat_l_inv 2); [assumption | reflexivity]. Qed.

Lemma pow2_Z e : (0 <= e)%Z -> pow2 e == inject_Z (2 ^ e).
Proof. intros. unfold pow2. rewrite Zpower_Qpower by assumption. reflexivity. Qed.

Lemma div_pow2 x e : x / pow2 e * pow2 e == x.
Proof. field. apply Qnot_eq_sym, Qlt_not_eq, pow2_pos. Qed.

(** *** The binade of a positive rational *)

Lemma binade_spec x : 0 < x -> pow2 (binade x) <= x /\ x < pow2 (binade x + 1).
Proof.
  intros Hx. unfold binade. destruct x as [n d].
  assert (Hn : (0 < n)%Z) by (unfold Qlt in Hx; simpl in Hx; lia).
  simpl Qnum; simpl Qden.
  set (a := Z.log2 n). set (b := Z.log2 (Zpos d)).
  destruct (Z.log2_spec n Hn) as [Ha1 Ha2]. fold a in Ha1, Ha2.
  destruct (Z.log2_spec (Zpos d) (Pos2Z.is_pos d)) as [Hb1 Hb2].
  fold b in Hb1, Hb2.
  assert (Ha0 : (0 <= a)%Z) by apply Z.log2_nonneg.
  assert (Hb0 : (0 <= b)%Z) by apply Z.log2_nonneg.
  rewrite Zle_Qle in Ha1, Hb1. rewrite Zlt_Qlt in Ha2, Hb2.
  unfold Z.succ in Ha2, Hb2.
  rewrite <- pow2_Z in Ha1, Hb1, Ha2, Hb2 by lia.
  rewrite pow2_succ in Ha2, Hb2.
  assert (HX : (n # d) * inject_Z (Zpos d) == inject_Z n).
  { rewrite (Qmake_Qdiv n d). field. discriminate. }
  assert (HD : 0 < inject_Z (Zpos d)) by reflexivity.
  pose proof (pow2_sub a b) as HK.
  pose proof (pow2_pos (a - b)) as HKp.
  pose proof (pow2_pos b) as HBp.
  destruct (Qle_bool (pow2 (a - b)) (n # d)) eqn:E.
  - apply Qle_bool_iff in E. split; [exact E|].
    rewrite pow2_succ.
    revert HX HD HK HKp HBp Ha1 Ha2 Hb1 Hb2 E.
    generalize (n # d) (inject_Z (Zpos d)) (inject_Z n) (pow2 a) (pow2 b)
      (pow2 (a - b)).
    intros X D N A B K; intros. nra.
  - assert (E' : n # d < pow2 (a - b)).
    { apply Qnot_le_lt. intro H. apply Qle_bool_iff in H. congruence. }
    replace (a - b - 1 + 1)%Z with (a - b)%Z by lia.
    split; [|exact E'].
    pose proof (pow2_pred (a - b)) as HK'.
    pose proof (pow2_pos (a - b - 1)) as HK'p.
    revert HX HD HK HKp HBp Ha1 Ha2 Hb1 Hb2 E' HK' HK'p.
    generalize (n # d) (inject_Z (Zpos d)) (inject_Z n) (pow2 a) (pow2 b)
      (pow2 (a - b)) (pow2 (a - b - 1)).
    intros X D N A B K K'; intros. nra.
Qed.

Lemma binade_unique x k :
  0 < x -> pow2 k <= x -> x < pow2 (k + 1) -> binade x = k.
Proof.
  intros Hx H1 H2. destruct (binade_spec x Hx) as [H3 H4].
  assert (binade x < k + 1)%Z
    by (apply pow2_lt_inv; eapply Qle_lt_trans; eassumption).
  assert (k < binade x + 1)%Z
    by (apply pow2_lt_inv; eapply Qle_lt_trans; eassumption).
  lia.
Qed.

Lemma binade_mono x y : 0 < x -> x <= y -> (binade x <= binade y)%Z.
Proof.
  intros Hx Hxy.
  assert (Hy : 0 < y) by (eapply Qlt_le_trans; eassumption).
  destruct (binade_spec x Hx) as [H1 _].
  destruct (binade_spec y Hy) as [_ H2].
  assert (binade x < binade y + 1)%Z; [|lia].
  apply pow2_lt_inv. lra.
Qed.

Lemma binade_proper x y : 0 < x -> x == y -> binade x = binade y.
Proof.
  intros Hx E. assert (Hy : 0 < y) by (rewrite <- E; exact Hx).
  destruct (binade_spec x Hx) as [H1 H2].
  apply eq_sym, binade_unique; auto; rewrite <- E; assumption.
Qed.

(** *** Rounding to the nearest integer *)

Lemma rne_bounds y : (Qfloor y <= rne y <= Qfloor y + 1)%Z.
Proof.
  unfold rne.
  destruct (Qcompare (y - inject_Z (Qfloor y)) (1 # 2));
    try destruct (Z.even (Qfloor y)); lia.
Qed.

Lemma rne_Z n : rne (inject_Z n) = n.
Proof.
  unfold rne. rewrite Qfloor_Z.
  destruct (Qcompare_spec (inject_Z n - inject_Z n) (1 # 2)) as [H|H|H];
    try reflexivity; exfalso; lra.
Qed.

Lemma rne_mono y1 y2 : y1 <= y2 -> (rne y1 <= rne y2)%Z.
Proof.
  intros H. pose proof (Qfloor_resp_le _ _ H) as Hf.
  pose proof (rne_bounds y1) as B1. pose proof (rne_bounds y2) as B2.
  destruct (Z.eq_dec (Qfloor y1) (Qfloor y2)) as [E|E]; [|lia].
  revert B1 B2. unfold rne. rewrite <- E.
  destruct (Qcompare_spec (y1 - inject_Z (Qfloor y1)) (1 # 2)) as [H1|H1|H1];
    destruct (Qcompare_spec (y2 - inject_Z (Qfloor y1)) (1 # 2)) as [H2|H2|H2];
    intros; try destruct (Z.even (Qfloor y1)); try lia; exfalso; lra.
Qed.

Lemma rne_proper y1 y2 : y1 == y2 -> rne y1 = rne y2.
Proof.
  intros E. apply Z.le_antisymm; apply rne_mono; rewrite E; apply Qle_refl.
Qed.

Lemma rne_le_Z y n : y <= inject_Z n -> (rne y <= n)%Z.
Proof. intros H. rewrite <- (rne_Z n). apply rne_mono, H. Qed.

Lemma rne_ge_Z y n : inject_Z n <= y -> (n <= rne y)%Z.
Proof. intros H. rewrite <- (rne_Z n) at 1. apply rne_mono, H. Qed.

Lemma rne_lt_half y n : y < inject_Z n + (1 # 2) -> (rne y <= n)%Z.
Proof.
  intros H. pose proof (Qfloor_le y) as Hf. pose proof (rne_bounds y) as B.
  assert (Hfn : (Qfloor y <= n)%Z).
  { assert (Qfloor y < n + 1)%Z; [|lia].
    rewrite Zlt_Qlt, inject_Z_plus. change (inject_Z 1) with 1. lra. }
  destruct (Z.eq_dec (Qfloor y) n) as [E|E]; [|lia].
  unfold rne. rewrite E.
  destruct (Qcompare_spec (y - inject_Z n) (1 # 2)) as [H1|H1|H1];
    try lia; exfalso; lra.
Qed.

(** *** Rounding to the nearest double *)

Lemma ulp_exp_mono x y : 0 < x -> x <= y -> (ulp_exp x <= ulp_exp y)%Z.
Proof.
  intros Hx Hxy. unfold ulp_exp. pose proof (binade_mono x y Hx Hxy). lia.
Qed.

Lemma scaled_le x y e : x <= y -> x / pow2 e <= y / pow2 e.
Proof.
  intros H. apply Qmult_le_compat_r; [exact H|].
  apply Qlt_le_weak, Qinv_lt_0_compat, pow2_pos.
Qed.

Lemma scaled_pos x e : 0 < x -> 0 < x / pow2 e.
Proof. intros H. apply Qlt_shift_div_l; [apply pow2_pos | lra]. Qed.

Lemma round_pos_nonneg x : 0 < x -> 0 <= round_pos x.
Proof.
  intros Hx. unfold round_pos.
  apply Qmult_le_0_compat; [| apply Qlt_le_weak, pow2_pos].
  change 0 with (inject_Z 0). rewrite <- Zle_Qle. apply rne_ge_Z.
  apply Qlt_le_weak, scaled_pos, Hx.
Qed.

Lemma round_pos_mono x y : 0 < x -> x <= y -> round_pos x <= round_pos y.
Proof.
  intros Hx Hxy. assert (Hy : 0 < y) by lra.
  pose proof (ulp_exp_mono x y Hx Hxy) as He.
  unfold round_pos.
  destruct (Z.eq_dec (ulp_exp x) (ulp_exp y)) as [E|E].
  - rewrite E. apply Qmult_le_compat_r; [| apply Qlt_le_weak, pow2_pos].
    rewrite <- Zle_Qle. apply rne_mono, scaled_le, Hxy.
  - assert (Eey : ulp_exp y = (binade y - 52)%Z) by (unfold ulp_exp in *; lia).
    assert (Hbx : (binade x < binade y)%Z) by (unfold ulp_exp in *; lia).
    assert (Hex : (binade x - 52 <= ulp_exp x)%Z) by (unfold ulp_exp; lia).
    destruct (binade_spec x Hx) as [_ Hx2].
    destruct (binade_spec y Hy) as [Hy1 _].
    set (ex := ulp_exp x) in *. set (ey := ulp_exp y) in *.
    apply Qle_trans with (pow2 (binade y)).
    + assert (Hxs : x / pow2 ex <= inject_Z (2 ^ (binade y - ex))).
      { rewrite <- pow2_Z by lia. apply Qle_shift_div_r; [apply pow2_pos|].
        rewrite pow2_sub.
        assert (pow2 (binade x + 1) <= pow2 (binade y)) by (apply pow2_le; lia).
        lra. }
      apply rne_le_Z in Hxs. rewrite Zle_Qle in Hxs.
      rewrite <- pow2_Z in Hxs by lia.
      rewrite <- (pow2_sub (binade y) ex).
      apply Qmult_le_compat_r; [exact Hxs | apply Qlt_le_weak, pow2_pos].
    + assert (Hys : inject_Z (2 ^ 52) <= y / pow2 ey).
      { rewrite <- pow2_Z by lia. apply Qle_shift_div_l; [apply pow2_pos|].
        rewrite <- pow2_add. replace (52 + ey)%Z with (binade y) by lia.
        exact Hy1. }
      apply rne_ge_Z in Hys. rewrite Zle_Qle in Hys.
      rewrite <- pow2_Z in Hys by lia.
      replace (binade y) with (52 + ey)%Z at 1 by lia. rewrite pow2_add.
      apply Qmult_le_compat_r; [exact Hys | apply Qlt_le_weak, pow2_pos].
Qed.

Lemma round_0 : round 0 = 0.
Proof. reflexivity. Qed.

Lemma round_nonneg x : 0 <= x -> 0 <= round x.
Proof.
  intros H. unfold round.
  destruct (Qcompare_spec x 0) as [E|E|E]; try lra.
  apply round_pos_nonneg, E.
Qed.

Lemma round_nonpos x : x <= 0 -> round x <= 0.
Proof.
  intros H. unfold round.
  destruct (Qcompare_spec x 0) as [E|E|E]; try lra.
  assert (0 <= round_pos (- x)) by (apply round_pos_nonneg; lra). lra.
Qed.

(** Rounding is monotone. *)
Lemma round_mono x y : x <= y -> round x <= round y.
Proof.
  intros H.
  destruct (Qlt_le_dec 0 x) as [Hx|Hx].
  - unfold round.
    destruct (Qcompare_spec x 0) as [E|E|E]; try lra.
    destruct (Qcompare_spec y 0) as [F|F|F]; try lra.
    apply round_pos_mono; assumption.
  - destruct (Qlt_le_dec y 0) as [Hy|Hy].
    + unfold round.
      destruct (Qcompare_spec x 0) as [E|E|E]; try lra.
      destruct (Qcompare_spec y 0) as [F|F|F]; try lra.
      apply Qopp_le_compat, round_pos_mono; lra.
    + apply Qle_trans with 0; [apply round_nonpos | apply round_nonneg];
        assumption.
Qed.

Lemma round_pos_proper x y : 0 < x -> x == y -> round_pos x = round_pos y.
Proof.
  intros Hx E. unfold round_pos, ulp_exp.
  rewrite (binade_proper x y Hx E).
  f_equal. f_equal. apply rne_proper. rewrite E. reflexivity.
Qed.

(** Equal rationals round to the same term, whatever fractions denote
    them. *)
Lemma round_proper x y : x == y -> round x = round y.
Proof.
  intros E. unfold round.
  destruct (Qcompare_spec x 0) as [H|H|H];
    destruct (Qcompare_spec y 0) as [F|F|F]; try reflexivity;
    try (exfalso; lra).
  - f_equal. apply round_pos_proper; [lra | rewrite E; reflexivity].
  - apply round_pos_proper; assumption.
Qed.

Lemma round_opp x : round (- x) == - round x.
Proof.
  unfold round.
  destruct (Qcompare_spec x 0) as [H|H|H];
    destruct (Qcompare_spec (- x) 0) as [F|F|F]; try (exfalso; lra);
    try reflexivity.
  - ring.
  - rewrite (round_pos_proper (- - x) x); [reflexivity | lra | ring].
Qed.

(** *** Representable values round to themselves *)

Lemma round_repr_pos m e :
  (0 < m < 2 ^ 53)%Z -> (-1074 <= e)%Z ->
  round (inject_Z m * pow2 e) == inject_Z m * pow2 e.
Proof.
  intros Hm He. set (x := inject_Z m * pow2 e).
  assert (Hm0 : 0 < inject_Z m)
    by (change 0 with (inject_Z 0); rewrite <- Zlt_Qlt; lia).
  assert (Hm1 : inject_Z m < pow2 53)
    by (rewrite pow2_Z by lia; rewrite <- Zlt_Qlt; lia).
  pose proof (pow2_pos e) as Hpe.
  assert (Hx : 0 < x) by (apply Qmult_lt_0_compat; assumption).
  unfold round. destruct (Qcompare_spec x 0) as [F|F|F]; try (exfalso; lra).
  destruct (binade_spec x Hx) as [Hb _].
  assert (Hbx : (binade x < 53 + e)%Z).
  { apply pow2_lt_inv. rewrite (pow2_add 53 e).
    apply Qle_lt_trans with x; [exact Hb|].
    unfold x. apply Qmult_lt_compat_r; assumption. }
  unfold round_pos. set (e' := ulp_exp x).
  assert (He' : (e' <= e)%Z) by (unfold e', ulp_exp; lia).
  pose proof (pow2_pos e') as Hpe'.
  assert (Hs : x / pow2 e' == inject_Z (m * 2 ^ (e - e'))).
  { rewrite inject_Z_mult, <- pow2_Z by lia. unfold x.
    rewrite <- (pow2_sub e e'). field. lra. }
  rewrite (rne_proper _ _ Hs), rne_Z.
  rewrite inject_Z_mult, <- pow2_Z by lia. unfold x.
  rewrite <- (pow2_sub e e'). ring.
Qed.

Lemma round_repr m e :
  (Z.abs m < 2 ^ 53)%Z -> (-1074 <= e)%Z ->
  round (inject_Z m * pow2 e) == inject_Z m * pow2 e.
Proof.
  intros Hm He.
  destruct (Z.lt_trichotomy m 0) as [H|[H|H]].
  - assert (E : round (inject_Z m * pow2 e)
                == - round (inject_Z (- m) * pow2 e)).
    { rewrite <- round_opp.
      rewrite (round_proper (- (inject_Z (- m) * pow2 e)) (inject_Z m * pow2 e));
        [reflexivity|]. rewrite inject_Z_opp. ring. }
    rewrite E, round_repr_pos by lia. rewrite inject_Z_opp. ring.
  - subst m. rewrite (round_proper (inject_Z 0 * pow2 e) 0); [|ring].
    rewrite round_0. ring.
  - apply round_repr_pos; lia.
Qed.

(** Integers up to 2^53 in magnitude are doubles. *)
Lemma round_Z n : (Z.abs n <= 2 ^ 53)%Z -> round (inject_Z n) == inject_Z n.
Proof.
  intros Hn.
  destruct (Z.eq_dec (Z.abs n) (2 ^ 53)) as [E|E].
  - assert (En : n = (Z.sgn n * 2 ^ 52 * 2)%Z) by lia.
    assert (Ex : inject_Z n == inject_Z (Z.sgn n * 2 ^ 52) * pow2 1).
    { rewrite En at 1. rewrite inject_Z_mult. reflexivity. }
    rewrite (round_proper _ _ Ex), round_repr by lia.
    rewrite Ex. reflexivity.
  - assert (Ex : inject_Z n == inject_Z n * pow2 0)
      by (unfold pow2; simpl; ring).
    rewrite (round_proper _ _ Ex), round_repr by lia.
    rewrite <- Ex. reflexivity.
Qed.

(** The scaling step of the preview resampling: a non-negative value
    at most N * (1 - 2^-53), N an integer up to 2^53, rounds to a double
    strictly below N. *)
Lemma round_below_int x N :
  (0 < N <= 2 ^ 53)%Z -> 0 <= x ->
  x <= inject_Z N * (1 - pow2 (-53)) -> round x < inject_Z N.
Proof.
  intros HN Hx0 Hx.
  assert (HN1 : 1 <= inject_Z N)
    by (change 1 with (inject_Z 1); rewrite <- Zle_Qle; lia).
  assert (HN2 : inject_Z N <= pow2 53)
    by (rewrite pow2_Z by lia; rewrite <- Zle_Qle; lia).
  pose proof (pow2_pos (-53)) as Hp53.
  assert (HxN : x < inject_Z N) by nra.
  unfold round. destruct (Qcompare_spec x 0) as [F|F|F]; try lra.
  destruct (binade_spec x F) as [Hb _].
  assert (Hbx : (binade x < 53)%Z) by (apply pow2_lt_inv; lra).
  unfold round_pos. set (e := ulp_exp x).
  assert (He0 : (e <= 0)%Z) by (unfold e, ulp_exp; lia).
  pose proof (pow2_pos e) as Hpe.
  set (n := (N * 2 ^ (- e))%Z).
  assert (Hn : inject_Z n * pow2 e == inject_Z N).
  { unfold n. rewrite inject_Z_mult, <- pow2_Z by lia.
    rewrite <- Qmult_assoc, <- pow2_add.
    replace (- e + e)%Z with 0%Z by lia. unfold pow2 at 1. simpl. ring. }
  assert (Hbig : pow2 (e + 52) < inject_Z N).
  { unfold e, ulp_exp.
    destruct (Z.max_spec (binade x - 52) (-1074)) as [[_ ->]|[_ ->]].
    - apply Qlt_le_trans with 1; [|exact HN1].
      change 1 with (pow2 0). apply pow2_lt. lia.
    - replace (binade x - 52 + 52)%Z with (binade x) by lia. lra. }
  assert (Hhalf : pow2 (e + 52) * pow2 (-53) * 2 == pow2 e).
  { rewrite <- pow2_add. replace (e + 52 + -53)%Z with (e - 1)%Z by lia.
    rewrite (pow2_pred e). ring. }
  assert (Hy : x / pow2 e < inject_Z (n - 1) + (1 # 2)).
  { apply Qlt_shift_div_r; [exact Hpe|].
    unfold Z.sub. rewrite inject_Z_plus, inject_Z_opp.
    change (inject_Z 1) with 1.
    assert (Hprod : pow2 (e + 52) * pow2 (-53) < inject_Z N * pow2 (-53))
      by (apply Qmult_lt_compat_r; assumption).
    revert Hn Hx Hprod Hhalf.
    generalize (inject_Z n) (inject_Z N) (pow2 e) (pow2 (-53)) (pow2 (e + 52)).
    intros a b c d g; intros. lra. }
  apply rne_lt_half in Hy. rewrite Zle_Qle in Hy.
  unfold Z.sub in Hy. rewrite inject_Z_plus, inject_Z_opp in Hy.
  change (inject_Z 1) with 1 in Hy.
  apply Qle_lt_trans with ((inject_Z n + - 1) * pow2 e);
    [apply Qmult_le_compat_r; lra | lra].
Qed.

End Binary64Facts.

Import Binary64Facts.

(** ** Agreement with the kernel's binary64 on sample expressions

    [B2Q] reads a primitive float as the rational it denotes.  The
    examples evaluate expressions of the source with the hardware
    operations and with [round]; the literals are written in
    hexadecimal so that they are exact. *)

Example lit_0_3_binary64 : B2Q 0x1.3333333333333p-2%float == lit (3 # 10).
Proof. vm_compute. reflexivity. Qed.

Example density_factor_80_binary64 :
  B2Q (1 - 80 / 100 + 0x1.3333333333333p-2)%float
  == fadd (fsub 1 (fdiv 80 100)) (lit (3 # 10)).
Proof. vm_compute. reflexivity. Qed.

Example letter_page_product_binary64 :
  B2Q (935000 * (1 - 80 / 100 + 0x1.3333333333333p-2))%float
  == fmul 935000 (fadd (fsub 1 (fdiv 80 100)) (lit (3 # 10))).
Proof. vm_compute. reflexivity. Qed.

(** The hardware product for the letter page is strictly below
    467500. *)
Example letter_page_product_below_467500 :
  (935000 * (1 - 80 / 100 + 0x1.3333333333333p-2) <? 467500)%float = true.
Proof. vm_compute. reflexivity. Qed.

(** On the 40 x 40 grid (8000 operations, of either sign) the two
    agree. *)
Example binary64_grid : grid_ok 40 = true.
Proof. vm_compute. reflexivity. Qed.

Example rescale_382_binary64 :
  B2Q (573 * (300 / 382))%float == fmul 573 (fdiv 300 382).
Proof. vm_compute. reflexivity. Qed.

Example resample_7_10_90_binary64 :
  B2Q (7 / 10 * 90)%float == fmul (fdiv 7 10) 90.
Proof. vm_compute. reflexivity. Qed.


(** ** Loops that fill an array *)

Lemma store_app (pre rest : list Z) (x v : Z) :
  store (pre ++ x :: rest) (List.length pre) v = pre ++ v :: rest.
Proof. induction pre as [|h t IH]; simpl; [reflexivity | now rewrite IH]. Qed.

Lemma for_loop_ext {St : Type} (f f' : nat -> St -> St) :
  (forall i st, f i st = f' i st) ->
  forall c i st, for_loop f i c st = for_loop f' i c st.
Proof.
  intros Hf c. induction c as [|c IH]; intros i st; simpl;
    [reflexivity | now rewrite Hf, IH].
Qed.

(** A loop that stores [val j k] at index j and advances the draw
    counter by [d] leaves the values in index order. *)
Lemma fill_counted (val : nat -> nat -> Z) (d : nat) :
  forall c i pre rest k,
    List.length pre = i -> List.length rest = c ->
    for_loop (fun j st => (store (fst st) j (val j (snd st)), (snd st + d)%nat))
             i c (pre ++ rest, k)
    = (pre ++ map (fun j => val j (k + d * (j - i))%nat) (seq i c),
       (k + d * c)%nat).
Proof.
  induction c as [|c IH]; intros i pre rest k Hpre Hrest.
  - destruct rest; [|discriminate]. simpl.
    f_equal. f_equal. lia.
  - destruct rest as [|x rest]; [discriminate|]. subst i.
    cbn [for_loop fst snd]. rewrite store_app.
    set (v := val (List.length pre) k).
    replace (pre ++ v :: rest) with ((pre ++ [v]) ++ rest)
      by (rewrite <- app_assoc; reflexivity).
    rewrite IH; [| rewrite length_app; simpl; lia | simpl in Hrest; lia].
    rewrite <- app_assoc. cbn [seq map app]. f_equal.
    + f_equal. f_equal.
      * unfold v. f_equal. lia.
      * apply map_ext_in. intros j Hj. apply in_seq in Hj. f_equal. nia.
    + nia.
Qed.

Lemma fill_plain (val : nat -> Z) :
  forall c i pre rest,
    List.length pre = i -> List.length rest = c ->
    for_loop (fun j b => store b j (val j)) i c (pre ++ rest)
    = pre ++ map val (seq i c).
Proof.
  induction c as [|c IH]; intros i pre rest Hpre Hrest.
  - destruct rest; [|discriminate]. reflexivity.
  - destruct rest as [|x rest]; [discriminate|]. subst i.
    cbn [for_loop]. rewrite store_app.
    set (v := val (List.length pre)).
    replace (pre ++ v :: rest) with ((pre ++ [v]) ++ rest)
      by (rewrite <- app_assoc; reflexivity).
    rewrite IH; [| rewrite length_app; simpl; lia | simpl in Hrest; lia].
    rewrite <- app_assoc. reflexivity.
Qed.

Lemma Some_inj {A : Type} (x y : A) : Some x = Some y -> x = y.
Proof. intros H. injection H. auto. Qed.

Lemma Uint8Array_new_Some n a :
  Uint8Array_new n = Some a ->
  (0 <= n <= MAX_SAFE_INTEGER)%Z /\ a = repeat 0%Z (Z.to_nat n).
Proof.
  unfold Uint8Array_new.
  destruct ((0 <=? n)%Z && (n <=? MAX_SAFE_INTEGER)%Z) eqn:B; [|discriminate].
  intros H. injection H as <-. apply andb_prop in B. destruct B as [B1 B2].
  apply Z.leb_le in B1, B2. auto.
Qed.

Lemma Uint8Array_new_ok n :
  (0 <= n <= MAX_SAFE_INTEGER)%Z ->
  Uint8Array_new n = Some (repeat 0%Z (Z.to_nat n)).
Proof.
  intros [H1 H2]. unfold Uint8Array_new.
  apply Z.leb_le in H1, H2. now rewrite H1, H2.
Qed.

(** ** Truncation, remainders and exact integer sums *)

Lemma Qtrunc_proper x y : x == y -> Qtrunc x = Qtrunc y.
Proof.
  intros H. unfold Qtrunc.
  assert (B : Qle_bool 0 x = Qle_bool 0 y).
  { destruct (Qle_bool 0 x) eqn:Bx, (Qle_bool 0 y) eqn:By; try reflexivity.
    - apply Qle_bool_iff in Bx. rewrite H in Bx. apply Qle_bool_iff in Bx.
      congruence.
    - apply Qle_bool_iff in By. rewrite <- H in By. apply Qle_bool_iff in By.
      congruence. }
  rewrite B. destruct (Qle_bool 0 y); rewrite H; reflexivity.
Qed.

Lemma Qtrunc_Z n : Qtrunc (inject_Z n) = n.
Proof.
  unfold Qtrunc. destruct (Qle_bool 0 (inject_Z n));
    [apply Qfloor_Z | apply Qceiling_Z].
Qed.

Lemma Qtrunc_nonneg x : 0 <= x -> Qtrunc x = Qfloor x.
Proof.
  intros H. unfold Qtrunc. apply Qle_bool_iff in H. now rewrite H.
Qed.

Lemma inject_Z_nonneg n : (0 <= n)%Z -> 0 <= inject_Z n.
Proof. intros H. change 0 with (inject_Z 0). now rewrite <- Zle_Qle. Qed.

Lemma Qfloor_nonneg x : 0 <= x -> (0 <= Qfloor x)%Z.
Proof.
  intros H. change 0%Z with (Qfloor 0). apply Qfloor_resp_le, H.
Qed.

Lemma Qfloor_lt_Z x n : x < inject_Z n -> (Qfloor x < n)%Z.
Proof.
  intros H. rewrite Zlt_Qlt. eapply Qle_lt_trans; [apply Qfloor_le | exact H].
Qed.

(** The remainder of non-negative integers is the integer remainder. *)
Lemma frem_Z a b :
  (0 <= a)%Z -> (0 < b)%Z ->
  frem (inject_Z a) (inject_Z b) == inject_Z (a mod b).
Proof.
  intros Ha Hb. unfold frem.
  assert (Hq : 0 <= inject_Z a / inject_Z b).
  { apply Qle_shift_div_l.
    - change 0 with (inject_Z 0). rewrite <- Zlt_Qlt. exact Hb.
    - rewrite Qmult_0_l. apply inject_Z_nonneg, Ha. }
  rewrite (Qtrunc_nonneg _ Hq), <- Zdiv_Qdiv.
  rewrite (Z.mod_eq a b) by lia. unfold Z.sub.
  rewrite inject_Z_plus, inject_Z_opp, inject_Z_mult. ring.
Qed.

Lemma fadd_Z a b :
  (Z.abs (a + b) <= 2 ^ 53)%Z ->
  fadd (inject_Z a) (inject_Z b) == inject_Z (a + b).
Proof.
  intros H. unfold fadd.
  rewrite (round_proper _ (inject_Z (a + b))) by (now rewrite inject_Z_plus).
  apply round_Z, H.
Qed.

Lemma round_ge_2p53 x : inject_Z (2 ^ 53) <= x -> inject_Z (2 ^ 53) <= round x.
Proof.
  intros H. rewrite <- (round_Z (2 ^ 53)) at 1 by (simpl; lia).
  apply round_mono, H.
Qed.

(** A sum of two array lengths, as the source computes it, is beyond
    the largest index exactly when the true sum is. *)
Lemma fadd_len_exact x b n :
  x == inject_Z n -> (0 <= n)%Z -> (0 <= b)%Z ->
  (n + b <= MAX_SAFE_INTEGER)%Z ->
  fadd x (inject_Z b) == inject_Z (n + b).
Proof.
  intros Hx Hn Hb H. unfold fadd.
  rewrite (round_proper _ (inject_Z (n + b)))
    by (now rewrite Hx, inject_Z_plus).
  apply round_Z. unfold MAX_SAFE_INTEGER in H. lia.
Qed.

Lemma fadd_len_big x b :
  0 <= x -> (0 <= b)%Z ->
  inject_Z (2 ^ 53) <= x + inject_Z b ->
  (MAX_SAFE_INTEGER < Qtrunc (fadd x (inject_Z b)))%Z.
Proof.
  intros Hx Hb H. unfold fadd.
  pose proof (round_ge_2p53 _ H) as Hr.
  rewrite Qtrunc_nonneg.
  - apply Qfloor_resp_le in Hr. rewrite Qfloor_Z in Hr.
    unfold MAX_SAFE_INTEGER. lia.
  - eapply Qle_trans; [|exact Hr]. apply inject_Z_nonneg. simpl. lia.
Qed.

(** ** Assembly *)

Lemma set_at_app (pre mid post source : list Z) (offset : Q) :
  Qtrunc offset = Z.of_nat (List.length pre) ->
  List.length source = List.length mid ->
  set_at (pre ++ mid ++ post) source offset = Some (pre ++ source ++ post).
Proof.
  intros Hoff Hlen. unfold set_at. rewrite Hoff, Nat2Z.id.
  assert (B : ((0 <=? Z.of_nat (List.length pre))
               && (Z.of_nat (List.length source) + Z.of_nat (List.length pre)
                   <=? Z.of_nat (List.length (pre ++ mid ++ post))))%Z = true).
  { apply andb_true_intro. split; apply Z.leb_le; [lia|].
    rewrite !length_app. lia. }
  rewrite B. f_equal. f_equal.
  - rewrite firstn_app, firstn_all, Nat.sub_diag. simpl. apply app_nil_r.
  - f_equal. rewrite app_assoc, skipn_app.
    rewrite skipn_all2 by (rewrite length_app; lia).
    rewrite length_app, Hlen, Nat.sub_diag. reflexivity.
Qed.

Lemma len_nonneg (a : list Z) : 0 <= len a.
Proof. apply inject_Z_nonneg, Nat2Z.is_nonneg. Qed.

(** The three [set] calls of lines 289-293 produce the concatenation,
    unless the total length is beyond the largest index. *)
Lemma assemble_prt_eq (h p c : list Z) :
  assemble_prt h p c =
  if (Z.of_nat (List.length h + List.length p + List.length c)
      <=? MAX_SAFE_INTEGER)%Z
  then Some (h ++ p ++ c) else None.
Proof.
  unfold assemble_prt, len.
  set (H := Z.of_nat (List.length h)). set (P := Z.of_nat (List.length p)).
  set (C := Z.of_nat (List.length c)).
  assert (HH : (0 <= H)%Z) by apply Nat2Z.is_nonneg.
  assert (HP : (0 <= P)%Z) by apply Nat2Z.is_nonneg.
  assert (HC : (0 <= C)%Z) by apply Nat2Z.is_nonneg.
  replace (Z.of_nat (List.length h + List.length p + List.length c))
    with (H + P + C)%Z by (unfold H, P, C; lia).
  destruct (Z.leb_spec (H + P + C) MAX_SAFE_INTEGER) as [Hle|Hgt].
  - assert (E1 : fadd (inject_Z H) (inject_Z P) == inject_Z (H + P))
      by (apply fadd_len_exact; [reflexivity | lia | lia | lia]).
    assert (E2 : fadd (fadd (inject_Z H) (inject_Z P)) (inject_Z C)
                 == inject_Z (H + P + C))
      by (apply fadd_len_exact; [exact E1 | lia | lia | lia]).
    rewrite (Qtrunc_proper _ _ E2), Qtrunc_Z.
    rewrite Uint8Array_new_ok by lia. cbn [bind].
    replace (Z.to_nat (H + P + C))
      with (List.length h + (List.length p + List.length c))%nat
      by (unfold H, P, C; lia).
    rewrite !repeat_app.
    pose proof (set_at_app [] (repeat 0%Z (List.length h))
                  (repeat 0%Z (List.length p) ++ repeat 0%Z (List.length c))
                  h 0 eq_refl (eq_sym (repeat_length _ _))) as S0.
    cbn [app] in S0. rewrite S0. clear S0. cbn [bind].
    rewrite (set_at_app h _ _ p (inject_Z H));
      [| now rewrite Qtrunc_Z | now rewrite repeat_length].
    cbn [bind].
    replace (h ++ p ++ repeat 0%Z (List.length c))
      with ((h ++ p) ++ repeat 0%Z (List.length c) ++ [])
      by (now rewrite app_nil_r, app_assoc).
    rewrite (set_at_app (h ++ p) _ [] c);
      [| rewrite (Qtrunc_proper _ _ E1), Qtrunc_Z, length_app;
         unfold H, P; lia
       | now rewrite repeat_length].
    now rewrite app_nil_r, app_assoc.
  - assert (Hbig : (MAX_SAFE_INTEGER
                    < Qtrunc (fadd (fadd (inject_Z H) (inject_Z P))
                                   (inject_Z C)))%Z).
    { apply fadd_len_big; [apply round_nonneg | exact HC |].
      - pose proof (inject_Z_nonneg _ HH). pose proof (inject_Z_nonneg _ HP).
        lra.
      - destruct (Z.leb_spec (H + P) MAX_SAFE_INTEGER) as [Hle|Hgt'].
        + rewrite (fadd_len_exact (inject_Z H) P H);
            [| reflexivity | lia | lia | lia].
          rewrite <- inject_Z_plus, <- Zle_Qle.
          unfold MAX_SAFE_INTEGER in Hgt. lia.
        + apply Qle_trans with (fadd (inject_Z H) (inject_Z P)).
          * apply round_ge_2p53. rewrite <- inject_Z_plus, <- Zle_Qle.
            unfold MAX_SAFE_INTEGER in Hgt'. lia.
          * pose proof (inject_Z_nonneg _ HC). lra. }
    unfold Uint8Array_new.
    replace (_ <=? MAX_SAFE_INTEGER)%Z with false
      by (symmetry; apply Z.leb_gt; exact Hbig).
    now rewrite andb_false_r.
Qed.

Lemma assemble_pvw_eq (h p : list Z) :
  assemble_pvw h p =
  if (Z.of_nat (List.length h + List.length p) <=? MAX_SAFE_INTEGER)%Z
  then Some (h ++ p) else None.
Proof.
  unfold assemble_pvw, len.
  set (H := Z.of_nat (List.length h)). set (P := Z.of_nat (List.length p)).
  assert (HH : (0 <= H)%Z) by apply Nat2Z.is_nonneg.
  assert (HP : (0 <= P)%Z) by apply Nat2Z.is_nonneg.
  replace (Z.of_nat (List.length h + List.length p))
    with (H + P)%Z by (unfold H, P; lia).
  destruct (Z.leb_spec (H + P) MAX_SAFE_INTEGER) as [Hle|Hgt].
  - assert (E1 : fadd (inject_Z H) (inject_Z P) == inject_Z (H + P))
      by (apply fadd_len_exact; [reflexivity | lia | lia | lia]).
    rewrite (Qtrunc_proper _ _ E1), Qtrunc_Z.
    rewrite Uint8Array_new_ok by lia. cbn [bind].
    replace (Z.to_nat (H + P)) with (List.length h + List.length p)%nat
      by (unfold H, P; lia).
    rewrite repeat_app.
    pose proof (set_at_app [] (repeat 0%Z (List.length h))
                  (repeat 0%Z (List.length p))
                  h 0 eq_refl (eq_sym (repeat_length _ _))) as S0.
    cbn [app] in S0. rewrite S0. clear S0. cbn [bind].
    replace (h ++ repeat 0%Z (List.length p))
      with (h ++ repeat 0%Z (List.length p) ++ [])
      by (now rewrite app_nil_r).
    rewrite (set_at_app h _ [] p);
      [| now rewrite Qtrunc_Z | now rewrite repeat_length].
    now rewrite app_nil_r.
  - assert (Hbig : (MAX_SAFE_INTEGER
                    < Qtrunc (fadd (inject_Z H) (inject_Z P)))%Z).
    { apply fadd_len_big; [apply inject_Z_nonneg, HH | exact HP |].
      rewrite <- inject_Z_plus, <- Zle_Qle.
      unfold MAX_SAFE_INTEGER in Hgt. lia. }
    unfold Uint8Array_new.
    replace (_ <=? MAX_SAFE_INTEGER)%Z with false
      by (symmetry; apply Z.leb_gt; exact Hbig).
    now rewrite andb_false_r.
Qed.

(** ** What a successful call returns *)

Section Results.

Variable E : Engine.
Variable g : PageGeometry.
Variable s : ConversionSettings.

Lemma pixel_snd size i k : snd (pixel E g s size i k) = (k + draws s)%nat.
Proof. unfold pixel, draws. destruct (colorMode s); simpl; lia. Qed.

Lemma control_snd i k : snd (control E s i k) = (k + draws s)%nat.
Proof.
  unfold control, dropletSize, draws. destruct (colorMode s); simpl; lia.
Qed.

Lemma fill_prtImageData_eq size n k :
  fill_prtImageData E g s size (repeat 0%Z n) k
  = (map (fun j => ToUint8 (fst (pixel E g s size j (k + draws s * j)))) (seq 0 n),
     (k + draws s * n)%nat).
Proof.
  unfold fill_prtImageData. rewrite repeat_length.
  rewrite (for_loop_ext _
    (fun j st => (store (fst st) j (ToUint8 (fst (pixel E g s size j (snd st)))),
                  (snd st + draws s)%nat))).
  - pose proof (fill_counted (fun j k' => ToUint8 (fst (pixel E g s size j k')))
               (draws s) n 0 [] (repeat 0%Z n) k eq_refl (repeat_length _ _)) as F.
    cbn [app] in F. rewrite F. f_equal. apply map_ext. intros j. do 3 f_equal. lia.
  - intros i st. rewrite <- (pixel_snd size i (snd st)).
    destruct (pixel E g s size i (snd st)); reflexivity.
Qed.

Lemma fill_controlData_eq size k :
  fill_controlData E s size (repeat 0%Z (Z.to_nat size)) k
  = (map (fun j => ToUint8 (fst (control E s j (k + draws s * j))))
         (seq 0 (Z.to_nat size)),
     (k + draws s * Z.to_nat size)%nat).
Proof.
  unfold fill_controlData.
  rewrite (for_loop_ext _
    (fun j st => (store (fst st) j (ToUint8 (fst (control E s j (snd st)))),
                  (snd st + draws s)%nat))).
  - pose proof (fill_counted (fun j k' => ToUint8 (fst (control E s j k')))
               (draws s) (Z.to_nat size) 0 [] (repeat 0%Z (Z.to_nat size)) k
               eq_refl (repeat_length _ _)) as F.
    cbn [app] in F. rewrite F. f_equal. apply map_ext. intros j. do 3 f_equal. lia.
  - intros i st. rewrite <- (control_snd i (snd st)).
    destruct (control E s i (snd st)); reflexivity.
Qed.

Lemma fill_pvwImageData_eq prt pvwSize prtSize n :
  fill_pvwImageData prt pvwSize prtSize (repeat 0%Z n)
  = map (fun j => ToUint8 (inject_Z (or_zero
           (load prt (sourceIndex pvwSize prtSize j))))) (seq 0 n).
Proof.
  unfold fill_pvwImageData. rewrite repeat_length.
  apply (fill_plain _ n 0 [] (repeat 0%Z n) eq_refl (repeat_length _ _)).
Qed.

Lemma generateRIPFiles_inv out :
  generateRIPFiles E g s = Some out -> generated E g s out.
Proof.
  unfold generateRIPFiles.
  destruct (Uint8Array_new (compressedImageSize g s)) as [a0|] eqn:A;
    [|discriminate].
  apply Uint8Array_new_Some in A. destruct A as [Hn ->].
  cbn [bind]. rewrite fill_prtImageData_eq.
  destruct (Uint8Array_new (pvwImageDataSize g s)) as [b0|] eqn:B;
    [|discriminate].
  apply Uint8Array_new_Some in B. destruct B as [Hp ->].
  cbn [bind]. rewrite fill_pvwImageData_eq.
  destruct (Uint8Array_new (controlDataSize (compressedImageSize g s)))
    as [c0|] eqn:C; [|discriminate].
  apply Uint8Array_new_Some in C. destruct C as [Hc ->].
  cbn [bind]. rewrite fill_controlData_eq.
  rewrite assemble_prt_eq, assemble_pvw_eq.
  destruct (_ <=? MAX_SAFE_INTEGER)%Z; [|discriminate]. cbn [bind].
  destruct (_ <=? MAX_SAFE_INTEGER)%Z; [|discriminate]. cbn [bind].
  intros H. apply Some_inj in H. subst out.
  constructor; cbn [prtHeader pvwHeader prtImageData pvwImageData controlData
                      prtData pvwData]; try assumption; try reflexivity.
Qed.

(** The call succeeds when the three array sizes and the two buffer
    lengths are within the largest index. *)
Lemma generateRIPFiles_total :
  (0 <= compressedImageSize g s)%Z ->
  (0 <= pvwImageDataSize g s)%Z ->
  (0 <= controlDataSize (compressedImageSize g s))%Z ->
  (Z.of_nat (List.length (encode_prtHeader E g s)) + compressedImageSize g s
   + controlDataSize (compressedImageSize g s) <= MAX_SAFE_INTEGER)%Z ->
  (Z.of_nat (List.length (encode_pvwHeader E g s)) + pvwImageDataSize g s
   <= MAX_SAFE_INTEGER)%Z ->
  exists out, generateRIPFiles E g s = Some out.
Proof.
  intros Hn Hp Hc Ht1 Ht2. unfold generateRIPFiles.
  rewrite Uint8Array_new_ok by lia. cbn [bind].
  rewrite fill_prtImageData_eq.
  rewrite Uint8Array_new_ok by lia. cbn [bind].
  rewrite fill_pvwImageData_eq.
  rewrite Uint8Array_new_ok by lia. cbn [bind].
  rewrite fill_controlData_eq.
  rewrite assemble_prt_eq, assemble_pvw_eq.
  rewrite !length_map, !length_seq.
  destruct (Z.leb_spec
    (Z.of_nat (List.length (encode_prtHeader E g s)
               + Z.to_nat (compressedImageSize g s)
               + Z.to_nat (controlDataSize (compressedImageSize g s))))
    MAX_SAFE_INTEGER) as [_|F]; [|lia].
  cbn [bind].
  destruct (Z.leb_spec
    (Z.of_nat (List.length (encode_pvwHeader E g s)
               + Z.to_nat (pvwImageDataSize g s)))
    MAX_SAFE_INTEGER) as [_|F]; [|lia].
  cbn [bind]. eexists. reflexivity.
Qed.

End Results.

(** ** The reference engine *)

Example ref_sin_1_57 :
  B2Q 0x1.fffff55c67bb1p-1%float == ref_sin (lit (157 # 100)).
Proof. vm_compute. reflexivity. Qed.

Example ref_cos_0 : ref_cos 0 == 1.
Proof. vm_compute. reflexivity. Qed.

Lemma ref_random_range k : 0 <= ref_random k /\ ref_random k < 1.
Proof.
  unfold ref_random, lit.
  assert (H : (0 <= Z.of_nat k mod 10 < 10)%Z) by (apply Z.mod_pos_bound; lia).
  set (d := (Z.of_nat k mod 10)%Z) in *.
  assert (Hd : 0 <= inject_Z d /\ inject_Z d <= 9).
  { split; [apply inject_Z_nonneg; lia|].
    change 9 with (inject_Z 9). rewrite <- Zle_Qle. lia. }
  split.
  - apply round_nonneg. apply Qle_shift_div_l; [reflexivity | lra].
  - apply Qle_lt_trans with (round (9 # 10)).
    + apply round_mono. apply Qle_shift_div_r; [reflexivity | lra].
    + vm_compute. reflexivity.
Qed.

(** ** Lengths and elements of the generated arrays *)

Section Elements.

Variable E : Engine.
Variable g : PageGeometry.
Variable s : ConversionSettings.
Variable out : RIPFiles.
Hypothesis Hgen : generated E g s out.

Lemma prt_length :
  Z.of_nat (List.length (prtImageData out)) = compressedImageSize g s.
Proof.
  rewrite (gen_prt _ _ _ _ Hgen), length_map, length_seq.
  apply Z2Nat.id, (gen_prt_size _ _ _ _ Hgen).
Qed.

Lemma pvw_length :
  Z.of_nat (List.length (pvwImageData out)) = pvwImageDataSize g s.
Proof.
  rewrite (gen_pvw _ _ _ _ Hgen), length_map, length_seq.
  apply Z2Nat.id, (gen_pvw_size _ _ _ _ Hgen).
Qed.

Lemma ctl_length :
  Z.of_nat (List.length (controlData out))
  = controlDataSize (compressedImageSize g s).
Proof.
  rewrite (gen_ctl _ _ _ _ Hgen), length_map, length_seq.
  apply Z2Nat.id, (gen_ctl_size _ _ _ _ Hgen).
Qed.

Lemma nth_map_seq (f : nat -> Z) n i :
  (i < n)%nat -> nth i (map f (seq 0 n)) 0%Z = f i.
Proof.
  intros H. rewrite (nth_indep _ 0%Z (f 0%nat))
    by (now rewrite length_map, length_seq).
  rewrite map_nth, seq_nth by assumption. reflexivity.
Qed.

Lemma prt_nth i :
  (i < List.length (prtImageData out))%nat ->
  nth i (prtImageData out) 0%Z = prt_byte E g s i.
Proof.
  rewrite (gen_prt _ _ _ _ Hgen) at 1 2. rewrite length_map, length_seq.
  apply nth_map_seq.
Qed.

Lemma pvw_nth i :
  (i < List.length (pvwImageData out))%nat ->
  nth i (pvwImageData out) 0%Z = pvw_byte g s (prtImageData out) i.
Proof.
  rewrite (gen_pvw _ _ _ _ Hgen) at 1 2. rewrite length_map, length_seq.
  apply nth_map_seq.
Qed.

Lemma ctl_nth i :
  (i < List.length (controlData out))%nat ->
  nth i (controlData out) 0%Z = ctl_byte E g s i.
Proof.
  rewrite (gen_ctl _ _ _ _ Hgen) at 1 2. rewrite length_map, length_seq.
  apply nth_map_seq.
Qed.

End Elements.

Lemma ToUint8_Z n : ToUint8 (inject_Z n) = (n mod 256)%Z.
Proof. unfold ToUint8. now rewrite Qtrunc_Z. Qed.

Lemma ToUint8_range v : (0 <= ToUint8 v < 256)%Z.
Proof. unfold ToUint8. apply Z.mod_pos_bound. lia. Qed.

(** The black-and-white branch of the payload loop. *)
Lemma prt_byte_BlackWhite E g s i :
  colorMode s = BlackWhite ->
  prt_byte E g s i
  = if Qle_bool (density E g (lit (1 # 10)) (compressedImageSize g s) i) 128
    then 0%Z else 255%Z.
Proof.
  intros Hc. unfold prt_byte, pixel. rewrite Hc. cbn [fst].
  destruct (Qle_bool _ 128); reflexivity.
Qed.

(** ** The letter-page scenario *)

(** In doubles 1 - 0.8 + 0.3 is 0.49999999999999994, one unit in the
    last place below one half. *)
Lemma letter_density_factor :
  fadd (fsub 1 (compressionRatio letter_settings)) (lit (3 # 10))
  == (1 # 2) - pow2 (-54).
Proof. vm_compute. reflexivity. Qed.

Lemma letter_compressedImageSize :
  compressedImageSize letter_geometry letter_settings = 467499%Z.
Proof. vm_compute. reflexivity. Qed.

Lemma letter_generates :
  exists out,
    generateRIPFiles ref_engine letter_geometry letter_settings = Some out.
Proof.
  apply generateRIPFiles_total; vm_compute; discriminate.
Qed.

(** C1 as stated fails: the payload of the letter-page scenario does
    not have 467500 bytes. *)
Lemma C1_payload_length_is_not_467500 :
  ~ (forall E out,
        generateRIPFiles E letter_geometry letter_settings = Some out ->
        Z.of_nat (List.length (prtImageData out)) = 467500%Z).
Proof.
  intros H. destruct letter_generates as [out Hout].
  specialize (H _ _ Hout).
  rewrite (prt_length _ _ _ _ (generateRIPFiles_inv _ _ _ _ Hout)) in H.
  rewrite letter_compressedImageSize in H. discriminate H.
Qed.

(** C1 (amended): for geometry 850 x 1100 x 1 and settings dpi 600,
    BlackWhite, compressionLevel 80, the primary payload has 467499
    bytes: in doubles 1 - 0.8 + 0.3 is 0.5 - 2^-54, and
    floor(850*1100*1*1 * (1 - 0.8 + 0.3)) is 467499; the primary header
    is the encoded line list, which contains the lines DPI:600,
    COLOR_MODE:BlackWhite and PAGES:1; every payload byte is 0 or 255. *)
Theorem C1_letter_scenario E out :
  generateRIPFiles E letter_geometry letter_settings = Some out ->
  Z.of_nat (List.length (prtImageData out)) = 467499%Z
  /\ fadd (fsub 1 (fdiv 80 100)) (lit (3 # 10)) == (1 # 2) - pow2 (-54)
  /\ Qfloor (fmul (fmul (fmul (fmul 850 1100) 1) 1)
                  (fadd (fsub 1 (fdiv 80 100)) (lit (3 # 10))))
     = 467499%Z
  /\ prtHeader out
     = TextEncoder_encode
         (join_lines (prtHeaderLines E letter_geometry letter_settings))
  /\ In "DPI:600"%string (prtHeaderLines E letter_geometry letter_settings)
  /\ In "COLOR_MODE:BlackWhite"%string
        (prtHeaderLines E letter_geometry letter_settings)
  /\ In "PAGES:1"%string (prtHeaderLines E letter_geometry letter_settings)
  /\ Forall (fun b => b = 0%Z \/ b = 255%Z) (prtImageData out).
Proof.
  intros Hout. pose proof (generateRIPFiles_inv _ _ _ _ Hout) as G.
  split; [|split; [|split; [|split; [|split; [|split; [|split]]]]]].
  - rewrite (prt_length _ _ _ _ G). apply letter_compressedImageSize.
  - vm_compute. reflexivity.
  - vm_compute. reflexivity.
  - apply (gen_prtHeader _ _ _ _ G).
  - cbn. do 4 right. left. reflexivity.
  - cbn. do 5 right. left. reflexivity.
  - cbn. do 7 right. left. reflexivity.
  - rewrite (gen_prt _ _ _ _ G). apply Forall_map, Forall_forall.
    intros i _. rewrite prt_byte_BlackWhite by reflexivity.
    destruct (Qle_bool _ 128); auto.
Qed.

Lemma C1_letter_scenario_witness :
  exists out,
    generateRIPFiles ref_engine letter_geometry letter_settings = Some out
    /\ Z.of_nat (List.length (prtImageData out)) = 467499%Z
    /\ Forall (fun b => b = 0%Z \/ b = 255%Z) (prtImageData out).
Proof.
  destruct letter_generates as [out Hout]. exists out.
  split; [exact Hout|].
  split; apply (C1_letter_scenario ref_engine out Hout).
Defined.

(** ** The headers *)

(** C3 as stated fails: the primary header is not eleven identity
    fields, eleven device fields and the sentinel; it has 21 lines. *)
Lemma C3_not_eleven_device_fields :
  ~ (forall E g s, exists device,
        prtHeaderLines E g s
        = (prtIdentityFields E g s ++ device
           ++ ["DROPLET_PLACEMENT_DATA_START"%string])%list
        /\ List.length device = 11%nat).
Proof.
  intros H.
  destruct (H ref_engine letter_geometry letter_settings) as [device [Heq Hlen]].
  apply (f_equal (@List.length string)) in Heq.
  rewrite !length_app, Hlen in Heq. cbn in Heq. discriminate Heq.
Qed.

(** C3 (amended): the primary header is the eleven identity fields
    (format identifier, file type, creator, timestamp, DPI, color mode,
    compression level, page count, page width, page height, bytes per
    pixel), then exactly nine fixed device-capability fields, then the
    sentinel line DROPLET_PLACEMENT_DATA_START. *)
Theorem C3_primary_header_layout E g s :
  prtHeaderLines E g s
  = (prtIdentityFields E g s ++ deviceCapabilityFields
     ++ ["DROPLET_PLACEMENT_DATA_START"%string])%list
  /\ List.length (prtIdentityFields E g s) = 11%nat
  /\ List.length deviceCapabilityFields = 9%nat.
Proof. repeat split. Qed.

Lemma num_safe z : (Z.abs z <= 2 ^ 53)%Z -> num z == inject_Z z.
Proof. apply round_Z. Qed.

(** When the ratio of the two resolutions is a power of two, the
    rescaled dimension is computed without rounding error. *)
Lemma rescale_exact W d j :
  (0 <= W < 2 ^ 53)%Z -> (0 <= j <= 1074)%Z ->
  fdiv (num 300) (num d) == pow2 (- j) ->
  inject_Z 300 / inject_Z d == pow2 (- j) ->
  Qceiling (fmul (num W) (fdiv (num 300) (num d)))
  = Qceiling (inject_Z W * inject_Z 300 / inject_Z d).
Proof.
  intros HW Hj Hr Hq. unfold fmul.
  rewrite (round_proper _ (inject_Z W * pow2 (- j)))
    by (rewrite Hr, num_safe by lia; reflexivity).
  transitivity (Qceiling (inject_Z W * pow2 (- j))).
  - apply Qceiling_comp, round_repr; lia.
  - apply Qceiling_comp. unfold Qdiv in *. rewrite <- Qmult_assoc, Hq.
    reflexivity.
Qed.

Lemma no_device_field_in_preview E g s l :
  In l deviceCapabilityFields -> ~ In l (pvwHeaderLines E g s).
Proof.
  intros Hl Hin. unfold deviceCapabilityFields in Hl.
  unfold pvwHeaderLines in Hin. cbn [In String.append] in Hl, Hin.
  repeat (destruct Hl as [Hl|Hl]; [subst l |]); try contradiction;
    repeat (destruct Hin as [Hin|Hin]; [try discriminate Hin |]);
    try contradiction.
Qed.

(** C7: the preview header reports DPI min(dpi, 300), the compression
    level 90 whatever the settings say, and the page width and height
    rescaled by previewDPI / dpi and rounded up; it has none of the
    device-capability fields and ends with PREVIEW_DATA_START.  The
    rescaling is the source's double arithmetic, which is exact for the
    resolutions the application offers (300, 600, 1200, 2400). *)
Theorem C7_preview_header E g s out :
  (0 < dpi s)%Z ->
  generateRIPFiles E g s = Some out ->
  let ratio := fdiv (num (Z.min (dpi s) 300)) (num (dpi s)) in
  let lines :=
    [ "RICOH_GEN6_PREVIEW_V3.2";
      "FILE_TYPE:PREVIEW_DATA";
      "CREATED_BY:PDF_TO_RIP_CONVERTER";
      "TIMESTAMP:" ++ toISOString E 1;
      "DPI:" ++ Number_toString (Z.min (dpi s) 300);
      "COLOR_MODE:" ++ colorModeName (colorMode s);
      "COMPRESSION:90";
      "PAGES:" ++ Number_toString (numPages g);
      "PAGE_WIDTH:"
        ++ Number_toString (Qceiling (fmul (num (pageWidth g)) ratio));
      "PAGE_HEIGHT:"
        ++ Number_toString (Qceiling (fmul (num (pageHeight g)) ratio));
      "BYTES_PER_PIXEL:" ++ Number_toString (bytesPerPixel s);
      "PREVIEW_DATA_START" ]%string in
  pvwHeaderLines E g s = lines
  /\ pvwHeader out = TextEncoder_encode (join_lines lines)
  /\ (forall c, pvwHeaderLines E g (with_compressionLevel s c) = lines)
  /\ (forall l, In l deviceCapabilityFields -> ~ In l lines)
  /\ last lines EmptyString = "PREVIEW_DATA_START"%string
  /\ (In (dpi s) [300; 600; 1200; 2400]%Z ->
      forall W, (0 <= W < 2 ^ 53)%Z ->
        Qceiling (fmul (num W) ratio)
        = Qceiling (inject_Z W * inject_Z (Z.min (dpi s) 300)
                    / inject_Z (dpi s))).
Proof.
  intros Hdpi Hout ratio lines.
  pose proof (generateRIPFiles_inv _ _ _ _ Hout) as G.
  assert (HL : pvwHeaderLines E g s = lines) by reflexivity.
  split; [exact HL|]. split; [rewrite <- HL; apply (gen_pvwHeader _ _ _ _ G)|].
  split; [intros c; reflexivity|].
  split; [rewrite <- HL; apply no_device_field_in_preview|].
  split; [reflexivity|].
  intros Hin W HW. unfold ratio. clear - Hin HW.
  cbn [In] in Hin.
  destruct Hin as [H|[H|[H|[H|[]]]]]; rewrite <- H;
    change (Z.min 300 300) with 300%Z; change (Z.min 600 300) with 300%Z;
    change (Z.min 1200 300) with 300%Z; change (Z.min 2400 300) with 300%Z.
  - apply (rescale_exact W 300 0); [lia | lia | | ]; vm_compute; reflexivity.
  - apply (rescale_exact W 600 1); [lia | lia | | ]; vm_compute; reflexivity.
  - apply (rescale_exact W 1200 2); [lia | lia | | ]; vm_compute; reflexivity.
  - apply (rescale_exact W 2400 3); [lia | lia | | ]; vm_compute; reflexivity.
Qed.

Lemma C7_preview_header_witness :
  exists out,
    (0 < dpi letter_settings)%Z
    /\ generateRIPFiles ref_engine letter_geometry letter_settings = Some out
    /\ pvwHeaderLines ref_engine letter_geometry letter_settings
       = [ "RICOH_GEN6_PREVIEW_V3.2";
           "FILE_TYPE:PREVIEW_DATA";
           "CREATED_BY:PDF_TO_RIP_CONVERTER";
           "TIMESTAMP:2024-05-17T09:30:00.000Z";
           "DPI:300";
           "COLOR_MODE:BlackWhite";
           "COMPRESSION:90";
           "PAGES:1";
           "PAGE_WIDTH:425";
           "PAGE_HEIGHT:550";
           "BYTES_PER_PIXEL:1";
           "PREVIEW_DATA_START" ]%string.
Proof.
  destruct letter_generates as [out Hout]. exists out.
  split; [reflexivity|]. split; [exact Hout|].
  destruct (C7_preview_header ref_engine letter_geometry letter_settings out
              eq_refl Hout) as [HL _].
  rewrite HL. vm_compute. reflexivity.
Defined.

(** ** Assembly of the two buffers *)

(** C8: for every color mode and geometry the [.prt] buffer is the
    concatenation header ++ payload ++ control data and the [.prt.pvw]
    buffer, which has no control data, is header ++ payload; their
    lengths are the sums of the lengths of the parts. *)
Theorem C8_assembled_buffers E g s out :
  generateRIPFiles E g s = Some out ->
  prtData out = prtHeader out ++ prtImageData out ++ controlData out
  /\ pvwData out = pvwHeader out ++ pvwImageData out
  /\ List.length (prtData out)
     = (List.length (prtHeader out) + List.length (prtImageData out)
        + List.length (controlData out))%nat
  /\ List.length (pvwData out)
     = (List.length (pvwHeader out) + List.length (pvwImageData out))%nat.
Proof.
  intros Hout. pose proof (generateRIPFiles_inv _ _ _ _ Hout) as G.
  pose proof (gen_prtData _ _ _ _ G) as H1.
  pose proof (gen_pvwData _ _ _ _ G) as H2.
  repeat split; try assumption.
  - rewrite H1, !length_app. lia.
  - rewrite H2, length_app. reflexivity.
Qed.

Lemma tiny_compressedImageSize :
  compressedImageSize tiny_geometry tiny_settings = 20%Z.
Proof. vm_compute. reflexivity. Qed.

Lemma tiny_generates :
  exists out,
    generateRIPFiles ref_engine tiny_geometry tiny_settings = Some out.
Proof. apply generateRIPFiles_total; vm_compute; discriminate. Qed.

Lemma C8_assembled_buffers_witness :
  exists out,
    generateRIPFiles ref_engine tiny_geometry tiny_settings = Some out
    /\ prtData out = prtHeader out ++ prtImageData out ++ controlData out
    /\ pvwData out = pvwHeader out ++ pvwImageData out.
Proof.
  destruct tiny_generates as [out Hout]. exists out.
  split; [exact Hout|].
  destruct (C8_assembled_buffers ref_engine tiny_geometry tiny_settings out Hout)
    as [H1 [H2 _]].
  split; assumption.
Defined.

(** ** The payload patterns *)

(** C9: in BlackWhite mode every payload byte is 0 or 255: with
    threshold = sin(row*0.1) * cos(col*0.1) * 127 + 128 at the row and
    column derived from the index, the byte is 255 when threshold > 128
    and 0 otherwise. *)
Theorem C9_blackwhite_payload E g s out :
  colorMode s = BlackWhite ->
  generateRIPFiles E g s = Some out ->
  forall i, (i < List.length (prtImageData out))%nat ->
    let size := compressedImageSize g s in
    let threshold :=
      fadd (fmul (fmul (Math_sin E (fmul (row g size i) (lit (1 # 10))))
                       (Math_cos E (fmul (col g size i) (lit (1 # 10)))))
                 127)
           128 in
    let b := nth i (prtImageData out) 0%Z in
    (b = 0%Z \/ b = 255%Z)
    /\ (128 < threshold -> b = 255%Z)
    /\ (threshold <= 128 -> b = 0%Z).
Proof.
  intros Hc Hout i Hi size threshold b.
  pose proof (generateRIPFiles_inv _ _ _ _ Hout) as G.
  unfold b. rewrite (prt_nth _ _ _ _ G i Hi), (prt_byte_BlackWhite _ _ _ _ Hc).
  fold size. change (density E g (lit (1 # 10)) size i) with threshold.
  destruct (Qle_bool threshold 128) eqn:B.
  - apply Qle_bool_iff in B. repeat split; auto. intros H. exfalso. lra.
  - repeat split; auto. intros H. apply Qle_bool_iff in H. congruence.
Qed.

Lemma C9_blackwhite_payload_witness :
  exists out,
    colorMode letter_settings = BlackWhite
    /\ generateRIPFiles ref_engine letter_geometry letter_settings = Some out
    /\ (0 < List.length (prtImageData out))%nat
    /\ (nth 0 (prtImageData out) 0%Z = 0%Z
        \/ nth 0 (prtImageData out) 0%Z = 255%Z).
Proof.
  destruct letter_generates as [out Hout]. exists out.
  assert (Hlen : (0 < List.length (prtImageData out))%nat).
  { pose proof (prt_length _ _ _ _ (generateRIPFiles_inv _ _ _ _ Hout)) as L.
    rewrite letter_compressedImageSize in L. lia. }
  split; [reflexivity|]. split; [exact Hout|]. split; [exact Hlen|].
  apply (C9_blackwhite_payload ref_engine letter_geometry letter_settings out
           eq_refl Hout 0%nat Hlen).
Defined.

Lemma draws_jitter s : colorMode s <> BlackWhite -> draws s = 1%nat.
Proof. unfold draws. destruct (colorMode s); congruence. Qed.

(** The CMYK and Grayscale branches of the payload loop: the k-th call
    of [Math.random] serves byte k. *)
Lemma prt_byte_CMYK E g s i :
  colorMode s = CMYK ->
  prt_byte E g s i
  = (Qfloor (fmul (density E g (lit (1 # 100)) (compressedImageSize g s) i)
                  (fadd (lit (8 # 10))
                        (fmul (Math_random E i) (lit (4 # 10)))))
     mod 256)%Z.
Proof.
  intros Hc. unfold prt_byte, pixel.
  rewrite draws_jitter, Nat.mul_1_l by congruence.
  rewrite Hc. cbn [fst]. apply ToUint8_Z.
Qed.

Lemma prt_byte_Grayscale E g s i :
  colorMode s = Grayscale ->
  prt_byte E g s i
  = (Qfloor (fmul (density E g (lit (2 # 100)) (compressedImageSize g s) i)
                  (fadd (lit (7 # 10))
                        (fmul (Math_random E i) (lit (6 # 10)))))
     mod 256)%Z.
Proof.
  intros Hc. unfold prt_byte, pixel.
  rewrite draws_jitter, Nat.mul_1_l by congruence.
  rewrite Hc. cbn [fst]. apply ToUint8_Z.
Qed.

Lemma tall_compressedImageSize :
  compressedImageSize tall_geometry tall_settings = 800%Z.
Proof. vm_compute. reflexivity. Qed.






(** C10: in CMYK mode the channel number i mod 4 is computed and not
    used: two indices with the same row, the same column and the same
    draw receive the same byte, whatever their channels. *)
Theorem C10_cmyk_channel_unused E g s out :
  colorMode s = CMYK ->
  generateRIPFiles E g s = Some out ->
  forall i j,
    (i < List.length (prtImageData out))%nat ->
    (j < List.length (prtImageData out))%nat ->
    let size := compressedImageSize g s in
    row g size i == row g size j ->
    col g size i == col g size j ->
    Math_random E i == Math_random E j ->
    nth i (prtImageData out) 0%Z = nth j (prtImageData out) 0%Z.
Proof.
  intros Hc Hout i j Hi Hj size Hrow Hcol Hr.
  pose proof (generateRIPFiles_inv _ _ _ _ Hout) as G.
  rewrite (prt_nth _ _ _ _ G i Hi), (prt_nth _ _ _ _ G j Hj).
  rewrite !(prt_byte_CMYK _ _ _ _ Hc). fold size. unfold density, fmul.
  rewrite (round_proper (row g size i * lit (1 # 100))
                        (row g size j * lit (1 # 100)))
    by (now rewrite Hrow).
  rewrite (round_proper (col g size i * lit (1 # 100))
                        (col g size j * lit (1 # 100)))
    by (now rewrite Hcol).
  rewrite (round_proper (Math_random E i * lit (4 # 10))
                        (Math_random E j * lit (4 # 10)))
    by (now rewrite Hr).
  reflexivity.
Qed.

(** Bytes 0 and 10 of the tiny four-page document lie on channels 0
    and 2 and share row, column and draw. *)
Lemma C10_cmyk_channel_unused_witness :
  exists out,
    colorMode tiny_settings = CMYK
    /\ generateRIPFiles ref_engine tiny_geometry tiny_settings = Some out
    /\ (0 mod 4 <> 10 mod 4)%Z
    /\ nth 0 (prtImageData out) 0%Z = nth 10 (prtImageData out) 0%Z.
Proof.
  destruct tiny_generates as [out Hout]. exists out.
  assert (L : Z.of_nat (List.length (prtImageData out)) = 20%Z).
  { rewrite (prt_length _ _ _ _ (generateRIPFiles_inv _ _ _ _ Hout)).
    apply tiny_compressedImageSize. }
  split; [reflexivity|]. split; [exact Hout|].
  split; [intros H; vm_compute in H; discriminate H|].
  apply (C10_cmyk_channel_unused ref_engine tiny_geometry tiny_settings out
           eq_refl Hout 0%nat 10%nat).
  - clear - L. lia.
  - clear - L. lia.
  - vm_compute. reflexivity.
  - vm_compute. reflexivity.
  - vm_compute. reflexivity.
Defined.

(** ** The size policy *)

Lemma num_nonneg z : (0 <= z)%Z -> 0 <= num z.
Proof. intros H. apply round_nonneg, inject_Z_nonneg, H. Qed.

Lemma num_mono a b : (a <= b)%Z -> num a <= num b.
Proof. intros H. apply round_mono. now rewrite <- Zle_Qle. Qed.

Lemma fmul_nonneg x y : 0 <= x -> 0 <= y -> 0 <= fmul x y.
Proof. intros Hx Hy. apply round_nonneg, Qmult_le_0_compat; assumption. Qed.

Lemma bytesPerPixel_pos s : (0 < bytesPerPixel s)%Z.
Proof. unfold bytesPerPixel. destruct (colorMode s); lia. Qed.

Lemma baseImageSize_nonneg g s :
  (0 <= pageWidth g)%Z -> (0 <= pageHeight g)%Z -> (0 <= numPages g)%Z ->
  0 <= baseImageSize g s.
Proof.
  intros HW HH HP. unfold baseImageSize.
  repeat apply fmul_nonneg; try (apply num_nonneg; assumption).
  apply inject_Z_nonneg. pose proof (bytesPerPixel_pos s). lia.
Qed.

(** The density factor 1 - compressionLevel/100 + 0.3 falls as the
    level rises: each of its three operations is monotone. *)
Lemma density_factor_antitone s s' :
  (compressionLevel s <= compressionLevel s')%Z ->
  fadd (fsub 1 (compressionRatio s')) (lit (3 # 10))
  <= fadd (fsub 1 (compressionRatio s)) (lit (3 # 10)).
Proof.
  intros Hc. unfold fadd, fsub, compressionRatio, fdiv.
  apply round_mono, Qplus_le_compat; [|apply Qle_refl].
  apply round_mono, Qplus_le_compat; [apply Qle_refl|].
  apply Qopp_le_compat, round_mono.
  apply Qmult_le_compat_r; [apply num_mono, Hc | discriminate].
Qed.

Lemma compressedImageSize_antitone g s s' :
  colorMode s' = colorMode s ->
  (0 <= pageWidth g)%Z -> (0 <= pageHeight g)%Z -> (0 <= numPages g)%Z ->
  (compressionLevel s <= compressionLevel s')%Z ->
  (compressedImageSize g s' <= compressedImageSize g s)%Z.
Proof.
  intros Hm HW HH HP Hc. unfold compressedImageSize.
  assert (Hb : baseImageSize g s' = baseImageSize g s)
    by (unfold baseImageSize, bytesPerPixel; now rewrite Hm).
  rewrite Hb. apply Qfloor_resp_le. unfold fmul. apply round_mono.
  pose proof (baseImageSize_nonneg g s HW HH HP) as Hn.
  pose proof (density_factor_antitone s s' Hc) as Hd.
  revert Hn Hd.
  generalize (baseImageSize g s)
    (fadd (fsub 1 (compressionRatio s')) (lit (3 # 10)))
    (fadd (fsub 1 (compressionRatio s)) (lit (3 # 10))).
  intros b d' d Hn Hd. nra.
Qed.

(** ** The size policy against exact arithmetic *)

Lemma rne_error y :
  inject_Z (rne y) - y <= 1 # 2 /\ y - inject_Z (rne y) <= 1 # 2.
Proof.
  pose proof (Qfloor_le y) as H1. pose proof (Qlt_floor y) as H2.
  rewrite inject_Z_plus in H2. change (inject_Z 1) with 1 in H2.
  unfold rne.
  destruct (Qcompare_spec (y - inject_Z (Qfloor y)) (1 # 2)) as [H|H|H];
    try destruct (Z.even (Qfloor y));
    rewrite ?inject_Z_plus; change (inject_Z 1) with 1; split; lra.
Qed.

(** Below 2^44 a positive value moves by at most 2^-10 when rounded. *)
Lemma round_error_below_2p44 x :
  0 <= x -> x < pow2 44 ->
  round x - x <= pow2 (-10) /\ x - round x <= pow2 (-10).
Proof.
  intros H0 H44. unfold round.
  destruct (Qcompare_spec x 0) as [E|E|E]; try (exfalso; lra).
  - pose proof (pow2_pos (-10)). split; lra.
  - destruct (binade_spec x E) as [Hb _].
    assert (Hbx : (binade x < 44)%Z) by (apply pow2_lt_inv; lra).
    unfold round_pos. set (e := ulp_exp x).
    assert (He : (e <= -9)%Z) by (unfold e, ulp_exp; lia).
    pose proof (pow2_pos e) as Hpe.
    pose proof (pow2_le e (-9) He) as Hle.
    assert (H9 : pow2 (-9) == 2 * pow2 (-10)) by (vm_compute; reflexivity).
    pose proof (rne_error (x / pow2 e)) as [R1 R2].
    pose proof (div_pow2 x e) as Hx.
    revert R1 R2 Hx Hpe Hle H9.
    generalize (inject_Z (rne (x / pow2 e))) (x / pow2 e) (pow2 e)
      (pow2 (-9)) (pow2 (-10)).
    intros r y p p9 p10; intros. split; nra.
Qed.

(** The density factor in doubles is within 2^-52 of (130 - c)/100 for
    every level of the slider. *)
Lemma density_factor_table :
  forallb
    (fun c =>
       let d := fadd (fsub 1 (fdiv (num c) 100)) (lit (3 # 10)) in
       let d0 := inject_Z (130 - c) / 100 in
       Qle_bool (d - d0) (pow2 (-52)) && Qle_bool (d0 - d) (pow2 (-52)))
    (map Z.of_nat (seq 10 91))
  = true.
Proof. vm_compute. reflexivity. Qed.

Lemma density_factor_near_exact s :
  (10 <= compressionLevel s <= 100)%Z ->
  let d := fadd (fsub 1 (compressionRatio s)) (lit (3 # 10)) in
  let d0 := inject_Z (130 - compressionLevel s) / 100 in
  d - d0 <= pow2 (-52) /\ d0 - d <= pow2 (-52).
Proof.
  intros Hc. pose proof density_factor_table as T.
  rewrite forallb_forall in T.
  specialize (T (compressionLevel s)).
  assert (Hin : In (compressionLevel s) (map Z.of_nat (seq 10 91))).
  { apply in_map_iff. exists (Z.to_nat (compressionLevel s)).
    split; [lia | apply in_seq; lia]. }
  apply T in Hin. apply andb_prop in Hin. destruct Hin as [H1 H2].
  apply Qle_bool_iff in H1, H2. split; assumption.
Qed.

Lemma fmul_Z a b :
  (Z.abs (a * b) <= 2 ^ 53)%Z ->
  forall x y, x == inject_Z a -> y == inject_Z b ->
  fmul x y == inject_Z (a * b).
Proof.
  intros H x y Hx Hy. unfold fmul.
  rewrite (round_proper _ (inject_Z (a * b)))
    by (now rewrite Hx, Hy, inject_Z_mult).
  apply round_Z, H.
Qed.

Lemma baseImageSize_exact g s :
  (0 < pageWidth g)%Z -> (0 < pageHeight g)%Z -> (0 < numPages g)%Z ->
  (pageWidth g * pageHeight g * bytesPerPixel s * numPages g < 2 ^ 53)%Z ->
  baseImageSize g s
  == inject_Z (pageWidth g * pageHeight g * bytesPerPixel s * numPages g).
Proof.
  intros HW HH HP Hlt. pose proof (bytesPerPixel_pos s) as Hb.
  set (W := pageWidth g) in *. set (H := pageHeight g) in *.
  set (P := numPages g) in *. set (b := bytesPerPixel s) in *.
  assert (P1 : (0 < W * H)%Z) by (apply Z.mul_pos_pos; assumption).
  assert (P2 : (0 < W * H * b)%Z) by (apply Z.mul_pos_pos; assumption).
  assert (H1 : (W <= W * H)%Z) by (apply Z.le_mul_diag_r; lia).
  assert (H2 : (H <= W * H)%Z) by (rewrite Z.mul_comm; apply Z.le_mul_diag_r; lia).
  assert (H3 : (W * H <= W * H * b)%Z) by (apply Z.le_mul_diag_r; lia).
  assert (H4 : (W * H * b <= W * H * b * P)%Z) by (apply Z.le_mul_diag_r; lia).
  assert (H5 : (P <= W * H * b * P)%Z)
    by (rewrite (Z.mul_comm _ P); apply Z.le_mul_diag_r; lia).
  unfold baseImageSize. fold W H P b.
  apply fmul_Z; [lia | | apply num_safe; lia].
  apply fmul_Z; [lia | | reflexivity].
  apply fmul_Z; [lia | apply num_safe; lia | apply num_safe; lia].
Qed.

(** For raw sizes below 2^43 bytes and the levels of the slider, the
    length computed in doubles is the exact
    floor(W * H * bpp * pages * (130 - c) / 100) or one less, and it is
    the exact floor whenever 100 does not divide W*H*bpp*pages*(130-c). *)
Lemma compressedImageSize_near_exact g s :
  (0 < pageWidth g)%Z -> (0 < pageHeight g)%Z -> (0 < numPages g)%Z ->
  (pageWidth g * pageHeight g * bytesPerPixel s * numPages g < 2 ^ 43)%Z ->
  (10 <= compressionLevel s <= 100)%Z ->
  let X := (pageWidth g * pageHeight g * bytesPerPixel s * numPages g
            * (130 - compressionLevel s))%Z in
  (X / 100 - 1 <= compressedImageSize g s <= X / 100)%Z
  /\ ((X mod 100 <> 0)%Z -> compressedImageSize g s = (X / 100)%Z).
Proof.
  intros HW HH HP Hlt Hc X.
  pose proof (bytesPerPixel_pos s) as Hbpp.
  set (B := (pageWidth g * pageHeight g * bytesPerPixel s * numPages g)%Z) in *.
  assert (HB0 : (0 < B)%Z) by (unfold B; nia).
  assert (HBq : baseImageSize g s == inject_Z B)
    by (apply baseImageSize_exact; try assumption; fold B; lia).
  destruct (density_factor_near_exact s Hc) as [D1 D2].
  set (d := fadd (fsub 1 (compressionRatio s)) (lit (3 # 10))) in *.
  set (d0 := inject_Z (130 - compressionLevel s) / 100) in *.
  assert (Hd0 : (3 # 10) <= d0 /\ d0 <= (12 # 10)).
  { assert (Hn : 30 <= inject_Z (130 - compressionLevel s)
                 /\ inject_Z (130 - compressionLevel s) <= 120).
    { change 30 with (inject_Z 30). change 120 with (inject_Z 120).
      rewrite <- !Zle_Qle. lia. }
    assert (He : d0 * 100 == inject_Z (130 - compressionLevel s))
      by (unfold d0; field).
    destruct Hn. split; lra. }
  assert (HBb : 0 < inject_Z B /\ inject_Z B <= pow2 43).
  { split; [change 0 with (inject_Z 0); rewrite <- Zlt_Qlt; lia|].
    rewrite pow2_Z by lia. rewrite <- Zle_Qle. lia. }
  assert (P52 : pow2 43 * pow2 (-52) == pow2 (-9)) by (vm_compute; reflexivity).
  assert (P9 : pow2 (-9) == 1 # 512) by (vm_compute; reflexivity).
  assert (P10 : pow2 (-10) == 1 # 1024) by (vm_compute; reflexivity).
  assert (P44 : pow2 44 == 2 * pow2 43) by (vm_compute; reflexivity).
  pose proof (pow2_pos (-52)) as Q52. pose proof (pow2_pos 43) as Q43.
  set (x := baseImageSize g s * d).
  assert (Hx : x - inject_Z B * d0 <= (1 # 512)
               /\ inject_Z B * d0 - x <= (1 # 512)).
  { unfold x. rewrite HBq. rewrite <- P9, <- P52.
    destruct HBb, Hd0. split; nra. }
  assert (HB1 : 1 <= inject_Z B)
    by (change 1 with (inject_Z 1); rewrite <- Zle_Qle; lia).
  assert (H43 : 1 <= pow2 43) by (vm_compute; discriminate).
  assert (Hprod : (3 # 10) * inject_Z B <= inject_Z B * d0
                  /\ inject_Z B * d0 <= (12 # 10) * inject_Z B)
    by (destruct HBb, Hd0; split; nra).
  assert (Hx0 : 0 <= x /\ x < pow2 44).
  { destruct Hx, HBb, Hprod. rewrite P44. split; lra. }
  destruct Hx0 as [Hx0 Hx44].
  destruct (round_error_below_2p44 x Hx0 Hx44) as [R1 R2].
  rewrite P10 in R1, R2.
  (* the exact value as a fraction of 100 *)
  assert (HX : inject_Z B * d0 * 100 == inject_Z X).
  { unfold d0, X. rewrite inject_Z_mult. field. }
  assert (HXdiv : (X = 100 * (X / 100) + X mod 100)%Z)
    by (apply Z.div_mod; lia).
  assert (HXmod : (0 <= X mod 100 < 100)%Z) by (apply Z.mod_pos_bound; lia).
  assert (HXq : inject_Z X
                == 100 * inject_Z (X / 100) + inject_Z (X mod 100)).
  { rewrite HXdiv at 1. rewrite inject_Z_plus, inject_Z_mult. reflexivity. }
  assert (Hm : 0 <= inject_Z (X mod 100) /\ inject_Z (X mod 100) <= 99).
  { split; [apply inject_Z_nonneg; lia|].
    change 99 with (inject_Z 99). rewrite <- Zle_Qle. lia. }
  unfold compressedImageSize. fold d. unfold fmul. fold x.
  set (r := round x) in *.
  set (q := (X / 100)%Z) in *.
  assert (Hr : inject_Z q - (3 # 1024) <= r
               /\ r < inject_Z q + 1).
  { destruct Hx, Hm. split; lra. }
  destruct Hr as [Hr1 Hr2].
  assert (Hhi : (Qfloor r <= q)%Z).
  { assert (Qfloor r < q + 1)%Z; [|lia]. apply Qfloor_lt_Z.
    rewrite inject_Z_plus. exact Hr2. }
  assert (Hlo : (q - 1 <= Qfloor r)%Z).
  { rewrite <- (Qfloor_Z (q - 1)). apply Qfloor_resp_le.
    unfold Z.sub. rewrite inject_Z_plus, inject_Z_opp.
    change (inject_Z 1) with 1. lra. }
  split; [split; assumption|].
  intros Hnz. apply Z.le_antisymm; [exact Hhi|].
  rewrite <- (Qfloor_Z q). apply Qfloor_resp_le.
  assert (Hm1 : 1 <= inject_Z (X mod 100)).
  { change 1 with (inject_Z 1). rewrite <- Zle_Qle. lia. }
  destruct Hx. lra.
Qed.

Lemma exact_payload_size_eq g s :
  exact_payload_size g s
  = (pageWidth g * pageHeight g * bytesPerPixel s * numPages g
     * (130 - compressionLevel s) / 100)%Z.
Proof.
  unfold exact_payload_size. rewrite Zdiv_Qdiv. apply Qfloor_comp.
  rewrite !inject_Z_mult. unfold Z.sub.
  rewrite inject_Z_plus, inject_Z_opp.
  change (inject_Z 130) with 130. change (inject_Z 100) with 100. field.
Qed.

(** C4 as stated fails when the formula is read in exact arithmetic:
    the letter page at the default settings has 467499 payload bytes,
    and the exact formula gives 467500. *)
Lemma C4_exact_size_formula_fails :
  ~ (forall E g s out,
        (0 < pageWidth g)%Z -> (0 < pageHeight g)%Z -> (0 < numPages g)%Z ->
        generateRIPFiles E g s = Some out ->
        Z.of_nat (List.length (prtImageData out)) = exact_payload_size g s).
Proof.
  intros H. destruct letter_generates as [out Hout].
  specialize (H ref_engine letter_geometry letter_settings out
                eq_refl eq_refl eq_refl Hout).
  rewrite (prt_length _ _ _ _ (generateRIPFiles_inv _ _ _ _ Hout)) in H.
  rewrite letter_compressedImageSize in H.
  vm_compute in H. discriminate H.
Qed.

(** C4 (amended): for fixed page geometry and color mode the primary
    payload has floor(pageWidth * pageHeight * bytesPerPixel *
    pageCount * (1 - compressionLevel/100 + 0.3)) bytes when the
    expression is evaluated as the source does, in doubles and from
    left to right; the length does not increase when compressionLevel
    increases (over 10 .. 100 and beyond); and against the same
    expression in exact arithmetic, for a raw size below 2^43 bytes and
    a level from 10 to 100, the length is the exact floor or one less,
    and is the exact floor whenever raw * (130 - compressionLevel) is
    not a multiple of 100. *)
Theorem C4_payload_size_policy E g s out :
  (0 < pageWidth g)%Z -> (0 < pageHeight g)%Z -> (0 < numPages g)%Z ->
  generateRIPFiles E g s = Some out ->
  Z.of_nat (List.length (prtImageData out))
  = Qfloor (fmul (fmul (fmul (fmul (num (pageWidth g)) (num (pageHeight g)))
                             (inject_Z (bytesPerPixel s)))
                       (num (numPages g)))
                 (fadd (fsub 1 (fdiv (num (compressionLevel s)) 100))
                       (lit (3 # 10))))
  /\ (forall E' s' out',
         colorMode s' = colorMode s ->
         (compressionLevel s <= compressionLevel s')%Z ->
         generateRIPFiles E' g s' = Some out' ->
         (List.length (prtImageData out')
          <= List.length (prtImageData out))%nat)
  /\ ((pageWidth g * pageHeight g * bytesPerPixel s * numPages g < 2 ^ 43)%Z ->
      (10 <= compressionLevel s <= 100)%Z ->
      let N := Z.of_nat (List.length (prtImageData out)) in
      (exact_payload_size g s - 1 <= N <= exact_payload_size g s)%Z
      /\ (((pageWidth g * pageHeight g * bytesPerPixel s * numPages g
            * (130 - compressionLevel s)) mod 100 <> 0)%Z ->
          N = exact_payload_size g s)).
Proof.
  intros HW HH HP Hout.
  pose proof (generateRIPFiles_inv _ _ _ _ Hout) as G.
  pose proof (prt_length _ _ _ _ G) as L.
  split; [exact L|]. split.
  - intros E' s' out' Hm Hc Hout'.
    pose proof (generateRIPFiles_inv _ _ _ _ Hout') as G'.
    pose proof (prt_length _ _ _ _ G') as L'.
    pose proof (compressedImageSize_antitone g s s' Hm
                  ltac:(lia) ltac:(lia) ltac:(lia) Hc) as M.
    clear - L L' M. lia.
  - intros Hraw Hc N. unfold N. rewrite L, exact_payload_size_eq.
    apply compressedImageSize_near_exact; assumption.
Qed.

Lemma letter_at_100_generates :
  exists out,
    generateRIPFiles ref_engine letter_geometry (letter_settings_at 100)
    = Some out.
Proof. apply generateRIPFiles_total; vm_compute; discriminate. Qed.

Lemma C4_payload_size_policy_witness :
  exists out out',
    generateRIPFiles ref_engine letter_geometry letter_settings = Some out
    /\ generateRIPFiles ref_engine letter_geometry (letter_settings_at 100)
       = Some out'
    /\ (List.length (prtImageData out')
        <= List.length (prtImageData out))%nat
    /\ (exact_payload_size letter_geometry letter_settings - 1
        <= Z.of_nat (List.length (prtImageData out))
        <= exact_payload_size letter_geometry letter_settings)%Z.
Proof.
  destruct letter_generates as [out Hout].
  destruct letter_at_100_generates as [out' Hout'].
  exists out, out'. split; [exact Hout|]. split; [exact Hout'|].
  destruct (C4_payload_size_policy ref_engine letter_geometry letter_settings
              out eq_refl eq_refl eq_refl Hout) as [_ [M X]].
  split.
  - apply (M ref_engine (letter_settings_at 100) out' eq_refl).
    + vm_compute. discriminate.
    + exact Hout'.
  - refine (proj1 (X _ _));
      cbn [pageWidth pageHeight numPages letter_geometry compressionLevel
           letter_settings bytesPerPixel colorMode]; lia.
Defined.

(** ** The preview resampling *)

(** The largest double below 1. *)
Lemma round_pred_1 : round (1 - pow2 (-53)) == 1 - pow2 (-53).
Proof. vm_compute. reflexivity. Qed.

Lemma sourceIndex_range p N i :
  (0 < N <= MAX_SAFE_INTEGER)%Z -> (0 < p <= MAX_SAFE_INTEGER)%Z ->
  (Z.of_nat i < p)%Z ->
  (0 <= Qfloor (sourceIndex p N i) < N)%Z.
Proof.
  intros HN Hp Hi. unfold MAX_SAFE_INTEGER in *.
  unfold sourceIndex, Math_floor. rewrite Qfloor_Z.
  set (fi := inject_Z (Z.of_nat i)).
  assert (Hfi : 0 <= fi) by (apply inject_Z_nonneg; lia).
  assert (Hp0 : 0 < inject_Z p)
    by (change 0 with (inject_Z 0); rewrite <- Zlt_Qlt; lia).
  assert (Hp1 : inject_Z p <= pow2 53)
    by (rewrite pow2_Z by lia; rewrite <- Zle_Qle; lia).
  assert (Hip : fi + 1 <= inject_Z p).
  { unfold fi. change 1 with (inject_Z 1).
    rewrite <- inject_Z_plus, <- Zle_Qle. lia. }
  assert (H53 : pow2 53 * pow2 (-53) == 1) by (vm_compute; reflexivity).
  pose proof (pow2_pos (-53)) as Hq53.
  assert (Hq : 0 <= fdiv fi (inject_Z p)
               /\ fdiv fi (inject_Z p) <= 1 - pow2 (-53)).
  { unfold fdiv. split.
    - apply round_nonneg, Qle_shift_div_l; [exact Hp0 | lra].
    - rewrite <- round_pred_1. apply round_mono.
      apply Qle_shift_div_r; [exact Hp0|]. nra. }
  destruct Hq as [Hq0 Hq1].
  assert (HN0 : 0 < inject_Z N)
    by (change 0 with (inject_Z 0); rewrite <- Zlt_Qlt; lia).
  split.
  - apply Qfloor_nonneg, fmul_nonneg; lra.
  - apply Qfloor_lt_Z. unfold fmul. apply round_below_int.
    + lia.
    + apply Qmult_le_0_compat; lra.
    + rewrite (Qmult_comm (inject_Z N)).
      apply Qmult_le_compat_r; lra.
Qed.

Lemma load_in_range (a : list Z) (z : Z) :
  (0 <= z < Z.of_nat (List.length a))%Z ->
  load a (inject_Z z) = Some (nth (Z.to_nat z) a 0%Z).
Proof.
  intros Hz. unfold load. rewrite Qfloor_Z.
  assert (B1 : Qle_bool 0 (inject_Z z) = true)
    by (apply Qle_bool_iff, inject_Z_nonneg; lia).
  assert (B2 : Qeq_bool (inject_Z z) (inject_Z z) = true)
    by (apply Qeq_bool_iff; reflexivity).
  rewrite B1, B2. cbn [andb].
  apply nth_error_nth'. lia.
Qed.

(** A run on the quilt document, evaluated. *)
Lemma quilt_run :
  option_map
    (fun out => (List.length (prtImageData out), List.length (pvwImageData out),
                 nth 7 (pvwImageData out) 0%Z,
                 nth 62 (prtImageData out) 0%Z,
                 nth 63 (prtImageData out) 0%Z))
    (generateRIPFiles ref_engine quilt_geometry quilt_settings)
  = Some (90%nat, 10%nat, 104%Z, 104%Z, 112%Z).
Proof. vm_compute. reflexivity. Qed.

(** Rounding a normal positive value moves it by at most 2^-53 of itself. *)
Lemma round_relative_error x :
  0 < x -> (-1022 <= binade x)%Z ->
  round x - x <= x * pow2 (-53) /\ x - round x <= x * pow2 (-53).
Proof.
  intros Hx Hb. unfold round.
  destruct (Qcompare_spec x 0) as [E|E|E]; try (exfalso; lra).
  destruct (binade_spec x E) as [Hlo _].
  unfold round_pos. set (e := ulp_exp x).
  assert (He : e = (binade x - 52)%Z) by (unfold e, ulp_exp; lia).
  pose proof (pow2_pos e) as Hpe.
  pose proof (pow2_pos (-53)) as Hu.
  assert (Hhalf : pow2 (binade x) * pow2 (-53) == (1 # 2) * pow2 e).
  { rewrite <- pow2_add, He.
    replace (binade x + -53)%Z with (binade x - 52 - 1)%Z by lia.
    rewrite (pow2_pred (binade x - 52)). ring. }
  assert (Hbu : pow2 (binade x) * pow2 (-53) <= x * pow2 (-53))
    by (apply Qmult_le_compat_r; lra).
  pose proof (rne_error (x / pow2 e)) as [R1 R2].
  pose proof (div_pow2 x e) as Hd.
  assert (M1 : (inject_Z (rne (x / pow2 e)) - x / pow2 e) * pow2 e
               <= (1 # 2) * pow2 e) by (apply Qmult_le_compat_r; lra).
  assert (M2 : (x / pow2 e - inject_Z (rne (x / pow2 e))) * pow2 e
               <= (1 # 2) * pow2 e) by (apply Qmult_le_compat_r; lra).
  assert (D1 : (inject_Z (rne (x / pow2 e)) - x / pow2 e) * pow2 e
               == inject_Z (rne (x / pow2 e)) * pow2 e - x)
    by (transitivity (inject_Z (rne (x / pow2 e)) * pow2 e
                      - x / pow2 e * pow2 e); [ring | rewrite Hd; reflexivity]).
  assert (D2 : (x / pow2 e - inject_Z (rne (x / pow2 e))) * pow2 e
               == x - inject_Z (rne (x / pow2 e)) * pow2 e)
    by (transitivity (x / pow2 e * pow2 e
                      - inject_Z (rne (x / pow2 e)) * pow2 e);
        [ring | rewrite Hd; reflexivity]).
  rewrite D1 in M1. rewrite D2 in M2. rewrite <- Hhalf in M1, M2.
  split; lra.
Qed.

Lemma binade_lower x e : pow2 e <= x -> (e <= binade x)%Z.
Proof.
  intros H. assert (Hx : 0 < x) by (pose proof (pow2_pos e); lra).
  destruct (binade_spec x Hx) as [_ Hhi].
  assert (pow2 e < pow2 (binade x + 1)) by lra.
  apply pow2_lt_inv in H0. lia.
Qed.

Lemma sourceIndex_0 p N : Qfloor (sourceIndex p N 0) = 0%Z.
Proof.
  unfold sourceIndex, Math_floor, fmul, fdiv. rewrite Qfloor_Z.
  change (inject_Z (Z.of_nat 0)) with 0.
  rewrite (round_proper (0 / inject_Z p) 0) by (unfold Qdiv; ring).
  rewrite round_0.
  rewrite (round_proper (0 * inject_Z N) 0) by ring.
  rewrite round_0. reflexivity.
Qed.

(** Against exact arithmetic the sampled index is the exact floor or
    one less, as long as the product of the two lengths is at most
    2^51. *)
Lemma sourceIndex_near_exact p N i :
  (0 < p)%Z -> (0 < N)%Z -> (Z.of_nat i < p)%Z -> (N * p <= 2 ^ 51)%Z ->
  let exact := Qfloor (inject_Z (Z.of_nat i) / inject_Z p * inject_Z N) in
  (exact - 1 <= Qfloor (sourceIndex p N i) <= exact)%Z.
Proof.
  intros Hp HN Hi Hprod exact.
  destruct i as [|i'].
  { rewrite sourceIndex_0. unfold exact.
    rewrite (Qfloor_comp _ 0) by (change (inject_Z (Z.of_nat 0)) with 0;
                                   unfold Qdiv; ring).
    change (Qfloor 0) with 0%Z. lia. }
  set (I := Z.of_nat (S i')) in *.
  assert (HI : (1 <= I)%Z) by (unfold I; lia).
  set (Iq := inject_Z I). set (Pq := inject_Z p). set (Nq := inject_Z N).
  assert (HIq : 1 <= Iq)
    by (change 1 with (inject_Z 1); unfold Iq; rewrite <- Zle_Qle; lia).
  assert (HPq : 1 <= Pq)
    by (change 1 with (inject_Z 1); unfold Pq; rewrite <- Zle_Qle; lia).
  assert (HNq : 1 <= Nq)
    by (change 1 with (inject_Z 1); unfold Nq; rewrite <- Zle_Qle; lia).
  assert (HIP : Iq + 1 <= Pq).
  { change 1 with (inject_Z 1). unfold Iq, Pq.
    rewrite <- inject_Z_plus, <- Zle_Qle. lia. }
  assert (HNP : Nq * Pq <= inject_Z (2 ^ 51))
    by (unfold Nq, Pq; rewrite <- inject_Z_mult, <- Zle_Qle; exact Hprod).
  assert (T51 : inject_Z (2 ^ 51) * pow2 (-53) == 1 # 4)
    by (vm_compute; reflexivity).
  assert (T51' : pow2 (-51) * inject_Z (2 ^ 51) == 1) by (vm_compute; reflexivity).
  assert (T52 : pow2 (-52) == (1 # 2) * pow2 (-51)) by (vm_compute; reflexivity).
  assert (Hu : 0 < pow2 (-53)) by apply pow2_pos.
  assert (Hu2 : pow2 (-53) <= 1 # 2) by (vm_compute; discriminate).
  pose proof (pow2_pos (-51)) as H51.
  set (u := pow2 (-53)) in *.
  set (w := / Pq).
  assert (Hw : w * Pq == 1) by (unfold w; field; lra).
  assert (Hw0 : 0 < w) by (unfold w; apply Qinv_lt_0_compat; lra).
  set (a := Iq / Pq).
  assert (Ha : a == Iq * w) by reflexivity.
  assert (Ha1 : a + w <= 1).
  { rewrite Ha. assert ((Iq + 1) * w <= Pq * w)
      by (apply Qmult_le_compat_r; lra).
    rewrite (Qmult_comm Pq) in H. lra. }
  assert (Haw : w <= a).
  { rewrite Ha. assert (1 * w <= Iq * w) by (apply Qmult_le_compat_r; lra).
    lra. }
  assert (HPq51 : Pq <= inject_Z (2 ^ 51)).
  { eapply Qle_trans; [|exact HNP].
    assert (1 * Pq <= Nq * Pq) by (apply Qmult_le_compat_r; lra). lra. }
  assert (Hw51 : pow2 (-51) <= w).
  { assert (pow2 (-51) * Pq <= pow2 (-51) * inject_Z (2 ^ 51)).
    { rewrite !(Qmult_comm (pow2 (-51))). apply Qmult_le_compat_r; lra. }
    assert (pow2 (-51) * Pq * w <= 1 * w)
      by (apply Qmult_le_compat_r; lra).
    assert (pow2 (-51) * Pq * w == pow2 (-51))
      by (rewrite <- Qmult_assoc, (Qmult_comm Pq), Hw; ring).
    lra. }
  assert (Ha0 : 0 < a) by lra.
  (* the quotient *)
  assert (Bq : (-1022 <= binade a)%Z).
  { assert (-51 <= binade a)%Z by (apply binade_lower; lra). lia. }
  destruct (round_relative_error a Ha0 Bq) as [Q1 Q2]. fold u in Q1, Q2.
  set (q := round a) in *.
  assert (Hau : 0 <= a * u /\ a * u <= u /\ a * u <= (1 # 2) * a).
  { split; [apply Qmult_le_0_compat; lra|]. split.
    - assert (a * u <= 1 * u) by (apply Qmult_le_compat_r; lra). lra.
    - rewrite (Qmult_comm a u).
      apply Qmult_le_compat_r; lra. }
  destruct Hau as [Au0 [Au1 Au2]].
  (* the product *)
  set (x := a * Nq).
  set (z := q * Nq).
  assert (HuN : 0 <= u * Nq /\ u * Nq <= (1 # 4) * w).
  { split; [apply Qmult_le_0_compat; lra|].
    assert (Nq * Pq * w <= inject_Z (2 ^ 51) * w)
      by (apply Qmult_le_compat_r; lra).
    assert (Nq * Pq * w == Nq)
      by (rewrite <- Qmult_assoc, (Qmult_comm Pq), Hw; ring).
    assert (Nq * u <= inject_Z (2 ^ 51) * w * u)
      by (apply Qmult_le_compat_r; lra).
    assert (inject_Z (2 ^ 51) * w * u == (1 # 4) * w).
    { rewrite <- T51. ring. }
    rewrite (Qmult_comm u). lra. }
  destruct HuN as [UN0 UN1].
  assert (Hz : x - u * Nq <= z /\ z <= x + u * Nq).
  { unfold x, z. split.
    - assert ((a - u) * Nq <= q * Nq) by (apply Qmult_le_compat_r; lra).
      assert ((a - u) * Nq == a * Nq - u * Nq) by ring. lra.
    - assert (q * Nq <= (a + u) * Nq) by (apply Qmult_le_compat_r; lra).
      assert ((a + u) * Nq == a * Nq + u * Nq) by ring. lra. }
  destruct Hz as [Z1 Z2].
  assert (Hx : 0 < x /\ x <= Nq).
  { unfold x. split; [apply Qmult_lt_0_compat; lra|].
    assert (a * Nq <= 1 * Nq) by (apply Qmult_le_compat_r; lra). lra. }
  destruct Hx as [X0 X1].
  assert (Hq52 : pow2 (-52) <= q) by lra.
  assert (Hz52 : pow2 (-52) <= z).
  { unfold z. assert (q * 1 <= q * Nq).
    { rewrite !(Qmult_comm q). apply Qmult_le_compat_r; lra. }
    lra. }
  assert (Hz0 : 0 < z) by (pose proof (pow2_pos (-52)); lra).
  assert (Bz : (-1022 <= binade z)%Z).
  { assert (-52 <= binade z)%Z by (apply binade_lower; lra). lia. }
  destruct (round_relative_error z Hz0 Bz) as [Y1 Y2]. fold u in Y1, Y2.
  set (y := round z) in *.
  assert (Hzu : 0 <= z * u /\ z * u <= 2 * (u * Nq)).
  { split; [apply Qmult_le_0_compat; lra|].
    assert (z <= 2 * Nq) by lra.
    assert (z * u <= 2 * Nq * u) by (apply Qmult_le_compat_r; lra).
    assert (2 * Nq * u == 2 * (u * Nq)) by ring. lra. }
  destruct Hzu as [ZU0 ZU1].
  (* the exact quotient *)
  set (k := (I * N / p)%Z).
  assert (Hk : (k * p <= I * N <= k * p + p - 1)%Z).
  { unfold k. pose proof (Z.mul_div_le (I * N) p Hp).
    pose proof (Z.mul_succ_div_gt (I * N) p Hp). lia. }
  assert (Hexact : exact = k).
  { unfold exact, k. fold I. rewrite Zdiv_Qdiv. apply Qfloor_comp.
    rewrite inject_Z_mult. fold Iq Pq Nq. field. lra. }
  assert (Hxw : x == inject_Z (I * N) * w).
  { unfold x. rewrite Ha, inject_Z_mult. fold Iq Nq. ring. }
  assert (K1 : inject_Z k <= x).
  { rewrite Hxw.
    assert (inject_Z (k * p) * w <= inject_Z (I * N) * w).
    { apply Qmult_le_compat_r; [rewrite <- Zle_Qle; lia | lra]. }
    assert (inject_Z (k * p) * w == inject_Z k).
    { rewrite inject_Z_mult. fold Pq.
      rewrite <- Qmult_assoc, (Qmult_comm Pq), Hw. ring. }
    lra. }
  assert (K2 : x <= inject_Z k + 1 - w).
  { rewrite Hxw.
    assert (inject_Z (I * N) * w <= inject_Z (k * p + p - 1) * w).
    { apply Qmult_le_compat_r; [rewrite <- Zle_Qle; lia | lra]. }
    assert (inject_Z (k * p + p - 1) * w == inject_Z k + 1 - w).
    { unfold Z.sub. rewrite !inject_Z_plus, inject_Z_mult, inject_Z_opp.
      fold Pq. change (inject_Z 1) with 1.
      transitivity (inject_Z k * (w * Pq) + w * Pq - w); [ring|].
      rewrite Hw. ring. }
    lra. }
  assert (E : Qfloor (sourceIndex p N (S i')) = Qfloor y).
  { unfold sourceIndex, Math_floor. rewrite Qfloor_Z. reflexivity. }
  rewrite E, Hexact. split.
  - rewrite <- (Qfloor_Z (k - 1)). apply Qfloor_resp_le.
    unfold Z.sub. rewrite inject_Z_plus, inject_Z_opp.
    change (inject_Z 1) with 1. lra.
  - assert (Qfloor y < k + 1)%Z; [|lia].
    apply Qfloor_lt_Z. rewrite inject_Z_plus. change (inject_Z 1) with 1.
    lra.
Qed.

(** C6 as stated fails when the index is read in exact arithmetic: on
    the quilt document preview byte 7 is payload byte 62 (104), where
    the exact floor(7 / 10 * 90) is 63 (112). *)
Lemma C6_exact_index_is_not_sampled :
  ~ (forall E g s out,
        generateRIPFiles E g s = Some out ->
        (0 < List.length (prtImageData out))%nat ->
        forall i, (i < List.length (pvwImageData out))%nat ->
          nth i (pvwImageData out) 0%Z
          = nth (Z.to_nat
                   (exact_sourceIndex
                      (Z.of_nat (List.length (pvwImageData out)))
                      (Z.of_nat (List.length (prtImageData out))) i))
                (prtImageData out) 0%Z).
Proof.
  intros H. pose proof quilt_run as R.
  destruct (generateRIPFiles ref_engine quilt_geometry quilt_settings)
    as [out|] eqn:Hout; [|discriminate R].
  cbn [option_map] in R. apply Some_inj in R.
  assert (LN : List.length (prtImageData out) = 90%nat) by congruence.
  assert (Lp : List.length (pvwImageData out) = 10%nat) by congruence.
  assert (B7 : nth 7 (pvwImageData out) 0%Z = 104%Z) by congruence.
  assert (B63 : nth 63 (prtImageData out) 0%Z = 112%Z) by congruence.
  clear R.
  specialize (H ref_engine quilt_geometry quilt_settings out Hout).
  rewrite LN, Lp in H.
  specialize (H ltac:(lia) 7%nat ltac:(lia)).
  change (Z.to_nat (exact_sourceIndex (Z.of_nat 10) (Z.of_nat 90) 7))
    with 63%nat in H.
  rewrite B7, B63 in H. discriminate H.
Qed.

(** C6 (amended): for every preview index i (so the preview is not
    empty) and a non-empty primary payload, the sampled index
    floor(i / previewByteCount * primaryByteCount), computed as the
    source does in doubles, lies in [0, primaryByteCount), and the
    preview byte at i is the primary byte at that index; against the
    same expression in exact arithmetic, when the product of the two
    lengths is at most 2^51, the sampled index is the exact floor or
    one less. *)
Theorem C6_preview_resampling E g s out :
  generateRIPFiles E g s = Some out ->
  (0 < List.length (prtImageData out))%nat ->
  forall i, (i < List.length (pvwImageData out))%nat ->
    let previewByteCount := Z.of_nat (List.length (pvwImageData out)) in
    let primaryByteCount := Z.of_nat (List.length (prtImageData out)) in
    let sampled :=
      Qfloor (fmul (fdiv (inject_Z (Z.of_nat i)) (inject_Z previewByteCount))
                   (inject_Z primaryByteCount)) in
    (0 <= sampled < primaryByteCount)%Z
    /\ nth i (pvwImageData out) 0%Z
       = nth (Z.to_nat sampled) (prtImageData out) 0%Z
    /\ ((primaryByteCount * previewByteCount <= 2 ^ 51)%Z ->
        (exact_sourceIndex previewByteCount primaryByteCount i - 1
         <= sampled
         <= exact_sourceIndex previewByteCount primaryByteCount i)%Z).
Proof.
  intros Hout Hpos i Hi previewByteCount primaryByteCount sampled.
  pose proof (generateRIPFiles_inv _ _ _ _ Hout) as G.
  pose proof (prt_length _ _ _ _ G) as LN.
  pose proof (pvw_length _ _ _ _ G) as Lp.
  pose proof (gen_prt_size _ _ _ _ G) as BN.
  pose proof (gen_pvw_size _ _ _ _ G) as Bp.
  assert (Hs : sampled
               = Qfloor (sourceIndex (pvwImageDataSize g s)
                                     (compressedImageSize g s) i)).
  { unfold sampled, previewByteCount, primaryByteCount.
    rewrite LN, Lp. unfold sourceIndex, Math_floor.
    now rewrite Qfloor_Z. }
  assert (R : (0 <= sampled < primaryByteCount)%Z).
  { rewrite Hs. unfold primaryByteCount. rewrite LN.
    apply sourceIndex_range; clear - Hpos Hi LN Lp BN Bp; lia. }
  split; [exact R|]. split.
  - rewrite (pvw_nth _ _ _ _ G i Hi). unfold pvw_byte.
    assert (Hidx : sourceIndex (pvwImageDataSize g s) (compressedImageSize g s) i
                   = inject_Z sampled)
      by (rewrite Hs; unfold sourceIndex, Math_floor; now rewrite Qfloor_Z).
    rewrite Hidx, load_in_range by exact R.
    cbn [or_zero]. rewrite ToUint8_Z.
    assert (Hlt : (Z.to_nat sampled < List.length (prtImageData out))%nat)
      by (clear - R; unfold primaryByteCount in R; lia).
    rewrite (prt_nth _ _ _ _ G _ Hlt).
    apply Z.mod_small. unfold prt_byte. apply ToUint8_range.
  - intros Hprod. rewrite Hs. unfold previewByteCount, primaryByteCount in *.
    rewrite LN, Lp in *.
    apply sourceIndex_near_exact; clear - Hpos Hi LN Lp Hprod; lia.
Qed.

Lemma tiny_pvwImageDataSize :
  pvwImageDataSize tiny_geometry tiny_settings = 14%Z.
Proof. vm_compute. reflexivity. Qed.

(** Preview byte 13 of the tiny document is primary byte 18. *)
Lemma C6_preview_resampling_witness :
  exists out,
    generateRIPFiles ref_engine tiny_geometry tiny_settings = Some out
    /\ (0 < List.length (prtImageData out))%nat
    /\ (13 < List.length (pvwImageData out))%nat
    /\ nth 13 (pvwImageData out) 0%Z = nth 18 (prtImageData out) 0%Z.
Proof.
  destruct tiny_generates as [out Hout]. exists out.
  pose proof (generateRIPFiles_inv _ _ _ _ Hout) as G.
  pose proof (prt_length _ _ _ _ G) as LN.
  pose proof (pvw_length _ _ _ _ G) as Lp.
  rewrite tiny_compressedImageSize in LN.
  rewrite tiny_pvwImageDataSize in Lp.
  assert (H0 : (0 < List.length (prtImageData out))%nat) by (clear - LN; lia).
  assert (H13 : (13 < List.length (pvwImageData out))%nat)
    by (clear - Lp; lia).
  split; [exact Hout|]. split; [exact H0|]. split; [exact H13|].
  destruct (C6_preview_resampling ref_engine tiny_geometry tiny_settings out
              Hout H0 13%nat H13) as [_ [Hb _]].
  rewrite LN, Lp in Hb. exact Hb.
Defined.

(** ** The control block *)

Lemma firingDelay_table : firingDelay_table_ok = true.
Proof. vm_compute. reflexivity. Qed.

Lemma firingDelay_nozzle n :
  (0 <= n < 1280)%Z ->
  Qfloor (fmul (fdiv (inject_Z n) 1280) 255) = (n * 255 / 1280)%Z.
Proof.
  intros Hn. pose proof firingDelay_table as T.
  unfold firingDelay_table_ok in T. rewrite forallb_forall in T.
  apply Z.eqb_eq, T, in_map_iff. exists (Z.to_nat n).
  split; [lia | apply in_seq; lia].
Qed.

Lemma firingDelay_exact i :
  firingDelay i = inject_Z ((Z.of_nat i mod 1280) * 255 / 1280).
Proof.
  unfold firingDelay, Math_floor, fdiv.
  assert (Hm : (0 <= Z.of_nat i mod 1280 < 1280)%Z)
    by (apply Z.mod_pos_bound; lia).
  rewrite (round_proper _ (inject_Z (Z.of_nat i mod 1280) / 1280)).
  - f_equal. apply (firingDelay_nozzle _ Hm).
  - change 1280 with (inject_Z 1280) at 1.
    rewrite frem_Z by lia. reflexivity.
Qed.

Lemma control_value x v :
  x == inject_Z v -> (0 <= v)%Z -> ToUint8 (frem x 256) = (v mod 256)%Z.
Proof.
  intros Hx Hv. unfold ToUint8.
  assert (E : frem x 256 == inject_Z (v mod 256)).
  { rewrite <- (frem_Z v 256) by lia. unfold frem.
    rewrite (Qtrunc_proper (x / 256) (inject_Z v / inject_Z 256))
      by (now rewrite Hx).
    rewrite Hx. reflexivity. }
  rewrite (Qtrunc_proper _ _ E), Qtrunc_Z. apply Z.mod_mod. lia.
Qed.

Lemma ctl_byte_BlackWhite E g s i :
  colorMode s = BlackWhite ->
  ctl_byte E g s i
  = (((Z.of_nat i mod 1280) * 255 / 1280 + 255) mod 256)%Z.
Proof.
  intros Hc. unfold ctl_byte, control, dropletSize. rewrite Hc. cbn [fst].
  rewrite firingDelay_exact.
  assert (Hm : (0 <= Z.of_nat i mod 1280 < 1280)%Z)
    by (apply Z.mod_pos_bound; lia).
  assert (Hfd : (0 <= Z.of_nat i mod 1280 * 255 / 1280 < 255)%Z).
  { split; [apply Z.div_pos; lia | apply Z.div_lt_upper_bound; lia]. }
  apply control_value; [|lia].
  change 255 with (inject_Z 255). apply fadd_Z. lia.
Qed.

Lemma round_le_Z x n :
  (Z.abs n <= 2 ^ 53)%Z -> x <= inject_Z n -> round x <= inject_Z n.
Proof.
  intros Hn H. apply Qle_trans with (round (inject_Z n));
    [apply round_mono, H | rewrite round_Z by exact Hn; apply Qle_refl].
Qed.

Lemma round_ge_Z x n :
  (Z.abs n <= 2 ^ 53)%Z -> inject_Z n <= x -> inject_Z n <= round x.
Proof.
  intros Hn H. apply Qle_trans with (round (inject_Z n));
    [rewrite round_Z by exact Hn; apply Qle_refl | apply round_mono, H].
Qed.

Lemma dropletSize_range r :
  0 <= r -> r < 1 ->
  (128 <= Qfloor (fadd 128 (fmul r 127)) <= 255)%Z.
Proof.
  intros H0 H1.
  assert (Hm : 0 <= fmul r 127 /\ fmul r 127 <= 127).
  { unfold fmul. split; [apply round_nonneg; lra|].
    apply (round_le_Z _ 127); [simpl; lia|]. change (inject_Z 127) with 127.
    lra. }
  destruct Hm as [Hm0 Hm1].
  assert (Ha : 128 <= fadd 128 (fmul r 127) /\ fadd 128 (fmul r 127) <= 255).
  { unfold fadd. split.
    - apply (round_ge_Z _ 128); [simpl; lia|]. change (inject_Z 128) with 128.
      lra.
    - apply (round_le_Z _ 255); [simpl; lia|]. change (inject_Z 255) with 255.
      lra. }
  destruct Ha as [Ha0 Ha1]. split.
  - change 128%Z with (Qfloor 128). apply Qfloor_resp_le, Ha0.
  - change 255%Z with (Qfloor 255). apply Qfloor_resp_le, Ha1.
Qed.

Lemma ctl_byte_jitter E g s i :
  colorMode s <> BlackWhite ->
  (forall k, 0 <= Math_random E k /\ Math_random E k < 1) ->
  ctl_byte E g s i
  = (((Z.of_nat i mod 1280) * 255 / 1280
      + Qfloor (fadd 128
                  (fmul (Math_random E
                           (Z.to_nat (compressedImageSize g s) + i)) 127)))
     mod 256)%Z.
Proof.
  intros Hc Hr. unfold ctl_byte, control, dropletSize.
  rewrite (draws_jitter s Hc), !Nat.mul_1_l.
  set (k := (Z.to_nat (compressedImageSize g s) + i)%nat).
  destruct (Hr k) as [Hr0 Hr1].
  pose proof (dropletSize_range _ Hr0 Hr1) as Hd.
  assert (Hm : (0 <= Z.of_nat i mod 1280 < 1280)%Z)
    by (apply Z.mod_pos_bound; lia).
  assert (Hfd : (0 <= Z.of_nat i mod 1280 * 255 / 1280 < 255)%Z).
  { split; [apply Z.div_pos; lia | apply Z.div_lt_upper_bound; lia]. }
  assert (V : forall d, d = Math_floor (fadd 128 (fmul (Math_random E k) 127)) ->
            ToUint8 (frem (fadd (firingDelay i) d) 256)
            = ((Z.of_nat i mod 1280 * 255 / 1280
                + Qfloor (fadd 128 (fmul (Math_random E k) 127))) mod 256)%Z).
  { intros d ->. rewrite firingDelay_exact.
    apply control_value; [|lia]. unfold Math_floor. apply fadd_Z. lia. }
  destruct (colorMode s); try congruence; cbn [fst]; apply V; reflexivity.
Qed.

(** One tenth of a payload length: N * 0.1 in doubles has the integer
    part of N / 10, for every length up to 2^48. *)
Lemma controlDataSize_exact N :
  (0 <= N <= 2 ^ 48)%Z -> controlDataSize N = (N / 10)%Z.
Proof.
  intros HN. unfold controlDataSize, fmul.
  assert (Hc : lit (1 # 10) == (1 # 10) * (1 + pow2 (-54)))
    by (vm_compute; reflexivity).
  assert (Hp : pow2 (-54) * pow2 48 == (1 # 64)) by (vm_compute; reflexivity).
  pose proof (pow2_pos (-54)) as Hp0.
  set (M := (N / 10)%Z).
  assert (HM : (10 * M <= N < 10 * M + 10)%Z).
  { unfold M. pose proof (Z.mul_div_le N 10 ltac:(lia)).
    pose proof (Z.mul_succ_div_gt N 10 ltac:(lia)). lia. }
  assert (HMq : 10 * inject_Z M <= inject_Z N
                /\ inject_Z N <= 10 * inject_Z M + 9).
  { change 10 with (inject_Z 10). change 9 with (inject_Z 9).
    rewrite <- !inject_Z_mult, <- inject_Z_plus, <- !Zle_Qle. lia. }
  assert (HNq : 0 <= inject_Z N /\ inject_Z N <= pow2 48).
  { split; [apply inject_Z_nonneg; lia|].
    rewrite pow2_Z by lia. rewrite <- Zle_Qle. lia. }
  set (x := inject_Z N * lit (1 # 10)).
  assert (Hx : inject_Z M <= x /\ x <= inject_Z (32 * M + 31) * pow2 (-5)).
  { unfold x. rewrite Hc, inject_Z_plus, inject_Z_mult.
    change (inject_Z 32) with 32. change (inject_Z 31) with 31.
    change (pow2 (-5)) with (1 # 32).
    assert (Hprod : inject_Z N * pow2 (-54) <= (1 # 64)).
    { rewrite <- Hp. rewrite (Qmult_comm (pow2 (-54))).
      apply Qmult_le_compat_r; lra. }
    assert (Hprod0 : 0 <= inject_Z N * pow2 (-54))
      by (apply Qmult_le_0_compat; lra).
    destruct HMq, HNq. split; nra. }
  destruct Hx as [Hx0 Hx1].
  assert (Hr0 : inject_Z M <= round x)
    by (apply round_ge_Z; [lia | exact Hx0]).
  assert (Hr1 : round x <= inject_Z (32 * M + 31) * pow2 (-5)).
  { apply Qle_trans with (round (inject_Z (32 * M + 31) * pow2 (-5)));
      [apply round_mono, Hx1|].
    rewrite round_repr by lia. apply Qle_refl. }
  apply Z.le_antisymm.
  - assert (Qfloor (round x) < M + 1)%Z; [|lia].
    apply Qfloor_lt_Z. eapply Qle_lt_trans; [exact Hr1|].
    rewrite !inject_Z_plus, inject_Z_mult.
    change (inject_Z 32) with 32. change (inject_Z 31) with 31.
    change (inject_Z 1) with 1. change (pow2 (-5)) with (1 # 32). lra.
  - rewrite <- (Qfloor_Z M). apply Qfloor_resp_le, Hr0.
Qed.

(** C5: the control block has floor(primaryPayloadLength * 0.1) bytes
    (the product in doubles; it is the integer part of a tenth of the
    length for every length up to 2^48); byte i is
    (firingDelay + dropletSize) mod 256 with nozzleIndex = i mod 1280
    and firingDelay = floor(nozzleIndex / 1280 * 255), which the doubles
    compute exactly; in BlackWhite mode dropletSize is 255 and the block
    is the same for every engine, no random draw being made; otherwise
    dropletSize = floor(128 + r * 127) with r the draw made for that
    byte, the draws of the payload loop having come first. *)
Theorem C5_control_data E g s out :
  generateRIPFiles E g s = Some out ->
  let N := Z.of_nat (List.length (prtImageData out)) in
  Z.of_nat (List.length (controlData out))
  = Qfloor (fmul (inject_Z N) (lit (1 # 10)))
  /\ ((N <= 2 ^ 48)%Z ->
      Z.of_nat (List.length (controlData out)) = (N / 10)%Z)
  /\ (forall i, (i < List.length (controlData out))%nat ->
        let nozzleIndex := (Z.of_nat i mod 1280)%Z in
        let firingDelay :=
          Qfloor (fmul (fdiv (inject_Z nozzleIndex) 1280) 255) in
        let b := nth i (controlData out) 0%Z in
        firingDelay = (nozzleIndex * 255 / 1280)%Z
        /\ (colorMode s = BlackWhite ->
            b = ((firingDelay + 255) mod 256)%Z)
        /\ (colorMode s <> BlackWhite ->
            (forall k, 0 <= Math_random E k /\ Math_random E k < 1) ->
            let r := Math_random E (List.length (prtImageData out) + i) in
            let dropletSize := Qfloor (fadd 128 (fmul r 127)) in
            b = ((firingDelay + dropletSize) mod 256)%Z))
  /\ (colorMode s = BlackWhite ->
      forall E' out',
        generateRIPFiles E' g s = Some out' ->
        controlData out' = controlData out).
Proof.
  intros Hout N.
  pose proof (generateRIPFiles_inv _ _ _ _ Hout) as G.
  pose proof (prt_length _ _ _ _ G) as LN.
  pose proof (ctl_length _ _ _ _ G) as Lc.
  pose proof (gen_prt_size _ _ _ _ G) as BN.
  assert (HN : N = compressedImageSize g s) by exact LN.
  split; [rewrite Lc, HN; reflexivity|].
  split; [intros H48; rewrite Lc, HN; apply controlDataSize_exact;
          rewrite <- HN; clear - H48 BN HN; lia|].
  split.
  - intros i Hi nozzleIndex firingDelay b.
    assert (Hm : (0 <= nozzleIndex < 1280)%Z)
      by (apply Z.mod_pos_bound; lia).
    pose proof (firingDelay_nozzle _ Hm) as Hfd. fold firingDelay in Hfd.
    split; [exact Hfd|].
    subst b. rewrite (ctl_nth _ _ _ _ G i Hi). split.
    + intros Hc. rewrite (ctl_byte_BlackWhite _ _ _ _ Hc), Hfd. reflexivity.
    + intros Hc Hr r dropletSize.
      rewrite (ctl_byte_jitter _ _ _ _ Hc Hr), Hfd.
      subst dropletSize r. do 6 f_equal. clear - LN BN. lia.
  - intros Hc E' out' Hout'.
    pose proof (generateRIPFiles_inv _ _ _ _ Hout') as G'.
    rewrite (gen_ctl _ _ _ _ G), (gen_ctl _ _ _ _ G').
    apply map_ext. intros i.
    now rewrite !(ctl_byte_BlackWhite _ _ _ _ Hc).
Qed.

(** The tiny CMYK document: 20 payload bytes, 2 control bytes. *)
Lemma C5_control_data_witness :
  exists out,
    generateRIPFiles ref_engine tiny_geometry tiny_settings = Some out
    /\ Z.of_nat (List.length (controlData out)) = 2%Z.
Proof.
  destruct tiny_generates as [out Hout]. exists out.
  split; [exact Hout|].
  destruct (C5_control_data ref_engine tiny_geometry tiny_settings out Hout)
    as [HL _].
  rewrite HL.
  rewrite (prt_length _ _ _ _ (generateRIPFiles_inv _ _ _ _ Hout)).
  vm_compute. reflexivity.
Defined.

(** * Further properties of the synthesizer *)

(** ** The buffers hold bytes *)

Lemma TextEncoder_encode_bytes s : Forall is_byte (TextEncoder_encode s).
Proof.
  unfold TextEncoder_encode. apply Forall_map, Forall_forall. intros c _.
  pose proof (N_ascii_bounded c). unfold is_byte. lia.
Qed.

Lemma map_ToUint8_bytes (f : nat -> Z) l :
  (forall i, is_byte (f i)) -> Forall is_byte (map f l).
Proof. intros H. apply Forall_map, Forall_forall. intros; apply H. Qed.

(** X1: every element of the two buffers a call returns is a byte
    (0 .. 255): the headers are encoded text, and the payload, the
    preview and the control block are typed-array elements. *)
Theorem generated_buffers_are_bytes E g s out :
  generateRIPFiles E g s = Some out ->
  Forall is_byte (prtData out) /\ Forall is_byte (pvwData out).
Proof.
  intros H. apply generateRIPFiles_inv in H.
  rewrite (gen_prtData _ _ _ _ H), (gen_pvwData _ _ _ _ H).
  rewrite (gen_prtHeader _ _ _ _ H), (gen_pvwHeader _ _ _ _ H).
  rewrite (gen_pvw _ _ _ _ H), (gen_ctl _ _ _ _ H), (gen_prt _ _ _ _ H).
  split.
  - apply Forall_app; split; [apply TextEncoder_encode_bytes|].
    apply Forall_app; split;
      apply map_ToUint8_bytes; intros i; apply ToUint8_range.
  - apply Forall_app; split; [apply TextEncoder_encode_bytes|].
    apply map_ToUint8_bytes; intros i; apply ToUint8_range.
Qed.

Lemma generated_buffers_are_bytes_witness :
  exists out,
    generateRIPFiles ref_engine tiny_geometry tiny_settings = Some out
    /\ Forall is_byte (prtData out) /\ Forall is_byte (pvwData out).
Proof.
  destruct tiny_generates as [out H]. exists out. split; [exact H|].
  exact (generated_buffers_are_bytes _ _ _ _ H).
Defined.

(** ** Black-and-white runs make no random draw *)

Lemma generateRIPFiles_eq E g s :
  generateRIPFiles E g s
  = let N := compressedImageSize g s in
    bind (Uint8Array_new N) (fun _ =>
    bind (Uint8Array_new (pvwImageDataSize g s)) (fun _ =>
    bind (Uint8Array_new (controlDataSize N)) (fun _ =>
      let prt := map (prt_byte E g s) (seq 0 (Z.to_nat N)) in
      let pvw := map (pvw_byte g s prt)
                     (seq 0 (Z.to_nat (pvwImageDataSize g s))) in
      let ctl := map (ctl_byte E g s)
                     (seq 0 (Z.to_nat (controlDataSize N))) in
      do prtResult <- assemble_prt (encode_prtHeader E g s) prt ctl;
      do pvwResult <- assemble_pvw (encode_pvwHeader E g s) pvw;
      Some {| prtHeader := encode_prtHeader E g s;
              pvwHeader := encode_pvwHeader E g s;
              prtImageData := prt;
              pvwImageData := pvw;
              controlData := ctl;
              prtData := prtResult;
              pvwData := pvwResult |}))).
Proof.
  unfold generateRIPFiles. cbv zeta.
  destruct (Uint8Array_new (compressedImageSize g s)) as [a0|] eqn:A;
    [|reflexivity].
  apply Uint8Array_new_Some in A. destruct A as [_ ->].
  cbn [bind]. rewrite fill_prtImageData_eq.
  destruct (Uint8Array_new (pvwImageDataSize g s)) as [b0|] eqn:B;
    [|reflexivity].
  apply Uint8Array_new_Some in B. destruct B as [_ ->].
  cbn [bind]. rewrite fill_pvwImageData_eq.
  destruct (Uint8Array_new (controlDataSize (compressedImageSize g s)))
    as [c0|] eqn:C; [|reflexivity].
  apply Uint8Array_new_Some in C. destruct C as [_ ->].
  cbn [bind]. rewrite fill_controlData_eq. reflexivity.
Qed.

(** X2: in BlackWhite mode the whole call, its result or its failure,
    is the same for any stream of random draws: no draw reaches the
    payload, the preview, the control block or the headers. *)
Theorem blackwhite_run_ignores_Math_random E g s r :
  colorMode s = BlackWhite ->
  generateRIPFiles (with_Math_random E r) g s = generateRIPFiles E g s.
Proof.
  intros Hbw. rewrite !generateRIPFiles_eq. cbv zeta.
  assert (Hp : forall l, map (prt_byte (with_Math_random E r) g s) l
                         = map (prt_byte E g s) l).
  { intros l. apply map_ext. intros i.
    rewrite !prt_byte_BlackWhite by exact Hbw. reflexivity. }
  assert (Hc : forall l, map (ctl_byte (with_Math_random E r) g s) l
                         = map (ctl_byte E g s) l).
  { intros l. apply map_ext. intros i.
    rewrite !ctl_byte_BlackWhite by exact Hbw. reflexivity. }
  rewrite !Hp, !Hc. reflexivity.
Qed.

Lemma blackwhite_run_ignores_Math_random_witness :
  colorMode letter_settings = BlackWhite
  /\ generateRIPFiles (with_Math_random ref_engine (fun _ => 1 # 2))
       letter_geometry letter_settings
     = generateRIPFiles ref_engine letter_geometry letter_settings.
Proof.
  split; [reflexivity|].
  apply (blackwhite_run_ignores_Math_random ref_engine letter_geometry
           letter_settings (fun _ => 1 # 2)).
  reflexivity.
Defined.

(** ** The dimensions and the length of the preview *)

Lemma preview_ratio_range d :
  (0 < d <= 2 ^ 53)%Z ->
  let ratio := fdiv (num (Z.min d 300)) (num d) in
  pow2 (-53) <= ratio /\ ratio <= 1 /\ ((d <= 300)%Z -> ratio == 1).
Proof.
  intros Hd ratio.
  assert (Hpd : num (Z.min d 300) == inject_Z (Z.min d 300))
    by (apply num_safe; lia).
  assert (Hdq : num d == inject_Z d) by (apply num_safe; lia).
  assert (Hd0 : 0 < inject_Z d)
    by (change 0 with (inject_Z 0); rewrite <- Zlt_Qlt; lia).
  assert (Hd53 : inject_Z d <= inject_Z (2 ^ 53)) by (rewrite <- Zle_Qle; lia).
  assert (Hp1 : 1 <= inject_Z (Z.min d 300))
    by (change 1 with (inject_Z 1); rewrite <- Zle_Qle; lia).
  assert (Hpd_le : inject_Z (Z.min d 300) <= inject_Z d)
    by (rewrite <- Zle_Qle; lia).
  unfold ratio, fdiv.
  rewrite (round_proper _ (inject_Z (Z.min d 300) / inject_Z d))
    by (rewrite Hpd, Hdq; reflexivity).
  split; [|split].
  - apply Qle_trans with (round (inject_Z 1 * pow2 (-53))).
    + rewrite round_repr by (simpl; lia). change (inject_Z 1) with 1.
      rewrite Qmult_1_l. apply Qle_refl.
    + apply round_mono. apply Qle_shift_div_l; [exact Hd0|].
      assert (P : pow2 (-53) * inject_Z (2 ^ 53) == 1) by (vm_compute; reflexivity).
      pose proof (pow2_pos (-53)) as P0. change (inject_Z 1) with 1.
      revert P P0 Hd53 Hp1.
      generalize (pow2 (-53)) (inject_Z (2 ^ 53)) (inject_Z d)
        (inject_Z (Z.min d 300)).
      intros p t x y; intros. nra.
  - apply (round_le_Z _ 1); [simpl; lia|]. change (inject_Z 1) with 1.
    apply Qle_shift_div_r; [exact Hd0|]. lra.
  - intros H300. replace (Z.min d 300) with d by lia.
    rewrite (round_proper _ (inject_Z 1)).
    + change 1 with (inject_Z 1). apply round_Z. simpl; lia.
    + change (inject_Z 1) with 1. field. lra.
Qed.

Lemma preview_dimension_range W d :
  (0 < d <= 2 ^ 53)%Z -> (0 < W <= 2 ^ 53)%Z ->
  let p := Qceiling (fmul (num W) (fdiv (num (Z.min d 300)) (num d))) in
  (1 <= p <= W)%Z /\ ((d <= 300)%Z -> p = W).
Proof.
  intros Hd HW p.
  destruct (preview_ratio_range d Hd) as [R0 [R1 R300]].
  set (ratio := fdiv (num (Z.min d 300)) (num d)) in *.
  assert (HWq : num W == inject_Z W) by (apply num_safe; lia).
  assert (HW1 : 1 <= inject_Z W)
    by (change 1 with (inject_Z 1); rewrite <- Zle_Qle; lia).
  pose proof (pow2_pos (-53)) as P0.
  assert (Hlo : pow2 (-53) <= fmul (num W) ratio).
  { unfold fmul. apply Qle_trans with (round (inject_Z 1 * pow2 (-53))).
    - rewrite round_repr by (simpl; lia). change (inject_Z 1) with 1.
      rewrite Qmult_1_l. apply Qle_refl.
    - apply round_mono. rewrite HWq. change (inject_Z 1) with 1.
      revert R0 HW1 P0. generalize (pow2 (-53)) (inject_Z W) ratio.
      intros a b c; intros. nra. }
  assert (Hhi : fmul (num W) ratio <= inject_Z W).
  { unfold fmul. apply round_le_Z; [lia|]. rewrite HWq.
    revert R0 R1 HW1 P0. generalize (pow2 (-53)) (inject_Z W) ratio.
    intros a b c; intros. nra. }
  split; [split|].
  - pose proof (Qle_ceiling (fmul (num W) ratio)) as C. fold p in C.
    assert (0 < inject_Z p) by lra.
    change 0 with (inject_Z 0) in H. rewrite <- Zlt_Qlt in H. lia.
  - unfold p. rewrite <- (Qceiling_Z W) at 2. apply Qceiling_resp_le, Hhi.
  - intros H300. unfold p. rewrite <- (Qceiling_Z W) at 2.
    apply Qceiling_comp. unfold fmul.
    rewrite (round_proper _ (inject_Z W))
      by (rewrite HWq, (R300 H300); ring).
    apply round_Z. lia.
Qed.

(** [n * 0.9] in doubles has the integer part of 9n/10. *)
Lemma nine_tenths_exact n :
  (0 <= n <= 2 ^ 48)%Z ->
  Qfloor (fmul (inject_Z n) (lit (9 # 10))) = (9 * n / 10)%Z.
Proof.
  intros Hn. unfold fmul.
  assert (Hc : lit (9 # 10) == (9 # 10) + (1 # 10) * pow2 (-52))
    by (vm_compute; reflexivity).
  assert (Hp : pow2 (-52) * pow2 48 == (1 # 16)) by (vm_compute; reflexivity).
  pose proof (pow2_pos (-52)) as Hp0.
  set (M := (9 * n / 10)%Z).
  assert (HM : (10 * M <= 9 * n < 10 * M + 10)%Z).
  { unfold M. pose proof (Z.mul_div_le (9 * n) 10 ltac:(lia)).
    pose proof (Z.mul_succ_div_gt (9 * n) 10 ltac:(lia)). lia. }
  assert (HMq : 10 * inject_Z M <= 9 * inject_Z n
                /\ 9 * inject_Z n <= 10 * inject_Z M + 9).
  { change 10 with (inject_Z 10). change 9 with (inject_Z 9).
    rewrite <- !inject_Z_mult, <- inject_Z_plus, <- !Zle_Qle. lia. }
  assert (Hnq : 0 <= inject_Z n /\ inject_Z n <= pow2 48).
  { split; [apply inject_Z_nonneg; lia|].
    rewrite pow2_Z by lia. rewrite <- Zle_Qle. lia. }
  set (x := inject_Z n * lit (9 # 10)).
  assert (Hx : inject_Z M <= x /\ x <= inject_Z (32 * M + 31) * pow2 (-5)).
  { unfold x. rewrite Hc, inject_Z_plus, inject_Z_mult.
    change (inject_Z 32) with 32. change (inject_Z 31) with 31.
    change (pow2 (-5)) with (1 # 32).
    assert (Hprod : inject_Z n * pow2 (-52) <= (1 # 16)).
    { rewrite <- Hp. rewrite (Qmult_comm (pow2 (-52))).
      apply Qmult_le_compat_r; lra. }
    assert (Hprod0 : 0 <= inject_Z n * pow2 (-52))
      by (apply Qmult_le_0_compat; lra).
    destruct HMq, Hnq. split; nra. }
  destruct Hx as [Hx0 Hx1].
  assert (Hr0 : inject_Z M <= round x)
    by (apply round_ge_Z; [lia | exact Hx0]).
  assert (Hr1 : round x <= inject_Z (32 * M + 31) * pow2 (-5)).
  { apply Qle_trans with (round (inject_Z (32 * M + 31) * pow2 (-5)));
      [apply round_mono, Hx1|].
    rewrite round_repr by lia. apply Qle_refl. }
  apply Z.le_antisymm.
  - assert (Qfloor (round x) < M + 1)%Z; [|lia].
    apply Qfloor_lt_Z. eapply Qle_lt_trans; [exact Hr1|].
    rewrite !inject_Z_plus, inject_Z_mult.
    change (inject_Z 32) with 32. change (inject_Z 31) with 31.
    change (inject_Z 1) with 1. change (pow2 (-5)) with (1 # 32). lra.
  - rewrite <- (Qfloor_Z M). apply Qfloor_resp_le, Hr0.
Qed.

Lemma product4_exact a b c d x y z w :
  (0 < a)%Z -> (0 < b)%Z -> (0 < c)%Z -> (0 < d)%Z ->
  (a * b * c * d <= 2 ^ 53)%Z ->
  x == inject_Z a -> y == inject_Z b -> z == inject_Z c -> w == inject_Z d ->
  fmul (fmul (fmul x y) z) w == inject_Z (a * b * c * d).
Proof.
  intros Ha Hb Hc Hd Hlt Hx Hy Hz Hw.
  assert (P1 : (0 < a * b)%Z) by (apply Z.mul_pos_pos; assumption).
  assert (P2 : (0 < a * b * c)%Z) by (apply Z.mul_pos_pos; assumption).
  assert (H3 : (a * b <= a * b * c)%Z) by (apply Z.le_mul_diag_r; lia).
  assert (H4 : (a * b * c <= a * b * c * d)%Z) by (apply Z.le_mul_diag_r; lia).
  apply fmul_Z; [lia | | exact Hw].
  apply fmul_Z; [lia | | exact Hz].
  apply fmul_Z; [lia | exact Hx | exact Hy].
Qed.

Lemma pvwImageDataSize_exact g s :
  (0 < dpi s <= 2 ^ 53)%Z ->
  (0 < pageWidth g <= 2 ^ 53)%Z -> (0 < pageHeight g <= 2 ^ 53)%Z ->
  (0 < numPages g)%Z ->
  (previewWidth g s * previewHeight g s * bytesPerPixel s * numPages g
   <= 2 ^ 48)%Z ->
  pvwImageDataSize g s
  = (9 * (previewWidth g s * previewHeight g s * bytesPerPixel s * numPages g)
     / 10)%Z.
Proof.
  intros Hd HW HH HP HM.
  destruct (preview_dimension_range (pageWidth g) (dpi s) Hd HW) as [[Hw1 _] _].
  destruct (preview_dimension_range (pageHeight g) (dpi s) Hd HH) as [[Hh1 _] _].
  fold (previewDPI s) in Hw1, Hh1.
  fold (previewWidth g s) in Hw1. fold (previewHeight g s) in Hh1.
  pose proof (bytesPerPixel_pos s) as Hb.
  set (pw := previewWidth g s) in *. set (ph := previewHeight g s) in *.
  set (b := bytesPerPixel s) in *. set (P := numPages g) in *.
  assert (P1 : (0 < pw * ph)%Z) by (apply Z.mul_pos_pos; lia).
  assert (P2 : (0 < pw * ph * b)%Z) by (apply Z.mul_pos_pos; lia).
  assert (H5 : (P <= pw * ph * b * P)%Z)
    by (rewrite (Z.mul_comm _ P); apply Z.le_mul_diag_r; lia).
  assert (HQ : fmul (fmul (fmul (inject_Z pw) (inject_Z ph)) (inject_Z b))
                    (num P)
               == inject_Z (pw * ph * b * P)).
  { apply product4_exact; try lia; try reflexivity. apply num_safe. lia. }
  unfold pvwImageDataSize. fold pw ph b P.
  unfold fmul at 1.
  rewrite (round_proper _ (inject_Z (pw * ph * b * P) * lit (9 # 10)))
    by (rewrite HQ; reflexivity).
  apply nine_tenths_exact.
  split; [|exact HM].
  apply Z.lt_le_incl, Z.mul_pos_pos; lia.
Qed.

(** X3: for a positive resolution and positive page dimensions (all
    within 2^53) the preview is at least 1 x 1 and never larger than
    the page, and at 300 DPI or below it has the page's dimensions. *)
Theorem preview_dimensions_within_page g s :
  (0 < dpi s <= 2 ^ 53)%Z ->
  (0 < pageWidth g <= 2 ^ 53)%Z -> (0 < pageHeight g <= 2 ^ 53)%Z ->
  (1 <= previewWidth g s <= pageWidth g)%Z
  /\ (1 <= previewHeight g s <= pageHeight g)%Z
  /\ ((dpi s <= 300)%Z ->
      previewWidth g s = pageWidth g /\ previewHeight g s = pageHeight g).
Proof.
  intros Hd HW HH.
  destruct (preview_dimension_range (pageWidth g) (dpi s) Hd HW) as [Hw Hw'].
  destruct (preview_dimension_range (pageHeight g) (dpi s) Hd HH) as [Hh Hh'].
  split; [exact Hw|]. split; [exact Hh|].
  intros H300. split; [exact (Hw' H300) | exact (Hh' H300)].
Qed.

Lemma preview_dimensions_within_page_witness :
  (1 <= previewWidth letter_geometry letter_settings
     <= pageWidth letter_geometry)%Z
  /\ (1 <= previewHeight letter_geometry letter_settings
        <= pageHeight letter_geometry)%Z.
Proof.
  destruct (preview_dimensions_within_page letter_geometry letter_settings)
    as [H1 [H2 _]];
    [ cbn [dpi letter_settings]; lia
    | cbn [pageWidth letter_geometry]; lia
    | cbn [pageHeight letter_geometry]; lia |].
  split; assumption.
Defined.

Lemma pvwImageDataSize_with_compressionLevel g s c :
  pvwImageDataSize g (with_compressionLevel s c) = pvwImageDataSize g s.
Proof.
  unfold pvwImageDataSize, previewWidth, previewHeight, previewDPI,
    bytesPerPixel, with_compressionLevel.
  cbn [dpi colorMode]. reflexivity.
Qed.

(** X4: the preview has exactly floor(9 * previewWidth * previewHeight
    * bytesPerPixel * pages / 10) bytes (integer arithmetic) when that
    product is at most 2^48 (the multiplication by 0.9 in doubles loses
    nothing), and the length does not depend on the compression
    level. *)
Theorem preview_length_exact E g s out :
  (0 < dpi s <= 2 ^ 53)%Z ->
  (0 < pageWidth g <= 2 ^ 53)%Z -> (0 < pageHeight g <= 2 ^ 53)%Z ->
  (0 < numPages g)%Z ->
  (previewWidth g s * previewHeight g s * bytesPerPixel s * numPages g
   <= 2 ^ 48)%Z ->
  generateRIPFiles E g s = Some out ->
  Z.of_nat (List.length (pvwImageData out))
  = (9 * (previewWidth g s * previewHeight g s * bytesPerPixel s * numPages g)
     / 10)%Z
  /\ (forall c E' out',
        generateRIPFiles E' g (with_compressionLevel s c) = Some out' ->
        List.length (pvwImageData out') = List.length (pvwImageData out)).
Proof.
  intros Hd HW HH HP HM Hout.
  apply generateRIPFiles_inv in Hout.
  pose proof (pvw_length _ _ _ _ Hout) as L.
  split.
  - rewrite L. apply pvwImageDataSize_exact; assumption.
  - intros c E' out' Hout'. apply generateRIPFiles_inv in Hout'.
    pose proof (pvw_length _ _ _ _ Hout') as L'.
    rewrite pvwImageDataSize_with_compressionLevel in L'. lia.
Qed.

Lemma tiny_previewSize :
  previewWidth tiny_geometry tiny_settings = 1%Z
  /\ previewHeight tiny_geometry tiny_settings = 1%Z.
Proof. split; vm_compute; reflexivity. Qed.

Lemma preview_length_exact_witness :
  exists out,
    generateRIPFiles ref_engine tiny_geometry tiny_settings = Some out
    /\ Z.of_nat (List.length (pvwImageData out)) = (9 * (1 * 1 * 4 * 4) / 10)%Z.
Proof.
  destruct tiny_generates as [out Hout]. exists out.
  split; [exact Hout|].
  destruct tiny_previewSize as [Hw Hh].
  rewrite <- Hw at 1. rewrite <- Hh at 1.
  apply (preview_length_exact ref_engine tiny_geometry tiny_settings out).
  - cbn [dpi tiny_settings]. lia.
  - cbn [pageWidth tiny_geometry]. lia.
  - cbn [pageHeight tiny_geometry]. lia.
  - cbn [numPages tiny_geometry]. lia.
  - rewrite Hw, Hh. cbn [numPages tiny_geometry]. vm_compute. discriminate.
  - exact Hout.
Defined.

(** ** The range of the jittered values *)

Lemma unit_clamp_range q : -1 <= unit_clamp q /\ unit_clamp q <= 1.
Proof.
  unfold unit_clamp.
  destruct (Qle_bool q (-1)) eqn:A; [split; lra|].
  destruct (Qle_bool 1 q) eqn:B; [split; lra|].
  assert (~ q <= -1) by (rewrite <- Qle_bool_iff, A; discriminate).
  assert (~ 1 <= q) by (rewrite <- Qle_bool_iff, B; discriminate).
  split; lra.
Qed.

Lemma density_range E g step size i :
  (forall x, -1 <= Math_sin E x /\ Math_sin E x <= 1) ->
  (forall x, -1 <= Math_cos E x /\ Math_cos E x <= 1) ->
  1 <= density E g step size i /\ density E g step size i <= 255.
Proof.
  intros Hs Hc. unfold density.
  set (a := Math_sin E _). set (b := Math_cos E _).
  destruct (Hs (fmul (row g size i) step)) as [A0 A1]. fold a in A0, A1.
  destruct (Hc (fmul (col g size i) step)) as [B0 B1]. fold b in B0, B1.
  assert (P : -1 <= fmul a b /\ fmul a b <= 1).
  { unfold fmul. split.
    - apply (round_ge_Z _ (-1)); [simpl; lia|].
      change (inject_Z (-1)) with (-1). nra.
    - apply (round_le_Z _ 1); [simpl; lia|].
      change (inject_Z 1) with 1. nra. }
  destruct P as [P0 P1].
  assert (M : -127 <= fmul (fmul a b) 127 /\ fmul (fmul a b) 127 <= 127).
  { unfold fmul at 1 3. split.
    - apply (round_ge_Z _ (-127)); [simpl; lia|].
      change (inject_Z (-127)) with (-127). lra.
    - apply (round_le_Z _ 127); [simpl; lia|].
      change (inject_Z 127) with 127. lra. }
  destruct M as [M0 M1].
  unfold fadd. split.
  - apply (round_ge_Z _ 1); [simpl; lia|]. change (inject_Z 1) with 1. lra.
  - apply (round_le_Z _ 255); [simpl; lia|]. change (inject_Z 255) with 255.
    lra.
Qed.

Lemma jitter_factor_range lo span r :
  0 <= lo -> 0 <= span -> 0 <= r -> r < 1 ->
  0 <= fadd lo (fmul r span) /\ fadd lo (fmul r span) <= round (lo + round span).
Proof.
  intros Hlo Hspan H0 H1.
  assert (Hm : 0 <= fmul r span /\ fmul r span <= round span).
  { unfold fmul. split; [apply round_nonneg; nra | apply round_mono; nra]. }
  destruct Hm. unfold fadd.
  split; [apply round_nonneg; lra | apply round_mono; lra].
Qed.

Lemma jittered_floor_range dens f top hi m e :
  1 <= dens -> dens <= 255 -> 0 <= f -> f <= top ->
  255 * top <= inject_Z m * pow2 e ->
  (Z.abs m < 2 ^ 53)%Z -> (-1074 <= e)%Z ->
  inject_Z m * pow2 e < inject_Z (hi + 1) ->
  (0 <= Qfloor (fmul dens f) <= hi)%Z.
Proof.
  intros D0 D1 F0 F1 Htop Hm He Hhi. unfold fmul. split.
  - apply Qfloor_nonneg, round_nonneg. nra.
  - assert (Qfloor (round (dens * f)) < hi + 1)%Z; [|lia].
    apply Qfloor_lt_Z. eapply Qle_lt_trans; [|exact Hhi].
    apply Qle_trans with (round (inject_Z m * pow2 e)).
    + apply round_mono. eapply Qle_trans; [|exact Htop]. nra.
    + rewrite round_repr by assumption. apply Qle_refl.
Qed.

Lemma wrapped_byte v hi :
  (0 <= v <= hi)%Z -> (hi < 512)%Z ->
  (v mod 256 = v /\ v <= 255)%Z
  \/ (v mod 256 = v - 256 /\ 256 <= v /\ v mod 256 <= hi - 256)%Z.
Proof.
  intros Hv Hhi. destruct (Z_le_gt_dec v 255) as [L|G].
  - left. split; [apply Z.mod_small; lia | exact L].
  - right. assert (E : (v mod 256 = v - 256)%Z).
    { symmetry. apply (Z.mod_unique v 256 1); lia. }
    lia.
Qed.

(** X5: with sine and cosine within [-1, 1] and draws in [0, 1), the
    number stored in CMYK mode lies in 0 .. 306 and in Grayscale mode
    in 0 .. 331; the byte is that number when it is at most 255 and
    that number minus 256 otherwise, so a wrapped byte is at most 50
    (CMYK) or 75 (Grayscale). *)
Theorem jittered_value_range E g s out :
  (forall x, -1 <= Math_sin E x /\ Math_sin E x <= 1) ->
  (forall x, -1 <= Math_cos E x /\ Math_cos E x <= 1) ->
  (forall k, 0 <= Math_random E k /\ Math_random E k < 1) ->
  generateRIPFiles E g s = Some out ->
  forall i, (i < List.length (prtImageData out))%nat ->
    let size := compressedImageSize g s in
    let b := nth i (prtImageData out) 0%Z in
    (colorMode s = CMYK ->
       let v := Qfloor (fmul (density E g (lit (1 # 100)) size i)
                             (fadd (lit (8 # 10))
                                   (fmul (Math_random E i) (lit (4 # 10))))) in
       (0 <= v <= 306)%Z
       /\ ((b = v /\ v <= 255)%Z \/ (b = v - 256 /\ 256 <= v /\ b <= 50)%Z))
    /\ (colorMode s = Grayscale ->
       let v := Qfloor (fmul (density E g (lit (2 # 100)) size i)
                             (fadd (lit (7 # 10))
                                   (fmul (Math_random E i) (lit (6 # 10))))) in
       (0 <= v <= 331)%Z
       /\ ((b = v /\ v <= 255)%Z \/ (b = v - 256 /\ 256 <= v /\ b <= 75)%Z)).
Proof.
  intros Hs Hc Hr Hout i Hi size b.
  apply generateRIPFiles_inv in Hout.
  assert (Hb : b = prt_byte E g s i) by (apply (prt_nth _ _ _ _ Hout), Hi).
  destruct (Hr i) as [R0 R1].
  split; intros Hm v.
  - destruct (density_range E g (lit (1 # 100)) size i Hs Hc) as [D0 D1].
    assert (F : 0 <= fadd (lit (8 # 10)) (fmul (Math_random E i) (lit (4 # 10)))
                /\ fadd (lit (8 # 10)) (fmul (Math_random E i) (lit (4 # 10)))
                   <= round (lit (8 # 10) + round (lit (4 # 10)))).
    { apply jitter_factor_range; try assumption; vm_compute; discriminate. }
    destruct F as [F0 F1].
    assert (V : (0 <= v <= 306)%Z).
    { apply (jittered_floor_range _ _ _ 306 613 (-1) D0 D1 F0 F1);
        try (vm_compute; congruence); try lia. }
    split; [exact V|].
    rewrite Hb, (prt_byte_CMYK E g s i Hm). fold size v.
    destruct (wrapped_byte v 306 V ltac:(lia)) as [[E1 E2]|[E1 [E2 E3]]];
      [left | right]; lia.
  - destruct (density_range E g (lit (2 # 100)) size i Hs Hc) as [D0 D1].
    assert (F : 0 <= fadd (lit (7 # 10)) (fmul (Math_random E i) (lit (6 # 10)))
                /\ fadd (lit (7 # 10)) (fmul (Math_random E i) (lit (6 # 10)))
                   <= round (lit (7 # 10) + round (lit (6 # 10)))).
    { apply jitter_factor_range; try assumption; vm_compute; discriminate. }
    destruct F as [F0 F1].
    assert (V : (0 <= v <= 331)%Z).
    { apply (jittered_floor_range _ _ _ 331 2655 (-3) D0 D1 F0 F1);
        try (vm_compute; congruence); try lia. }
    split; [exact V|].
    rewrite Hb, (prt_byte_Grayscale E g s i Hm). fold size v.
    destruct (wrapped_byte v 331 V ltac:(lia)) as [[E1 E2]|[E1 [E2 E3]]];
      [left | right]; lia.
Qed.

Lemma bounded_engine_generates_tall :
  exists out,
    generateRIPFiles bounded_engine tall_geometry tall_settings = Some out.
Proof. apply generateRIPFiles_total; vm_compute; discriminate. Qed.

Lemma jittered_value_range_witness :
  exists out,
    generateRIPFiles bounded_engine tall_geometry tall_settings = Some out
    /\ (157 < List.length (prtImageData out))%nat
    /\ (0 <= Qfloor (fmul (density bounded_engine tall_geometry (lit (1 # 100))
                             (compressedImageSize tall_geometry tall_settings)
                             157)
                          (fadd (lit (8 # 10))
                                (fmul (Math_random bounded_engine 157)
                                      (lit (4 # 10)))))
        <= 306)%Z.
Proof.
  destruct bounded_engine_generates_tall as [out Hout]. exists out.
  split; [exact Hout|].
  assert (Hi : (157 < List.length (prtImageData out))%nat).
  { pose proof (prt_length _ _ _ _ (generateRIPFiles_inv _ _ _ _ Hout)) as L.
    rewrite tall_compressedImageSize in L. clear - L. lia. }
  split; [exact Hi|].
  destruct (jittered_value_range bounded_engine tall_geometry tall_settings out
              (fun x => unit_clamp_range (ref_sin x))
              (fun x => unit_clamp_range (ref_cos x))
              ref_random_range Hout 157 Hi) as [H _].
  exact (proj1 (H eq_refl)).
Defined.

(** ** The layout of the headers *)

Lemma TextEncoder_encode_app a b :
  TextEncoder_encode (a ++ b)
  = (TextEncoder_encode a ++ TextEncoder_encode b)%list.
Proof.
  unfold TextEncoder_encode. rewrite <- map_app. f_equal.
  induction a as [|c a IH]; simpl; [reflexivity | now rewrite IH].
Qed.

Lemma string_app_assoc (a b c : string) :
  ((a ++ b) ++ c = a ++ (b ++ c))%string.
Proof. induction a as [|x a IH]; simpl; [reflexivity | now rewrite IH]. Qed.

Lemma join_lines_cons x l :
  l <> [] -> join_lines (x :: l) = (x ++ newline ++ join_lines l)%string.
Proof.
  intros Hl. unfold join_lines. destruct l as [|y l]; [contradiction|].
  cbn [String.concat]. now rewrite !string_app_assoc.
Qed.

Lemma encode_join_lines l :
  l <> [] ->
  TextEncoder_encode (join_lines l)
  = flat_map (fun line => TextEncoder_encode line ++ [10%Z]) l.
Proof.
  induction l as [|x l IH]; [contradiction|]. intros _.
  destruct l as [|y l].
  - unfold join_lines. cbn [String.concat flat_map].
    rewrite TextEncoder_encode_app, app_nil_r. reflexivity.
  - rewrite join_lines_cons by discriminate.
    rewrite !TextEncoder_encode_app, IH by discriminate.
    change (TextEncoder_encode newline) with [10%Z].
    cbn [flat_map]. rewrite <- !app_assoc. reflexivity.
Qed.

Lemma flat_map_last {A B} (f : A -> list B) l x :
  flat_map f (l ++ [x]) = flat_map f l ++ f x.
Proof. rewrite flat_map_app. cbn [flat_map]. now rewrite app_nil_r. Qed.

(** X6: each header is its lines in order, every one followed by one
    byte 10, the last line included; so in each buffer the payload
    starts right after the sentinel line and its newline. *)
Theorem header_lines_are_newline_terminated E g s out :
  generateRIPFiles E g s = Some out ->
  let terminated line := TextEncoder_encode line ++ [10%Z] in
  prtHeader out = flat_map terminated (prtHeaderLines E g s)
  /\ pvwHeader out = flat_map terminated (pvwHeaderLines E g s)
  /\ prtData out
     = flat_map terminated (removelast (prtHeaderLines E g s))
       ++ TextEncoder_encode "DROPLET_PLACEMENT_DATA_START" ++ [10%Z]
       ++ prtImageData out ++ controlData out
  /\ pvwData out
     = flat_map terminated (removelast (pvwHeaderLines E g s))
       ++ TextEncoder_encode "PREVIEW_DATA_START" ++ [10%Z]
       ++ pvwImageData out.
Proof.
  intros Hout terminated. apply generateRIPFiles_inv in Hout.
  assert (H1 : prtHeader out = flat_map terminated (prtHeaderLines E g s)).
  { rewrite (gen_prtHeader _ _ _ _ Hout). apply encode_join_lines.
    discriminate. }
  assert (H2 : pvwHeader out = flat_map terminated (pvwHeaderLines E g s)).
  { rewrite (gen_pvwHeader _ _ _ _ Hout). apply encode_join_lines.
    discriminate. }
  split; [exact H1|]. split; [exact H2|]. split.
  - rewrite (gen_prtData _ _ _ _ Hout), H1.
    change (prtHeaderLines E g s)
      with (removelast (prtHeaderLines E g s)
            ++ ["DROPLET_PLACEMENT_DATA_START"%string]) at 1.
    rewrite flat_map_last. unfold terminated at 2.
    rewrite <- !app_assoc. reflexivity.
  - rewrite (gen_pvwData _ _ _ _ Hout), H2.
    change (pvwHeaderLines E g s)
      with (removelast (pvwHeaderLines E g s) ++ ["PREVIEW_DATA_START"%string])
      at 1.
    rewrite flat_map_last. unfold terminated at 2.
    rewrite <- !app_assoc. reflexivity.
Qed.

Lemma header_lines_are_newline_terminated_witness :
  exists out,
    generateRIPFiles ref_engine tiny_geometry tiny_settings = Some out
    /\ pvwData out
       = flat_map (fun line => TextEncoder_encode line ++ [10%Z])
           (removelast (pvwHeaderLines ref_engine tiny_geometry tiny_settings))
         ++ TextEncoder_encode "PREVIEW_DATA_START" ++ [10%Z]
         ++ pvwImageData out.
Proof.
  destruct tiny_generates as [out Hout]. exists out.
  split; [exact Hout|].
  exact (proj2 (proj2 (proj2
    (header_lines_are_newline_terminated ref_engine tiny_geometry tiny_settings
       out Hout)))).
Defined.

(** ** The control block in black and white *)

Lemma blackwhite_control_byte n :
  (0 <= n < 1280)%Z ->
  let b := ((n * 255 / 1280 + 255) mod 256)%Z in
  b <> 254%Z /\ (b = 255%Z <-> (n <= 5)%Z).
Proof.
  intros Hm.
  assert (Hfd : (0 <= n * 255 / 1280 < 255)%Z).
  { split; [apply Z.div_pos; lia | apply Z.div_lt_upper_bound; lia]. }
  set (fd := (n * 255 / 1280)%Z) in *.
  assert (Hzero : (fd = 0 <-> n <= 5)%Z).
  { unfold fd. split; intros H.
    - assert (n * 255 < 1280)%Z; [|lia].
      pose proof (Z.mul_succ_div_gt (n * 255) 1280 ltac:(lia)). lia.
    - apply Z.div_small. lia. }
  cbv zeta.
  destruct (Z.eq_dec fd 0) as [Z0|NZ].
  - rewrite Z0. change ((0 + 255) mod 256)%Z with 255%Z.
    split; [discriminate|]. split; intros _; [apply Hzero, Z0 | reflexivity].
  - assert (E1 : ((fd + 255) mod 256 = fd - 1)%Z).
    { symmetry. apply (Z.mod_unique (fd + 255) 256 1); lia. }
    rewrite E1. split; [lia|]. split; intros H; [lia|].
    apply Hzero in H. contradiction.
Qed.

(** X7: in BlackWhite mode no byte of the control block is 254, byte i
    is 255 exactly on the nozzles i mod 1280 <= 5 whose firing delay is
    0, and the block repeats with period 1280: byte i + 1280, when the
    block has one, equals byte i. *)
Theorem blackwhite_control_is_periodic E g s out :
  colorMode s = BlackWhite ->
  generateRIPFiles E g s = Some out ->
  forall i, (i < List.length (controlData out))%nat ->
    nth i (controlData out) 0%Z <> 254%Z
    /\ (nth i (controlData out) 0%Z = 255%Z <-> (Z.of_nat i mod 1280 <= 5)%Z)
    /\ ((i + 1280 < List.length (controlData out))%nat ->
        nth (i + 1280) (controlData out) 0%Z = nth i (controlData out) 0%Z).
Proof.
  intros Hbw Hout i Hi. apply generateRIPFiles_inv in Hout.
  rewrite (ctl_nth _ _ _ _ Hout i) by exact Hi.
  rewrite ctl_byte_BlackWhite by exact Hbw.
  assert (Hm : (0 <= Z.of_nat i mod 1280 < 1280)%Z)
    by (apply Z.mod_pos_bound; lia).
  destruct (blackwhite_control_byte _ Hm) as [B1 B2].
  split; [exact B1|]. split; [exact B2|].
  intros Hi'.
  rewrite (ctl_nth _ _ _ _ Hout (i + 1280)) by exact Hi'.
  rewrite ctl_byte_BlackWhite by exact Hbw.
  assert (Hmod : (Z.of_nat (i + 1280) mod 1280 = Z.of_nat i mod 1280)%Z).
  { rewrite Nat2Z.inj_add. change (Z.of_nat 1280) with (1 * 1280)%Z.
    apply Z.mod_add. lia. }
  rewrite Hmod. reflexivity.
Qed.

Lemma letter_controlDataSize : controlDataSize 467499 = 46749%Z.
Proof. vm_compute. reflexivity. Qed.

Lemma blackwhite_control_is_periodic_witness :
  exists out,
    generateRIPFiles ref_engine letter_geometry letter_settings = Some out
    /\ nth 1286 (controlData out) 0%Z <> 254%Z
    /\ nth 1286 (controlData out) 0%Z <> 255%Z
    /\ nth 1283 (controlData out) 0%Z = 255%Z
    /\ nth (3 + 1280) (controlData out) 0%Z = nth 3 (controlData out) 0%Z.
Proof.
  destruct letter_generates as [out Hout]. exists out.
  split; [exact Hout|].
  assert (L : (Z.of_nat (List.length (controlData out)) = 46749)%Z).
  { pose proof (ctl_length _ _ _ _ (generateRIPFiles_inv _ _ _ _ Hout)) as L.
    rewrite letter_compressedImageSize, letter_controlDataSize in L.
    clear - L. lia. }
  pose proof (blackwhite_control_is_periodic ref_engine letter_geometry
                letter_settings out eq_refl Hout) as P.
  assert (I3 : (3 < List.length (controlData out))%nat) by lia.
  assert (I1283 : (1283 < List.length (controlData out))%nat) by lia.
  assert (I1286 : (1286 < List.length (controlData out))%nat) by lia.
  split; [exact (proj1 (P 1286%nat I1286))|].
  split.
  { intros H. apply (proj1 (proj2 (P 1286%nat I1286))) in H.
    revert H. vm_compute. intros H; apply H; reflexivity. }
  split.
  { apply (proj2 (proj1 (proj2 (P 1283%nat I1283)))).
    vm_compute. discriminate. }
  exact (proj2 (proj2 (P 3%nat I3)) I1283).
Defined.

(** ** The payload length of a call against exact arithmetic *)

(** X8: for positive geometry, a raw size below 2^43 bytes and a
    level from 10 to 100, the payload of a call has
    floor(W * H * bpp * pages * (130 - level) / 100) bytes or one
    less, and exactly that many when 100 does not divide the
    product. *)
Theorem payload_length_near_exact E g s out :
  (0 < pageWidth g)%Z -> (0 < pageHeight g)%Z -> (0 < numPages g)%Z ->
  (pageWidth g * pageHeight g * bytesPerPixel s * numPages g < 2 ^ 43)%Z ->
  (10 <= compressionLevel s <= 100)%Z ->
  generateRIPFiles E g s = Some out ->
  let X := (pageWidth g * pageHeight g * bytesPerPixel s * numPages g
            * (130 - compressionLevel s))%Z in
  let N := Z.of_nat (List.length (prtImageData out)) in
  (X / 100 - 1 <= N <= X / 100)%Z
  /\ ((X mod 100 <> 0)%Z -> N = (X / 100)%Z).
Proof.
  intros HW HH HP Hlt Hc Hout X N.
  apply generateRIPFiles_inv in Hout.
  unfold N. rewrite (prt_length _ _ _ _ Hout).
  apply compressedImageSize_near_exact; assumption.
Qed.

Lemma payload_length_near_exact_witness :
  exists out,
    generateRIPFiles ref_engine letter_geometry letter_settings = Some out
    /\ (850 * 1100 * 1 * 1 * (130 - 80) / 100 - 1
        <= Z.of_nat (List.length (prtImageData out))
        <= 850 * 1100 * 1 * 1 * (130 - 80) / 100)%Z.
Proof.
  destruct letter_generates as [out Hout]. exists out.
  split; [exact Hout|].
  refine (proj1 (payload_length_near_exact ref_engine letter_geometry
                   letter_settings out _ _ _ _ _ Hout));
    cbn [pageWidth pageHeight numPages letter_geometry compressionLevel
         letter_settings bytesPerPixel colorMode]; lia.
Defined.

(** ** The lengths the call asks for on the domain of the page *)

Lemma double_nb_digits d :
  (Decimal.nb_digits (Decimal.Little.double d) <= S (Decimal.nb_digits d))%nat
  /\ (Decimal.nb_digits (Decimal.Little.succ_double d)
      <= S (Decimal.nb_digits d))%nat.
Proof.
  induction d as [|d [IH1 IH2]|d [IH1 IH2]|d [IH1 IH2]|d [IH1 IH2]
                  |d [IH1 IH2]|d [IH1 IH2]|d [IH1 IH2]|d [IH1 IH2]
                  |d [IH1 IH2]|d [IH1 IH2]];
    cbn [Decimal.Little.double Decimal.Little.succ_double Decimal.nb_digits];
    split; lia.
Qed.

Lemma to_little_uint_digits p :
  (Decimal.nb_digits (Pos.to_little_uint p) <= Pos.size_nat p)%nat.
Proof.
  induction p as [p IH|p IH|]; cbn [Pos.to_little_uint Pos.size_nat].
  - pose proof (proj2 (double_nb_digits (Pos.to_little_uint p))). lia.
  - pose proof (proj1 (double_nb_digits (Pos.to_little_uint p))). lia.
  - cbn. lia.
Qed.

Lemma size_nat_bound p :
  forall n, (Zpos p < 2 ^ Z.of_nat n)%Z -> (Pos.size_nat p <= n)%nat.
Proof.
  induction p as [p IH|p IH|]; intros [|n] H; cbn [Pos.size_nat];
    try (change (2 ^ Z.of_nat 0)%Z with 1%Z in H; lia);
    rewrite Nat2Z.inj_succ, Z.pow_succ_r in H by lia.
  - apply le_n_S, IH. lia.
  - apply le_n_S, IH. lia.
Qed.

Lemma string_of_uint_length d :
  String.length (NilEmpty.string_of_uint d) = Decimal.nb_digits d.
Proof.
  induction d; cbn [NilEmpty.string_of_uint String.length Decimal.nb_digits];
    congruence.
Qed.

Lemma Number_toString_length z n :
  (Z.abs z < 2 ^ Z.of_nat n)%Z ->
  (String.length (Number_toString z) <= n + 2)%nat.
Proof.
  intros Hz.
  assert (U : forall p, (Zpos p < 2 ^ Z.of_nat n)%Z ->
            (String.length (NilZero.string_of_uint (Pos.to_uint p)) <= n + 1)%nat).
  { intros p Hp. unfold Pos.to_uint.
    pose proof (to_little_uint_digits p) as D.
    pose proof (size_nat_bound p n Hp) as S.
    rewrite <- DecimalFacts.nb_digits_rev in D.
    generalize dependent (Decimal.rev (Pos.to_little_uint p)). intros u D.
    destruct u; try (unfold NilZero.string_of_uint;
                     rewrite string_of_uint_length; lia).
    cbn. lia. }
  unfold Number_toString. destruct z as [|p|p];
    cbn [Z.to_int NilZero.string_of_int String.length].
  - cbn. lia.
  - specialize (U p Hz). lia.
  - specialize (U p Hz). lia.
Qed.

Lemma TextEncoder_encode_length s :
  List.length (TextEncoder_encode s) = String.length s.
Proof.
  unfold TextEncoder_encode. rewrite length_map.
  induction s as [|c s IH]; simpl; [reflexivity | now rewrite IH].
Qed.

Lemma string_length_app (a b : string) :
  String.length (a ++ b) = (String.length a + String.length b)%nat.
Proof. induction a as [|c a IH]; simpl; [reflexivity | now rewrite IH]. Qed.

Lemma colorModeName_length c : (String.length (colorModeName c) <= 10)%nat.
Proof. destruct c; cbn; lia. Qed.

Lemma encode_prtHeader_length E g s :
  List.length (encode_prtHeader E g s)
  = (398 + String.length (toISOString E 0)
     + String.length (Number_toString (dpi s))
     + String.length (colorModeName (colorMode s))
     + String.length (Number_toString (compressionLevel s))
     + String.length (Number_toString (numPages g))
     + String.length (Number_toString (pageWidth g))
     + String.length (Number_toString (pageHeight g))
     + String.length (Number_toString (bytesPerPixel s)))%nat.
Proof.
  unfold encode_prtHeader. rewrite TextEncoder_encode_length.
  unfold join_lines, prtHeaderLines. cbn [String.concat].
  rewrite !string_length_app. cbn [String.length newline].
  lia.
Qed.

Lemma encode_pvwHeader_length E g s :
  List.length (encode_pvwHeader E g s)
  = (190 + String.length (toISOString E 1)
     + String.length (Number_toString (previewDPI s))
     + String.length (colorModeName (colorMode s))
     + String.length (Number_toString (numPages g))
     + String.length (Number_toString (previewWidth g s))
     + String.length (Number_toString (previewHeight g s))
     + String.length (Number_toString (bytesPerPixel s)))%nat.
Proof.
  unfold encode_pvwHeader. rewrite TextEncoder_encode_length.
  unfold join_lines, pvwHeaderLines. cbn [String.concat].
  rewrite !string_length_app. cbn [String.length newline]. lia.
Qed.

Lemma density_factor_pos s :
  (10 <= compressionLevel s <= 100)%Z ->
  0 <= fadd (fsub 1 (compressionRatio s)) (lit (3 # 10)).
Proof.
  intros Hc. destruct (density_factor_near_exact s Hc) as [_ D].
  assert (P : pow2 (-52) <= 1 # 10) by (vm_compute; discriminate).
  assert (Hn : 30 <= inject_Z (130 - compressionLevel s)).
  { change 30 with (inject_Z 30). rewrite <- Zle_Qle. lia. }
  assert (He : inject_Z (130 - compressionLevel s) / 100 * 100
               == inject_Z (130 - compressionLevel s)) by field.
  revert D P Hn He.
  generalize (fadd (fsub 1 (compressionRatio s)) (lit (3 # 10)))
    (inject_Z (130 - compressionLevel s) / 100)
    (inject_Z (130 - compressionLevel s)) (pow2 (-52)).
  intros d d0 n p; intros. lra.
Qed.

(** X9: on the domain of the page every length the function asks an
    array for is a valid one: for a positive resolution below 2^53,
    positive geometry with a raw size below 2^43 bytes, a level from 10
    to 100 and timestamps of at most 27 characters, the payload has
    between 0 and 1.2 times the raw size, the control block a tenth of
    the payload rounded down, the preview between 0 and 0.9 times the
    raw size, and each header at most 1000 bytes; so each length, and
    the total of each buffer, is a non-negative integer below 2^45.
    Whether the engine has that much memory is not part of the
    statement. *)
Theorem requested_lengths_are_valid E g s :
  (0 < dpi s < 2 ^ 53)%Z ->
  (0 < pageWidth g)%Z -> (0 < pageHeight g)%Z -> (0 < numPages g)%Z ->
  (pageWidth g * pageHeight g * bytesPerPixel s * numPages g < 2 ^ 43)%Z ->
  (10 <= compressionLevel s <= 100)%Z ->
  (String.length (toISOString E 0) <= 27)%nat ->
  (String.length (toISOString E 1) <= 27)%nat ->
  let raw := (pageWidth g * pageHeight g * bytesPerPixel s * numPages g)%Z in
  let N := compressedImageSize g s in
  let C := controlDataSize N in
  let V := pvwImageDataSize g s in
  let h := Z.of_nat (List.length (encode_prtHeader E g s)) in
  let h' := Z.of_nat (List.length (encode_pvwHeader E g s)) in
  (0 <= N /\ 10 * N <= 12 * raw)%Z
  /\ C = (N / 10)%Z
  /\ (0 <= V /\ 10 * V <= 9 * raw)%Z
  /\ (h <= 1000 /\ h' <= 1000)%Z
  /\ (h + N + C < 2 ^ 45 /\ h' + V < 2 ^ 45)%Z.
Proof.
  intros Hd HW HH HP Hraw Hc Ht0 Ht1.
  pose proof (bytesPerPixel_pos s) as Hb.
  set (W := pageWidth g) in *. set (H := pageHeight g) in *.
  set (P := numPages g) in *. set (b := bytesPerPixel s) in *.
  assert (P1 : (0 < W * H)%Z) by (apply Z.mul_pos_pos; assumption).
  assert (P2 : (0 < W * H * b)%Z) by (apply Z.mul_pos_pos; assumption).
  assert (H1 : (W <= W * H)%Z) by (apply Z.le_mul_diag_r; lia).
  assert (H2 : (H <= W * H)%Z) by (rewrite Z.mul_comm; apply Z.le_mul_diag_r; lia).
  assert (H3 : (W * H <= W * H * b)%Z) by (apply Z.le_mul_diag_r; lia).
  assert (H4 : (W * H * b <= W * H * b * P)%Z) by (apply Z.le_mul_diag_r; lia).
  assert (H5 : (P <= W * H * b * P)%Z)
    by (rewrite (Z.mul_comm _ P); apply Z.le_mul_diag_r; lia).
  set (B := (W * H * b * P)%Z) in *.
  (* the payload *)
  destruct (compressedImageSize_near_exact g s HW HH HP Hraw Hc) as [[_ Nhi] _].
  fold W H P b B in Nhi.
  assert (N0 : (0 <= compressedImageSize g s)%Z).
  { unfold compressedImageSize. apply Qfloor_nonneg, fmul_nonneg.
    - apply baseImageSize_nonneg; fold W H P; lia.
    - apply density_factor_pos, Hc. }
  assert (N1 : (10 * compressedImageSize g s <= 12 * B)%Z).
  { assert (X : (B * (130 - compressionLevel s) <= 120 * B)%Z) by nia.
    pose proof (Z.mul_div_le (B * (130 - compressionLevel s)) 100
                  ltac:(lia)).
    lia. }
  set (N := compressedImageSize g s) in *.
  (* the control block *)
  assert (C : controlDataSize N = (N / 10)%Z)
    by (apply controlDataSize_exact; lia).
  assert (C0 : (0 <= N / 10 <= N)%Z).
  { split; [apply Z.div_pos; lia|].
    apply Z.div_le_upper_bound; lia. }
  (* the preview *)
  assert (Hpw : (1 <= previewWidth g s <= W)%Z)
    by (apply (preview_dimension_range W (dpi s)); lia).
  assert (Hph : (1 <= previewHeight g s <= H)%Z)
    by (apply (preview_dimension_range H (dpi s)); lia).
  assert (M : (0 < previewWidth g s * previewHeight g s * b * P <= B)%Z).
  { split; [repeat apply Z.mul_pos_pos; lia|].
    unfold B. repeat apply Z.mul_le_mono_nonneg; try lia;
      repeat apply Z.mul_nonneg_nonneg; lia. }
  assert (V : pvwImageDataSize g s
              = (9 * (previewWidth g s * previewHeight g s * b * P) / 10)%Z).
  { apply pvwImageDataSize_exact; fold W H P b; lia. }
  assert (V0 : (0 <= pvwImageDataSize g s
                /\ 10 * pvwImageDataSize g s <= 9 * B)%Z).
  { rewrite V. split; [apply Z.div_pos; lia|].
    pose proof (Z.mul_div_le
                  (9 * (previewWidth g s * previewHeight g s * b * P)) 10
                  ltac:(lia)).
    lia. }
  (* the headers *)
  assert (D : forall z, (0 < z < 2 ^ 53)%Z ->
            (String.length (Number_toString z) <= 55)%nat).
  { intros z Hz. apply (Number_toString_length z 53).
    change (2 ^ Z.of_nat 53)%Z with (2 ^ 53)%Z. lia. }
  pose proof (colorModeName_length (colorMode s)) as Hcm.
  assert (L1 : (List.length (encode_prtHeader E g s) <= 1000)%nat).
  { rewrite encode_prtHeader_length. fold W H P b.
    pose proof (D (dpi s) ltac:(lia)). pose proof (D (compressionLevel s) ltac:(lia)).
    pose proof (D P ltac:(lia)). pose proof (D W ltac:(lia)).
    pose proof (D H ltac:(lia)). pose proof (D b ltac:(lia)). lia. }
  assert (L2 : (List.length (encode_pvwHeader E g s) <= 1000)%nat).
  { rewrite encode_pvwHeader_length. fold P b.
    pose proof (D (previewDPI s) ltac:(unfold previewDPI; lia)).
    pose proof (D P ltac:(lia)).
    pose proof (D (previewWidth g s) ltac:(lia)).
    pose proof (D (previewHeight g s) ltac:(lia)).
    pose proof (D b ltac:(lia)). lia. }
  cbv zeta. rewrite C.
  clear - N0 N1 C0 V0 L1 L2 Hraw. lia.
Qed.

Lemma requested_lengths_are_valid_witness :
  (0 <= compressedImageSize letter_geometry letter_settings
   /\ 10 * compressedImageSize letter_geometry letter_settings
      <= 12 * 935000)%Z
  /\ controlDataSize (compressedImageSize letter_geometry letter_settings)
     = (compressedImageSize letter_geometry letter_settings / 10)%Z.
Proof.
  destruct (requested_lengths_are_valid ref_engine letter_geometry
              letter_settings) as [A [B _]];
    try (cbn [dpi pageWidth pageHeight numPages compressionLevel colorMode
              letter_settings letter_geometry bytesPerPixel
              toISOString ref_engine String.length]; lia).
  split; [exact A | exact B].
Defined.


(** ** Larger documents *)

Lemma fmul_mono x x' y y' :
  0 <= x -> x <= x' -> 0 <= y -> y <= y' -> fmul x y <= fmul x' y'.
Proof. intros. unfold fmul. apply round_mono. nra. Qed.

Lemma density_factor_nonneg s :
  (compressionLevel s <= 100)%Z ->
  0 <= fadd (fsub 1 (compressionRatio s)) (lit (3 # 10)).
Proof.
  intros Hc.
  assert (H100 : num (compressionLevel s) <= 100).
  { eapply Qle_trans; [apply num_mono, Hc|].
    rewrite num_safe by (simpl; lia). apply Qle_refl. }
  assert (Hr : compressionRatio s <= 1).
  { unfold compressionRatio, fdiv. apply (round_le_Z _ 1); [simpl; lia|].
    change (inject_Z 1) with 1. apply Qle_shift_div_r; lra. }
  assert (Hs : 0 <= fsub 1 (compressionRatio s))
    by (unfold fsub; apply round_nonneg; lra).
  assert (H3 : 0 <= lit (3 # 10)) by (vm_compute; discriminate).
  unfold fadd. apply round_nonneg. lra.
Qed.

Lemma baseImageSize_mono g g' s :
  (0 <= pageWidth g <= pageWidth g')%Z ->
  (0 <= pageHeight g <= pageHeight g')%Z ->
  (0 <= numPages g <= numPages g')%Z ->
  baseImageSize g s <= baseImageSize g' s.
Proof.
  intros HW HH HP. unfold baseImageSize.
  pose proof (bytesPerPixel_pos s) as Hb.
  apply fmul_mono; [| |apply num_nonneg; lia|apply num_mono; lia].
  - repeat apply fmul_nonneg; try (apply num_nonneg; lia).
    apply inject_Z_nonneg; lia.
  - apply fmul_mono; [| |apply inject_Z_nonneg; lia|apply Qle_refl].
    + apply fmul_nonneg; apply num_nonneg; lia.
    + apply fmul_mono; try (apply num_nonneg; lia); apply num_mono; lia.
Qed.

Lemma controlDataSize_mono N N' :
  (0 <= N <= N')%Z -> (controlDataSize N <= controlDataSize N')%Z.
Proof.
  intros H. unfold controlDataSize. apply Qfloor_resp_le.
  apply fmul_mono.
  - apply inject_Z_nonneg; lia.
  - rewrite <- Zle_Qle. lia.
  - vm_compute. discriminate.
  - apply Qle_refl.
Qed.

(** X10: at a level of at most 100, a document that is no smaller in
    width, height and page count gets a payload and a control block
    that are no shorter. *)
Theorem payload_grows_with_the_document E E' g g' s out out' :
  (0 <= pageWidth g <= pageWidth g')%Z ->
  (0 <= pageHeight g <= pageHeight g')%Z ->
  (0 <= numPages g <= numPages g')%Z ->
  (compressionLevel s <= 100)%Z ->
  generateRIPFiles E g s = Some out ->
  generateRIPFiles E' g' s = Some out' ->
  (List.length (prtImageData out) <= List.length (prtImageData out'))%nat
  /\ (List.length (controlData out) <= List.length (controlData out'))%nat.
Proof.
  intros HW HH HP Hc Hout Hout'.
  apply generateRIPFiles_inv in Hout, Hout'.
  pose proof (prt_length _ _ _ _ Hout) as L.
  pose proof (prt_length _ _ _ _ Hout') as L'.
  pose proof (ctl_length _ _ _ _ Hout) as C.
  pose proof (ctl_length _ _ _ _ Hout') as C'.
  assert (N : (compressedImageSize g s <= compressedImageSize g' s)%Z).
  { unfold compressedImageSize. apply Qfloor_resp_le, fmul_mono.
    - apply baseImageSize_nonneg; lia.
    - apply baseImageSize_mono; assumption.
    - apply density_factor_nonneg, Hc.
    - apply Qle_refl. }
  assert (N0 : (0 <= compressedImageSize g s)%Z) by lia.
  pose proof (controlDataSize_mono _ _ (conj N0 N)).
  lia.
Qed.

Lemma speck_letter_generates :
  exists out,
    generateRIPFiles ref_engine speck_geometry letter_settings = Some out.
Proof. apply generateRIPFiles_total; vm_compute; discriminate. Qed.

Lemma payload_grows_with_the_document_witness :
  exists out out',
    generateRIPFiles ref_engine speck_geometry letter_settings = Some out
    /\ generateRIPFiles ref_engine letter_geometry letter_settings = Some out'
    /\ (List.length (prtImageData out)
        <= List.length (prtImageData out'))%nat.
Proof.
  destruct speck_letter_generates as [out Hout].
  destruct letter_generates as [out' Hout'].
  exists out, out'. split; [exact Hout|]. split; [exact Hout'|].
  refine (proj1 (payload_grows_with_the_document ref_engine ref_engine
                   speck_geometry letter_geometry letter_settings out out'
                   _ _ _ _ Hout Hout'));
    cbn [pageWidth pageHeight numPages compressionLevel
         speck_geometry letter_geometry letter_settings]; lia.
Defined.

(** ** The values of the preview *)

Lemma load_some (a : list Z) idx v : load a idx = Some v -> In v a.
Proof.
  unfold load. destruct (_ && _); [|discriminate].
  apply nth_error_In.
Qed.

Lemma prt_bytes E g s out :
  generated E g s out -> Forall is_byte (prtImageData out).
Proof.
  intros G. rewrite (gen_prt _ _ _ _ G).
  apply map_ToUint8_bytes. intros i. apply ToUint8_range.
Qed.

(** X11: every preview byte is 0 or one of the payload's bytes: the
    preview of an empty payload is all zeros (each read is undefined),
    and in BlackWhite mode the preview holds only 0 and 255. *)
Theorem preview_bytes_come_from_the_payload E g s out :
  generateRIPFiles E g s = Some out ->
  Forall (fun b => b = 0%Z \/ In b (prtImageData out)) (pvwImageData out)
  /\ (prtImageData out = [] ->
      Forall (fun b => b = 0%Z) (pvwImageData out))
  /\ (colorMode s = BlackWhite ->
      Forall (fun b => b = 0%Z \/ b = 255%Z) (pvwImageData out)).
Proof.
  intros Hout. apply generateRIPFiles_inv in Hout.
  pose proof (prt_bytes _ _ _ _ Hout) as Hb. rewrite Forall_forall in Hb.
  assert (H1 : Forall (fun b => b = 0%Z \/ In b (prtImageData out))
                      (pvwImageData out)).
  { rewrite (gen_pvw _ _ _ _ Hout). apply Forall_map, Forall_forall.
    intros i _. unfold pvw_byte.
    destruct (load (prtImageData out) _) as [v|] eqn:L; cbn [or_zero].
    - apply load_some in L. right. rewrite ToUint8_Z.
      rewrite Z.mod_small by (apply Hb, L). exact L.
    - left. reflexivity. }
  split; [exact H1|]. split.
  - intros Hnil. rewrite Forall_forall in *. intros b Hin.
    destruct (H1 b Hin) as [Z0|Hp]; [exact Z0|].
    rewrite Hnil in Hp. contradiction.
  - intros Hbw. rewrite Forall_forall in *. intros b Hin.
    destruct (H1 b Hin) as [Z0|Hp]; [left; exact Z0|].
    rewrite (gen_prt _ _ _ _ Hout) in Hp. apply in_map_iff in Hp.
    destruct Hp as [i [<- _]]. rewrite prt_byte_BlackWhite by exact Hbw.
    destruct (Qle_bool _ _); [left | right]; reflexivity.
Qed.

Lemma speck_generates :
  exists out,
    generateRIPFiles ref_engine speck_geometry speck_settings = Some out.
Proof. apply generateRIPFiles_total; vm_compute; discriminate. Qed.

Lemma speck_sizes :
  compressedImageSize speck_geometry speck_settings = 0%Z
  /\ pvwImageDataSize speck_geometry speck_settings = 1%Z.
Proof. split; vm_compute; reflexivity. Qed.

Lemma preview_bytes_come_from_the_payload_witness :
  exists out,
    generateRIPFiles ref_engine speck_geometry speck_settings = Some out
    /\ prtImageData out = []
    /\ (List.length (pvwImageData out) = 1)%nat
    /\ Forall (fun b => b = 0%Z) (pvwImageData out).
Proof.
  destruct speck_generates as [out Hout]. exists out.
  split; [exact Hout|].
  pose proof (generateRIPFiles_inv _ _ _ _ Hout) as G.
  pose proof (prt_length _ _ _ _ G) as L.
  pose proof (pvw_length _ _ _ _ G) as L'.
  destruct speck_sizes as [S1 S2]. rewrite S1 in L. rewrite S2 in L'.
  assert (Hnil : prtImageData out = []).
  { apply length_zero_iff_nil. clear - L. lia. }
  split; [exact Hnil|]. split; [clear - L'; lia|].
  exact (proj1 (proj2 (preview_bytes_come_from_the_payload ref_engine
                         speck_geometry speck_settings out Hout)) Hnil).
Defined.

(** ** The lengths of the headers *)

(** X12: the primary header has 398 bytes plus the lengths of its
    eight variable fields, the preview header 190 bytes plus the
    lengths of its seven; these are the offsets of the two payloads. *)
Theorem header_lengths E g s out :
  generateRIPFiles E g s = Some out ->
  List.length (prtHeader out)
  = (398 + String.length (toISOString E 0)
     + String.length (Number_toString (dpi s))
     + String.length (colorModeName (colorMode s))
     + String.length (Number_toString (compressionLevel s))
     + String.length (Number_toString (numPages g))
     + String.length (Number_toString (pageWidth g))
     + String.length (Number_toString (pageHeight g))
     + String.length (Number_toString (bytesPerPixel s)))%nat
  /\ List.length (pvwHeader out)
     = (190 + String.length (toISOString E 1)
        + String.length (Number_toString (previewDPI s))
        + String.length (colorModeName (colorMode s))
        + String.length (Number_toString (numPages g))
        + String.length (Number_toString (previewWidth g s))
        + String.length (Number_toString (previewHeight g s))
        + String.length (Number_toString (bytesPerPixel s)))%nat.
Proof.
  intros Hout. apply generateRIPFiles_inv in Hout.
  rewrite (gen_prtHeader _ _ _ _ Hout), (gen_pvwHeader _ _ _ _ Hout).
  split; [apply encode_prtHeader_length | apply encode_pvwHeader_length].
Qed.

Lemma header_lengths_witness :
  exists out,
    generateRIPFiles ref_engine letter_geometry letter_settings = Some out
    /\ List.length (prtHeader out) = 446%nat
    /\ List.length (pvwHeader out) = 235%nat.
Proof.
  destruct letter_generates as [out Hout]. exists out.
  split; [exact Hout|].
  destruct (header_lengths ref_engine letter_geometry letter_settings out Hout)
    as [H1 H2].
  split; [rewrite H1 | rewrite H2]; vm_compute; reflexivity.
Defined.

(** ** The pattern repeats from page to page *)

Lemma frem_proper_r x y y' : y == y' -> frem x y == frem x y'.
Proof.
  intros H. unfold frem.
  rewrite (Qtrunc_proper (x / y) (x / y')) by (now rewrite H).
  now rewrite H.
Qed.

Lemma frem_proper_l x x' y : x == x' -> frem x y == frem x' y.
Proof.
  intros H. unfold frem.
  rewrite (Qtrunc_proper (x / y) (x' / y)) by (now rewrite H).
  now rewrite H.
Qed.

Lemma pageOffset_exact g N i :
  (0 < numPages g)%Z -> (numPages g | N)%Z -> (0 < N <= 2 ^ 53)%Z ->
  pageOffset g N i == inject_Z (Z.of_nat i mod (N / numPages g)).
Proof.
  intros HP [q Hq] HN. set (P := numPages g) in *.
  assert (Hq0 : (0 < q)%Z) by nia.
  assert (HqN : (q <= N)%Z) by nia.
  assert (HPN : (P <= N)%Z) by nia.
  assert (Hdiv : (N / P = q)%Z) by (subst N; apply Z.div_mul; lia).
  rewrite Hdiv. unfold pageOffset. fold P.
  assert (Hd : fdiv (inject_Z N) (num P) == inject_Z q).
  { unfold fdiv. rewrite (round_proper _ (inject_Z q)).
    - apply round_Z. lia.
    - rewrite num_safe by lia. subst N. rewrite inject_Z_mult. field.
      change 0 with (inject_Z 0). rewrite inject_Z_injective. lia. }
  rewrite (frem_proper_r _ _ _ Hd). apply frem_Z; lia.
Qed.

Lemma pageOffset_next_page g N i :
  (0 < numPages g)%Z -> (numPages g | N)%Z -> (0 < N <= 2 ^ 53)%Z ->
  pageOffset g N (i + Z.to_nat (N / numPages g)) == pageOffset g N i.
Proof.
  intros HP Hd HN. rewrite !pageOffset_exact by assumption.
  destruct Hd as [q Hq].
  assert (Hq0 : (0 < q)%Z) by nia.
  assert (Hdiv : (N / numPages g = q)%Z) by (subst N; apply Z.div_mul; lia).
  rewrite Hdiv, Nat2Z.inj_add, Z2Nat.id by lia.
  replace (Z.of_nat i + q)%Z with (Z.of_nat i + 1 * q)%Z by lia.
  rewrite Z.mod_add by lia. reflexivity.
Qed.

Lemma row_col_proper g N i j :
  pageOffset g N i == pageOffset g N j ->
  row g N i = row g N j /\ col g N i == col g N j.
Proof.
  intros H. unfold row, col, fdiv. split.
  - rewrite (round_proper (pageOffset g N i / num (pageWidth g))
                          (pageOffset g N j / num (pageWidth g)))
      by (now rewrite H).
    reflexivity.
  - apply frem_proper_l, H.
Qed.

(** X13: when the page count divides the payload length, row and
    column at index i + length/pages are those at index i, and in
    BlackWhite mode the byte is the same: every page carries the same
    pattern. *)
Theorem pages_repeat E g s out :
  generateRIPFiles E g s = Some out ->
  (0 < numPages g)%Z ->
  (numPages g | compressedImageSize g s)%Z ->
  let size := compressedImageSize g s in
  let perPage := Z.to_nat (size / numPages g) in
  forall i, (i + perPage < List.length (prtImageData out))%nat ->
    row g size (i + perPage) == row g size i
    /\ col g size (i + perPage) == col g size i
    /\ (colorMode s = BlackWhite ->
        nth (i + perPage) (prtImageData out) 0%Z
        = nth i (prtImageData out) 0%Z).
Proof.
  intros Hout HP Hdiv size perPage i Hi.
  pose proof (generateRIPFiles_inv _ _ _ _ Hout) as G.
  pose proof (prt_length _ _ _ _ G) as L. fold size in L.
  pose proof (gen_prt_size _ _ _ _ G) as HN. fold size in HN.
  unfold MAX_SAFE_INTEGER in HN.
  assert (Hpo : pageOffset g size (i + perPage) == pageOffset g size i).
  { apply pageOffset_next_page; try assumption. lia. }
  destruct (row_col_proper g size _ _ Hpo) as [Hrow Hcol].
  split; [rewrite Hrow; reflexivity|]. split; [exact Hcol|].
  intros Hbw.
  rewrite (prt_nth _ _ _ _ G (i + perPage)) by exact Hi.
  rewrite (prt_nth _ _ _ _ G i) by lia.
  rewrite !prt_byte_BlackWhite by exact Hbw. fold size.
  unfold density, fmul. rewrite Hrow.
  rewrite (round_proper (col g size (i + perPage) * lit (1 # 10))
                        (col g size i * lit (1 # 10)))
    by (now rewrite Hcol).
  reflexivity.
Qed.

Lemma booklet_compressedImageSize :
  compressedImageSize booklet_geometry booklet_settings = 24%Z.
Proof. vm_compute. reflexivity. Qed.

Lemma booklet_generates :
  exists out,
    generateRIPFiles ref_engine booklet_geometry booklet_settings = Some out.
Proof. apply generateRIPFiles_total; vm_compute; discriminate. Qed.

Lemma pages_repeat_witness :
  exists out,
    generateRIPFiles ref_engine booklet_geometry booklet_settings = Some out
    /\ (0 + 12 < List.length (prtImageData out))%nat
    /\ nth (0 + 12) (prtImageData out) 0%Z = nth 0 (prtImageData out) 0%Z.
Proof.
  destruct booklet_generates as [out Hout]. exists out.
  assert (L : Z.of_nat (List.length (prtImageData out)) = 24%Z).
  { rewrite (prt_length _ _ _ _ (generateRIPFiles_inv _ _ _ _ Hout)).
    apply booklet_compressedImageSize. }
  assert (Hi : (0 + 12 < List.length (prtImageData out))%nat)
    by (clear - L; lia).
  split; [exact Hout|]. split; [exact Hi|].
  assert (Hd : (numPages booklet_geometry
                | compressedImageSize booklet_geometry booklet_settings)%Z).
  { rewrite booklet_compressedImageSize. exists 12%Z. reflexivity. }
  assert (Hp : (0 < numPages booklet_geometry)%Z) by reflexivity.
  pose proof (pages_repeat ref_engine booklet_geometry booklet_settings out
                Hout Hp Hd) as T.
  rewrite booklet_compressedImageSize in T.
  exact (proj2 (proj2 (T 0%nat Hi)) eq_refl).
Defined.

(** ** The payload against the raw raster *)




(** ** The order of the samples *)

Lemma sourceIndex_mono p N i j :
  (0 < p)%Z -> (0 <= N)%Z -> (i <= j)%nat ->
  (Qfloor (sourceIndex p N i) <= Qfloor (sourceIndex p N j))%Z.
Proof.
  intros Hp HN Hij. unfold sourceIndex, Math_floor. rewrite !Qfloor_Z.
  apply Qfloor_resp_le. unfold fmul, fdiv. apply round_mono.
  assert (Hp0 : 0 < inject_Z p)
    by (change 0 with (inject_Z 0); rewrite <- Zlt_Qlt; lia).
  assert (HN0 : 0 <= inject_Z N) by (apply inject_Z_nonneg; lia).
  assert (Hq : inject_Z (Z.of_nat i) / inject_Z p
               <= inject_Z (Z.of_nat j) / inject_Z p).
  { apply Qmult_le_compat_r.
    - rewrite <- Zle_Qle. lia.
    - apply Qlt_le_weak, Qinv_lt_0_compat, Hp0. }
  apply round_mono in Hq.
  apply Qmult_le_compat_r; assumption.
Qed.

(** X15: the payload index sampled for preview byte i does not
    decrease with i and is 0 for i = 0, so the preview keeps the order
    of the payload and, when neither array is empty, starts with the
    payload's first byte. *)
Theorem preview_sampling_keeps_the_order E g s out :
  generateRIPFiles E g s = Some out ->
  let previewByteCount := Z.of_nat (List.length (pvwImageData out)) in
  let primaryByteCount := Z.of_nat (List.length (prtImageData out)) in
  let sampled (i : nat) :=
    Qfloor (fmul (fdiv (inject_Z (Z.of_nat i)) (inject_Z previewByteCount))
                 (inject_Z primaryByteCount)) in
  sampled 0%nat = 0%Z
  /\ (forall i j, (i <= j)%nat -> (j < List.length (pvwImageData out))%nat ->
        (sampled i <= sampled j)%Z)
  /\ ((0 < List.length (pvwImageData out))%nat ->
      (0 < List.length (prtImageData out))%nat ->
      nth 0 (pvwImageData out) 0%Z = nth 0 (prtImageData out) 0%Z).
Proof.
  intros Hout p N sampled.
  pose proof (generateRIPFiles_inv _ _ _ _ Hout) as G.
  assert (S : forall i, sampled i = Qfloor (sourceIndex p N i)).
  { intros i. unfold sampled, sourceIndex, Math_floor.
    rewrite Qfloor_Z. reflexivity. }
  split; [rewrite S; apply sourceIndex_0|]. split.
  - intros i j Hij Hj. rewrite !S. apply sourceIndex_mono; unfold p, N; lia.
  - intros Hp HN. rewrite (pvw_nth _ _ _ _ G 0%nat Hp). unfold pvw_byte.
    rewrite <- (pvw_length _ _ _ _ G), <- (prt_length _ _ _ _ G).
    fold p N.
    assert (L : load (prtImageData out) (sourceIndex p N 0)
                = Some (nth 0 (prtImageData out) 0%Z)).
    { pose proof (sourceIndex_0 p N) as Z0.
      unfold sourceIndex, Math_floor in *. rewrite Qfloor_Z in Z0.
      rewrite Z0. apply (load_in_range (prtImageData out) 0). lia. }
    rewrite L. cbn [or_zero]. rewrite ToUint8_Z.
    pose proof (prt_bytes _ _ _ _ G) as Hb. rewrite Forall_forall in Hb.
    apply Z.mod_small, Hb, nth_In, HN.
Qed.

Lemma preview_sampling_keeps_the_order_witness :
  exists out,
    generateRIPFiles ref_engine tiny_geometry tiny_settings = Some out
    /\ nth 0 (pvwImageData out) 0%Z = nth 0 (prtImageData out) 0%Z.
Proof.
  destruct tiny_generates as [out Hout]. exists out.
  split; [exact Hout|].
  pose proof (generateRIPFiles_inv _ _ _ _ Hout) as G.
  pose proof (prt_length _ _ _ _ G) as L.
  pose proof (pvw_length _ _ _ _ G) as L'.
  rewrite tiny_compressedImageSize in L. rewrite tiny_pvwImageDataSize in L'.
  apply (preview_sampling_keeps_the_order ref_engine tiny_geometry
           tiny_settings out Hout); clear - L L'; lia.
Defined.

(** ** Rows and columns *)

Lemma quotient_floor_exact m W :
  (0 <= m)%Z -> (0 < W)%Z -> (m + W <= 2 ^ 53)%Z ->
  Qfloor (round (inject_Z m / inject_Z W)) = (m / W)%Z.
Proof.
  intros Hm HW Hsum. set (k := (m / W)%Z).
  assert (Hk : (k * W <= m < (k + 1) * W)%Z).
  { unfold k. pose proof (Z.mul_div_le m W HW).
    pose proof (Z.mul_succ_div_gt m W HW). lia. }
  assert (Hk0 : (0 <= k)%Z) by (apply Z.div_pos; lia).
  assert (HkW : ((k + 1) * W <= 2 ^ 53)%Z) by lia.
  assert (Hk53 : (k + 1 <= 2 ^ 53)%Z) by nia.
  assert (Hw : 0 < inject_Z W)
    by (change 0 with (inject_Z 0); rewrite <- Zlt_Qlt; lia).
  assert (A1 : inject_Z k * inject_Z W <= inject_Z m)
    by (rewrite <- inject_Z_mult, <- Zle_Qle; lia).
  assert (A2 : inject_Z m <= inject_Z (k + 1) * inject_Z W - 1).
  { change 1 with (inject_Z 1). rewrite <- inject_Z_mult.
    change (inject_Z ((k + 1) * W) - inject_Z 1)
      with (inject_Z ((k + 1) * W) + - inject_Z 1).
    rewrite <- inject_Z_opp, <- inject_Z_plus, <- Zle_Qle. lia. }
  assert (A3 : inject_Z (k + 1) * inject_Z W <= inject_Z (2 ^ 53))
    by (rewrite <- inject_Z_mult, <- Zle_Qle; lia).
  assert (P : pow2 (-53) * inject_Z (2 ^ 53) == 1) by (vm_compute; reflexivity).
  pose proof (pow2_pos (-53)) as P0.
  set (x := inject_Z m / inject_Z W).
  assert (X : x * inject_Z W == inject_Z m)
    by (unfold x; field; lra).
  assert (Hx0 : 0 <= x).
  { unfold x. apply Qle_shift_div_l; [exact Hw|].
    rewrite Qmult_0_l. apply inject_Z_nonneg, Hm. }
  assert (Hlo : inject_Z k <= x).
  { unfold x. apply Qle_shift_div_l; [exact Hw | exact A1]. }
  assert (Hhi : x <= inject_Z (k + 1) * (1 - pow2 (-53))).
  { unfold x. apply Qle_shift_div_r; [exact Hw|].
    assert (Kwp : inject_Z (k + 1) * inject_Z W * pow2 (-53) <= 1).
    { rewrite <- P, (Qmult_comm (pow2 (-53))).
      apply Qmult_le_compat_r; [exact A3 | lra]. }
    assert (E : inject_Z (k + 1) * (1 - pow2 (-53)) * inject_Z W
                == inject_Z (k + 1) * inject_Z W
                   - inject_Z (k + 1) * inject_Z W * pow2 (-53)) by ring.
    rewrite E. revert A2 Kwp.
    generalize (inject_Z (k + 1) * inject_Z W)
      (inject_Z (k + 1) * inject_Z W * pow2 (-53)) (inject_Z m).
    intros a b c; intros. lra. }
  apply Z.le_antisymm.
  - assert (Qfloor (round x) < k + 1)%Z; [|lia].
    apply Qfloor_lt_Z, round_below_int; [lia | exact Hx0 | exact Hhi].
  - rewrite <- (Qfloor_Z k). apply Qfloor_resp_le, round_ge_Z; [lia|exact Hlo].
Qed.

(** X16: when the page count divides the payload length and the length
    plus the page width is at most 2^53, the row and the column the
    payload loop computes in doubles are the integer quotient and
    remainder of (i mod length/pages) by the page width. *)
Theorem rows_and_columns_are_exact E g s out :
  generateRIPFiles E g s = Some out ->
  (0 < pageWidth g)%Z -> (0 < numPages g)%Z ->
  let size := compressedImageSize g s in
  (numPages g | size)%Z ->
  (size + pageWidth g <= 2 ^ 53)%Z ->
  forall i, (i < List.length (prtImageData out))%nat ->
    let pageOffset := (Z.of_nat i mod (size / numPages g))%Z in
    row g size i == inject_Z (pageOffset / pageWidth g)
    /\ col g size i == inject_Z (pageOffset mod pageWidth g).
Proof.
  intros Hout HW HP size Hdiv Hsum i Hi po.
  pose proof (generateRIPFiles_inv _ _ _ _ Hout) as G.
  pose proof (prt_length _ _ _ _ G) as L. fold size in L.
  assert (HN : (0 < size)%Z) by lia.
  assert (Hpo : pageOffset g size i == inject_Z po).
  { apply pageOffset_exact; try assumption. lia. }
  assert (Hq : (0 < size / numPages g <= size)%Z).
  { destruct Hdiv as [q Hq'].
    assert ((size / numPages g = q)%Z) as ->
      by (rewrite Hq'; apply Z.div_mul; lia).
    nia. }
  assert (Hm : (0 <= po < size / numPages g)%Z)
    by (apply Z.mod_pos_bound; lia).
  assert (HWq : num (pageWidth g) == inject_Z (pageWidth g))
    by (apply num_safe; lia).
  split.
  - unfold row, Math_floor, fdiv.
    rewrite (round_proper _ (inject_Z po / inject_Z (pageWidth g)))
      by (rewrite Hpo, HWq; reflexivity).
    rewrite quotient_floor_exact by lia. reflexivity.
  - unfold col. rewrite (frem_proper_l _ _ _ Hpo), (frem_proper_r _ _ _ HWq).
    apply frem_Z; lia.
Qed.

Lemma rows_and_columns_are_exact_witness :
  exists out,
    generateRIPFiles ref_engine booklet_geometry booklet_settings = Some out
    /\ row booklet_geometry 24 19 == inject_Z 1
    /\ col booklet_geometry 24 19 == inject_Z 3.
Proof.
  destruct booklet_generates as [out Hout]. exists out.
  split; [exact Hout|].
  assert (L : Z.of_nat (List.length (prtImageData out)) = 24%Z).
  { rewrite (prt_length _ _ _ _ (generateRIPFiles_inv _ _ _ _ Hout)).
    apply booklet_compressedImageSize. }
  assert (Hi : (19 < List.length (prtImageData out))%nat) by (clear - L; lia).
  pose proof (rows_and_columns_are_exact ref_engine booklet_geometry
                booklet_settings out Hout eq_refl eq_refl) as T.
  rewrite booklet_compressedImageSize in T.
  exact (T ltac:(exists 12%Z; reflexivity) ltac:(cbn; lia) 19%nat Hi).
Defined.

(** * The page component *)

(** ** The name of the downloads *)

Lemma prefix_mismatch a p c rest :
  a <> c -> String.prefix (String a p) (String c rest) = false.
Proof.
  intros H. cbn [String.prefix]. destruct (ascii_dec a c); [contradiction|].
  reflexivity.
Qed.

(** X17: [name.replace('.pdf', '')] removes the first [.pdf] only:
    for a name whose part before it holds no dot, what follows the
    first [.pdf] is kept, a second [.pdf] included. *)
Theorem baseName_drops_the_first_pdf base rest :
  (forall c, In c (list_ascii_of_string base) -> c <> "."%char) ->
  String_replace ".pdf" EmptyString (base ++ ".pdf" ++ rest)
  = (base ++ rest)%string.
Proof.
  induction base as [|c base IH]; intros Hdot.
  - cbn [String.append]. destruct rest; reflexivity.
  - cbn [String.append String_replace].
    rewrite prefix_mismatch.
    + f_equal. apply IH. intros x Hx. apply Hdot. right. exact Hx.
    + intros E. apply (Hdot c); [left; reflexivity | now symmetry].
Qed.

Lemma baseName_drops_the_first_pdf_witness :
  (forall c, In c (list_ascii_of_string "report") -> c <> "."%char)
  /\ String_replace ".pdf" EmptyString "report.pdf.pdf" = "report.pdf"%string.
Proof.
  assert (H : forall c, In c (list_ascii_of_string "report") -> c <> "."%char).
  { intros c Hc. cbn in Hc.
    repeat (destruct Hc as [<-|Hc]; [discriminate|]). contradiction. }
  split; [exact H|].
  exact (baseName_drops_the_first_pdf "report" ".pdf" H).
Defined.

(** X18: a name that does not contain the pattern is left as it is
    (an upper-case [.PDF] is not removed). *)
Theorem baseName_keeps_other_names pattern replacement name :
  String_includes pattern name = false ->
  String_replace pattern replacement name = name.
Proof.
  induction name as [|c name IH]; intros H.
  - cbn [String_includes] in H. apply orb_false_elim in H. destruct H as [H _].
    cbn [String_replace]. rewrite H. reflexivity.
  - cbn [String_includes] in H. apply orb_false_elim in H. destruct H as [H H'].
    cbn [String_replace]. rewrite H. f_equal. apply IH, H'.
Qed.

Lemma baseName_keeps_other_names_witness :
  String_includes ".pdf" "SCAN.PDF" = false
  /\ String_replace ".pdf" EmptyString "SCAN.PDF" = "SCAN.PDF"%string.
Proof.
  split; [reflexivity|].
  apply (baseName_keeps_other_names ".pdf" EmptyString "SCAN.PDF").
  reflexivity.
Defined.

(** ** The conversion *)

Lemma steps_progress :
  map progress
    (stepStatuses {| isConverting := true; progress := 0;
                     message := "Iniciando conversão..."; type := info |}
                  0 (List.length steps))
  = [0; 13; 25; 38; 50; 63; 75; 88]%Z.
Proof. vm_compute. reflexivity. Qed.

Lemma stepStatuses_keep prev i count :
  Forall (fun x => isConverting x = isConverting prev /\ type x = type prev)
         (stepStatuses prev i count).
Proof.
  revert prev i. induction count as [|c IH]; intros prev i; cbn [stepStatuses].
  - constructor.
  - constructor; [split; reflexivity|]. apply (IH (stepStatus prev i) (S i)).
Qed.

Lemma convertToRIP_spec B file s :
  let c := convertToRIP B (Some file) s in
  let baseName := String_replace ".pdf" EmptyString (File.name file) in
  exists during final,
    statuses c = during ++ [final]
    /\ map progress during = [0; 0; 13; 25; 38; 50; 63; 75; 88]%Z
    /\ Forall (fun x => isConverting x = true /\ type x = info) during
    /\ isConverting final = false
    /\ message final <> EmptyString
    /\ match generateRIPFiles_of B file s with
       | inl out =>
           type final = success /\ progress final = 100%Z
           /\ downloads c
              = [ {| download := baseName ++ ".prt"; blob := prtData out |};
                  {| download := baseName ++ ".prt.pvw";
                     blob := pvwData out |} ]
       | inr _ =>
           type final = error /\ progress final = 0%Z /\ downloads c = []
       end.
Proof.
  intros c baseName. unfold c, convertToRIP.
  set (started := {| isConverting := true; progress := 0;
                     message := "Iniciando conversão..."; type := info |}).
  assert (P : map progress (started :: stepStatuses started 0 (List.length steps))
              = [0; 0; 13; 25; 38; 50; 63; 75; 88]%Z).
  { exact (f_equal (cons 0%Z) steps_progress). }
  assert (K : Forall (fun x => isConverting x = true /\ type x = info)
                     (started :: stepStatuses started 0 (List.length steps))).
  { constructor; [split; reflexivity|].
    exact (stepStatuses_keep started 0 (List.length steps)). }
  destruct (generateRIPFiles_of B file s) as [out|thrown];
    eexists; eexists; cbn [statuses downloads];
    (split; [reflexivity|]);
    (split; [exact P|]); (split; [exact K|]);
    cbn [isConverting type progress message];
    (split; [reflexivity|]); (split; [discriminate|]);
    repeat split; reflexivity.
Qed.

(** X19: without a selected file [convertToRIP] does nothing.  With
    one, the status is set ten times: nine values that are converting,
    of type info, with progress 0, 0, 13, 25, 38, 50, 63, 75, 88, then
    a last one that is not converting; that one is success at 100 with
    exactly the two downloads [base.prt] and [base.prt.pvw] when the
    files were generated, and error at 0 with no download when
    anything was thrown. *)
Theorem conversion_outcome B file s :
  convertToRIP B None s = {| statuses := []; downloads := [] |}
  /\ let c := convertToRIP B (Some file) s in
     let baseName := String_replace ".pdf" EmptyString (File.name file) in
     exists during final,
       statuses c = during ++ [final]
       /\ map progress during = [0; 0; 13; 25; 38; 50; 63; 75; 88]%Z
       /\ Forall (fun x => isConverting x = true /\ type x = info) during
       /\ isConverting final = false
       /\ match generateRIPFiles_of B file s with
          | inl out =>
              type final = success /\ progress final = 100%Z
              /\ downloads c
                 = [ {| download := baseName ++ ".prt"; blob := prtData out |};
                     {| download := baseName ++ ".prt.pvw";
                        blob := pvwData out |} ]
          | inr _ =>
              type final = error /\ progress final = 0%Z /\ downloads c = []
          end.
Proof.
  split; [reflexivity|]. intros c baseName.
  destruct (convertToRIP_spec B file s)
    as [during [final [H1 [H2 [H3 [H4 [_ H5]]]]]]].
  exists during, final. repeat split; assumption.
Qed.

(** ** The page between events *)

Lemma consistent_initialPage : consistent initialPage.
Proof.
  unfold consistent, initialPage. cbn [state shown delivered].
  split; [intros f H; discriminate H|]. split; [reflexivity|].
  split; [right; right; right; reflexivity|].
  split; [constructor; [right; right; right; reflexivity | constructor]|].
  exists []. reflexivity.
Qed.

Lemma conversion_shapes B file s (d : ConversionStatus) :
  let c := convertToRIP B (Some file) s in
  isConverting (last (statuses c) d) = false
  /\ status_shape (last (statuses c) d)
  /\ Forall status_shape (statuses c)
  /\ exists l, downloads c = flat_map paired l.
Proof.
  intros c.
  destruct (convertToRIP_spec B file s)
    as [during [final [H1 [H2 [H3 [H4 [H5 H6]]]]]]].
  fold c in H1, H6. rewrite H1, last_last.
  assert (Hd : Forall status_shape during).
  { assert (R : Forall (fun z => (0 <= z <= 88)%Z) (map progress during))
      by (rewrite H2; repeat constructor; lia).
    rewrite Forall_map in R.
    rewrite Forall_forall in *. intros x Hx.
    destruct (H3 x Hx) as [A B']. left. repeat split; try assumption;
      apply (R x Hx). }
  destruct (generateRIPFiles_of B file s) as [out|thrown].
  - destruct H6 as [T [P D]].
    assert (Hf : status_shape final) by (right; left; repeat split; assumption).
    split; [exact H4|]. split; [exact Hf|].
    split; [apply Forall_app; split; [exact Hd | constructor; [exact Hf | constructor]]|].
    exists [(String_replace ".pdf" EmptyString (File.name file), out)].
    rewrite D. reflexivity.
  - destruct H6 as [T [P D]].
    assert (Hf : status_shape final)
      by (right; right; left; repeat split; assumption).
    split; [exact H4|]. split; [exact Hf|].
    split; [apply Forall_app; split; [exact Hd | constructor; [exact Hf | constructor]]|].
    exists []. rewrite D. reflexivity.
Qed.

Lemma consistent_handle B ev p : consistent p -> consistent (handle B ev p).
Proof.
  intros [Hsel [Hconv [Hshape [Hshown [l Hl]]]]].
  assert (Herr : forall m, m <> EmptyString ->
            status_shape {| isConverting := false; progress := 0;
                            message := m; type := error |}).
  { intros m Hm. right; right; left. repeat split. exact Hm. }
  destruct ev as [files|v|c|v|]; unfold handle.
  - (* the file input *)
    assert (G : (forall f, selectedFile (handleFileSelect B files (state p)) = Some f ->
                           File.type f = "application/pdf"%string)
                /\ isConverting (status (handleFileSelect B files (state p))) = false
                /\ status_shape (status (handleFileSelect B files (state p)))).
    { unfold handleFileSelect. destruct files as [|file rest].
      - repeat split; assumption.
      - destruct (String.eqb (File.type file) "application/pdf") eqn:T.
        + apply String.eqb_eq in T. unfold generatePreview.
          destruct (renderFirstPage B file);
            cbn [setPreviewUrl setStatus setSelectedFile selectedFile status
                 isConverting].
          * split; [intros f H; apply Some_inj in H; subst f; exact T|].
            split; assumption.
          * split; [intros f H; apply Some_inj in H; subst f; exact T|].
            split; [reflexivity | apply Herr; discriminate].
        + cbn [setStatus selectedFile status isConverting].
          split; [exact Hsel|]. split; [reflexivity | apply Herr; discriminate]. }
    destruct G as [G1 [G2 G3]]. unfold consistent. cbn [state shown delivered].
    split; [exact G1|]. split; [exact G2|]. split; [exact G3|].
    split; [apply Forall_app; split; [exact Hshown | constructor; [exact G3 | constructor]]|].
    exists l. exact Hl.
  - unfold consistent. cbn [state shown delivered setSettings selectedFile status].
    repeat split; try assumption. exists l. exact Hl.
  - unfold consistent. cbn [state shown delivered setSettings selectedFile status].
    repeat split; try assumption. exists l. exact Hl.
  - unfold consistent. cbn [state shown delivered setSettings selectedFile status].
    repeat split; try assumption. exists l. exact Hl.
  - (* the convert button *)
    destruct (convertDisabled (state p)) eqn:Dis.
    + unfold consistent. repeat split; try assumption. exists l. exact Hl.
    + unfold convertDisabled in Dis. apply orb_false_elim in Dis.
      destruct Dis as [Dis _].
      destruct (selectedFile (state p)) as [file|] eqn:F; [|discriminate Dis].
      destruct (conversion_shapes B file (settings (state p)) (status (state p)))
        as [C1 [C2 [C3 [l' C4]]]].
      unfold consistent. cbn [state shown delivered setStatus selectedFile status].
      split; [rewrite F; exact Hsel|]. split; [exact C1|]. split; [exact C2|].
      split; [apply Forall_app; split; assumption|].
      exists (l ++ l'). rewrite flat_map_app, Hl, C4. reflexivity.
Qed.

Lemma consistent_run events : forall p, consistent p -> consistent (run events p).
Proof.
  induction events as [|[B ev] rest IH]; intros p H; cbn [run];
    [exact H | apply IH, consistent_handle, H].
Qed.

(** X20: after any sequence of events the selected file, if any, has
    type application/pdf, the status is not converting, and the
    downloads delivered so far are pairs: a [.prt] followed by the
    [.prt.pvw] of the same base name and the same call. *)
Theorem page_invariant events :
  let p := run events initialPage in
  (forall f, selectedFile (state p) = Some f ->
             File.type f = "application/pdf"%string)
  /\ isConverting (status (state p)) = false
  /\ exists l, delivered p = flat_map paired l.
Proof.
  intros p. destruct (consistent_run events initialPage consistent_initialPage)
    as [H1 [H2 [_ [_ H3]]]].
  repeat split; assumption.
Qed.

Lemma status_shape_display x :
  status_shape x ->
  match getStatusIcon x with
  | Some Loader2 =>
      getStatusColor x = "bg-blue-50 border-blue-200 text-blue-800"%string
      /\ (0 <= progress x <= 88)%Z
  | Some CheckCircle =>
      getStatusColor x = "bg-green-50 border-green-200 text-green-800"%string
      /\ progress x = 100%Z
  | Some AlertCircle =>
      getStatusColor x = "bg-red-50 border-red-200 text-red-800"%string
      /\ progress x = 0%Z
  | None => statusShown x = false
  end.
Proof.
  unfold getStatusIcon, getStatusColor.
  intros [[A [B C]]|[[A [B C]]|[[A [B [C D]]]| -> ]]].
  - rewrite A, B. split; [reflexivity | exact C].
  - rewrite A, B. split; [reflexivity | exact C].
  - rewrite A, B. split; [reflexivity | exact C].
  - reflexivity.
Qed.

(** X21: every status the page ever shows is displayed consistently:
    the spinner goes with the blue panel and a progress of at most 88,
    the check mark with the green panel and progress 100, the alert
    with the red panel and progress 0, and there is no icon only while
    the message is empty and the panel hidden. *)
Theorem displayed_statuses events x :
  In x (shown (run events initialPage)) ->
  match getStatusIcon x with
  | Some Loader2 =>
      getStatusColor x = "bg-blue-50 border-blue-200 text-blue-800"%string
      /\ (0 <= progress x <= 88)%Z
  | Some CheckCircle =>
      getStatusColor x = "bg-green-50 border-green-200 text-green-800"%string
      /\ progress x = 100%Z
  | Some AlertCircle =>
      getStatusColor x = "bg-red-50 border-red-200 text-red-800"%string
      /\ progress x = 0%Z
  | None => statusShown x = false
  end.
Proof.
  intros Hx. destruct (consistent_run events initialPage consistent_initialPage)
    as [_ [_ [_ [H _]]]].
  rewrite Forall_forall in H. apply status_shape_display, H, Hx.
Qed.

Lemma sample_session_shown :
  map progress (shown (run sample_session initialPage))
  = [0; 0; 0; 0; 13; 25; 38; 50; 63; 75; 88; 100]%Z.
Proof. vm_compute. reflexivity. Qed.

Lemma displayed_statuses_witness :
  let x := {| isConverting := false; progress := 100;
              message :=
                "Conversão concluída! Arquivos .prt e .prt.pvw gerados com sucesso!";
              type := success |} in
  In x (shown (run sample_session initialPage))
  /\ getStatusColor x = "bg-green-50 border-green-200 text-green-800"%string
  /\ progress x = 100%Z.
Proof.
  intros x.
  assert (H : In x (shown (run sample_session initialPage))).
  { vm_compute. do 11 right. left. reflexivity. }
  split; [exact H|].
  exact (displayed_statuses sample_session x H).
Defined.

(** X22: no event clears the selection: once a file is selected, one
    stays selected, whatever is chosen or converted afterwards. *)
Theorem selection_is_never_cleared events :
  forall p,
    selectedFile (state p) <> None ->
    selectedFile (state (run events p)) <> None.
Proof.
  induction events as [|[B ev] rest IH]; intros p H; cbn [run]; [exact H|].
  apply IH. destruct ev as [files|v|c|v|]; unfold handle; cbn [state].
  - unfold handleFileSelect. destruct files as [|file more]; [exact H|].
    destruct (String.eqb (File.type file) "application/pdf").
    + unfold generatePreview. destruct (renderFirstPage B file);
        cbn [setPreviewUrl setStatus setSelectedFile selectedFile];
        discriminate.
    + exact H.
  - exact H.
  - exact H.
  - exact H.
  - destruct (convertDisabled (state p)); [exact H|].
    cbn [state setStatus selectedFile]. exact H.
Qed.

Lemma selection_is_never_cleared_witness :
  selectedFile
    (state (run [ (sample_browser, FileInputChange [sample_file]);
                  (sample_browser, FileInputChange [text_file]) ]
                initialPage))
  <> None.
Proof.
  apply (selection_is_never_cleared
           [ (sample_browser, FileInputChange [text_file]) ]
           (run [ (sample_browser, FileInputChange [sample_file]) ]
                initialPage)).
  cbn. discriminate.
Defined.

(** ** The settings the controls allow, and a click on them *)

Lemma settings_handle B ev p :
  from_controls ev ->
  settings_in_range (settings (state p)) ->
  settings_in_range (settings (state (handle B ev p))).
Proof.
  intros Hev [Hd Hc]. destruct ev as [files|v|c|v|]; unfold handle.
  - cbn [state]. unfold handleFileSelect.
    destruct files as [|file rest]; [split; assumption|].
    destruct (String.eqb (File.type file) "application/pdf").
    + unfold generatePreview. destruct (renderFirstPage B file);
        cbn [setPreviewUrl setStatus setSelectedFile settings];
        split; assumption.
    + cbn [setStatus settings]. split; assumption.
  - cbn [state setSettings settings]. split; [exact Hev | exact Hc].
  - cbn [state setSettings settings]. split; [exact Hd | exact Hc].
  - cbn [state setSettings settings]. split; [exact Hd | exact Hev].
  - destruct (convertDisabled (state p)); [split; assumption|].
    cbn [state setStatus settings]. split; assumption.
Qed.

Lemma settings_run events :
  Forall (fun e => from_controls (snd e)) events ->
  forall p, settings_in_range (settings (state p)) ->
            settings_in_range (settings (state (run events p))).
Proof.
  induction events as [|[B ev] rest IH]; intros Hev p Hp; cbn [run];
    [exact Hp|].
  apply IH.
  - apply (Forall_inv_tail Hev).
  - apply settings_handle; [exact (Forall_inv Hev) | exact Hp].
Qed.

Lemma sample_geometry :
  pageGeometry sample_document
    (settings (state (run [ (sample_browser, FileInputChange [sample_file]);
                            (sample_browser, CompressionChange 65) ]
                          initialPage)))
  = tiny_geometry.
Proof. vm_compute. reflexivity. Qed.

(** X23: after any sequence of events that the controls can deliver,
    the resolution is one of the menu and the level is within 10 ..
    100; and with a file selected, a click on the convert button ends
    as the call on that file at these settings does: in success at 100
    with the two buffers of the call delivered as [base.prt] and
    [base.prt.pvw] when the call returns them, in error at 0 with
    nothing delivered when anything is thrown. *)
Theorem the_controls_keep_settings_in_range events B file :
  Forall (fun e => from_controls (snd e)) events ->
  let p := run events initialPage in
  let s := settings (state p) in
  In (dpi s) [300; 600; 1200; 2400]%Z
  /\ (10 <= compressionLevel s <= 100)%Z
  /\ (selectedFile (state p) = Some file ->
      let p' := handle B ConvertClick p in
      match generateRIPFiles_of B file s with
      | inl out =>
          type (status (state p')) = success
          /\ progress (status (state p')) = 100%Z
          /\ delivered p'
             = delivered p
               ++ paired (String_replace ".pdf" EmptyString (File.name file),
                          out)
      | inr _ =>
          type (status (state p')) = error
          /\ progress (status (state p')) = 0%Z
          /\ delivered p' = delivered p
      end).
Proof.
  intros Hev p s.
  assert (I : settings_in_range (settings (state initialPage))).
  { split; [right; left; reflexivity | cbn; lia]. }
  destruct (settings_run events Hev initialPage I) as [Hd Hc].
  fold p in Hd, Hc. fold s in Hd, Hc.
  split; [exact Hd|]. split; [exact Hc|].
  intros Hsel p'.
  destruct (consistent_run events initialPage consistent_initialPage)
    as [_ [Hconv _]]. fold p in Hconv.
  assert (Dis : convertDisabled (state p) = false).
  { unfold convertDisabled. rewrite Hsel, Hconv. reflexivity. }
  unfold p', handle. rewrite Dis. cbn [state delivered setStatus status].
  rewrite Hsel. fold s.
  unfold convertToRIP.
  destruct (generateRIPFiles_of B file s) as [out|thrown];
    cbn [statuses downloads]; rewrite last_last.
  - split; [reflexivity|]. split; reflexivity.
  - split; [reflexivity|]. split; [reflexivity|]. apply app_nil_r.
Qed.

Lemma sample_selection :
  selectedFile (state (run [ (sample_browser, FileInputChange [sample_file]);
                             (sample_browser, CompressionChange 65) ]
                           initialPage))
  = Some sample_file.
Proof. reflexivity. Qed.

Lemma sample_call :
  exists out,
    generateRIPFiles ref_engine tiny_geometry tiny_settings = Some out
    /\ generateRIPFiles_of sample_browser sample_file
         (settings
            (state (run [ (sample_browser, FileInputChange [sample_file]);
                          (sample_browser, CompressionChange 65) ]
                        initialPage)))
       = inl out.
Proof.
  destruct tiny_generates as [out Hout]. exists out.
  split; [exact Hout|].
  unfold generateRIPFiles_of.
  cbn [getDocument sample_browser engine].
  rewrite sample_geometry.
  change (settings _) with tiny_settings.
  rewrite Hout. reflexivity.
Qed.

Lemma the_controls_keep_settings_in_range_witness :
  type (status (state (run sample_session initialPage))) = success
  /\ List.length (delivered (run sample_session initialPage)) = 2%nat.
Proof.
  assert (H : Forall (fun e => from_controls (snd e))
                [ (sample_browser, FileInputChange [sample_file]);
                  (sample_browser, CompressionChange 65) ]).
  { repeat constructor; cbn; lia. }
  destruct (the_controls_keep_settings_in_range _ sample_browser sample_file H)
    as [_ [_ T]].
  specialize (T sample_selection).
  destruct sample_call as [out [_ G]].
  cbv zeta in T. rewrite G in T. destruct T as [T1 [_ T2]].
  split; [exact T1|].
  change (run sample_session initialPage)
    with (handle sample_browser ConvertClick
            (run [ (sample_browser, FileInputChange [sample_file]);
                   (sample_browser, CompressionChange 65) ] initialPage)).
  rewrite T2. reflexivity.
Defined.
